(** * BOM parts sourcing: scoring, supplier cascade, row interpreter and
      supplier adapters, embedded from [src/app/api/bom-upload/route.ts] and
      [src/lib/parts-search.ts].

    Conventions of the embedding.
    - A JavaScript [number] is [NaN], an infinity, or a finite value kept as
      an exact rational: the rounding of IEEE doubles is not modelled, and the
      two zeros are identified.  A text read as a number ([parseInt],
      [parseFloat], [Number]) overflows to an infinity as a double does;
      arithmetic does not overflow.
    - A JavaScript string is a [string] of 8-bit code units; case mapping acts
      on the ASCII letters only.
    - An object used as a string-keyed record (a BOM row) is a
      [gmap string string]; a missing key reads as [undefined], here [None]. *)

From Stdlib Require Import QArith Qpower Qminmax Lqa ZArith Lia Ascii Sorted.
From Stdlib Require String.
From stdpp Require Import base option list strings gmap.

Local Open Scope Z_scope.

(** ** JavaScript numbers *)

Module Num.

Inductive number : Type :=
| NaN
| NegInf
| Fin (q : Q)
| PosInf.

Definition of_Z (z : Z) : number := Fin (inject_Z z).

(** The integer a number literal of the code stands for. *)
Definition to_Z (n : number) : option Z :=
  match n with
  | Fin (Qmake z 1) => Some z
  | _ => None
  end.

Definition Qltb (a b : Q) : bool :=
  match Qcompare a b with Lt => true | _ => false end.

Definition Qeqb (a b : Q) : bool :=
  match Qcompare a b with Eq => true | _ => false end.

(** [a < b] *)
Definition lt (a b : number) : bool :=
  match a, b with
  | NaN, _ | _, NaN => false
  | NegInf, NegInf => false
  | NegInf, _ => true
  | Fin x, Fin y => Qltb x y
  | Fin _, PosInf => true
  | Fin _, NegInf => false
  | PosInf, _ => false
  end.

(** [a > b] *)
Definition gt (a b : number) : bool := lt b a.

(** [a === b] on numbers *)
Definition strict_eq (a b : number) : bool :=
  match a, b with
  | NegInf, NegInf | PosInf, PosInf => true
  | Fin x, Fin y => Qeqb x y
  | _, _ => false
  end.

(** [a <= b] *)
Definition le (a b : number) : bool := lt a b || strict_eq a b.

Definition isNaN (a : number) : bool :=
  match a with NaN => true | _ => false end.

Definition neg (a : number) : number :=
  match a with
  | NaN => NaN
  | NegInf => PosInf
  | Fin x => Fin (- x)
  | PosInf => NegInf
  end.

Definition add (a b : number) : number :=
  match a, b with
  | NaN, _ | _, NaN => NaN
  | PosInf, NegInf | NegInf, PosInf => NaN
  | PosInf, _ | _, PosInf => PosInf
  | NegInf, _ | _, NegInf => NegInf
  | Fin x, Fin y => Fin (x + y)
  end.

Definition sub (a b : number) : number := add a (neg b).

(** The sign of a number that is not [NaN]: [Lt], [Eq] or [Gt]. *)
Definition sign (a : number) : comparison :=
  match a with
  | NaN => Eq
  | NegInf => Lt
  | Fin x => Qcompare x 0
  | PosInf => Gt
  end.

Definition signed_inf (s : comparison) : number :=
  match s with Lt => NegInf | Eq => NaN | Gt => PosInf end.

Definition sign_mul (s t : comparison) : comparison :=
  match s, t with
  | Eq, _ | _, Eq => Eq
  | Lt, Lt | Gt, Gt => Gt
  | _, _ => Lt
  end.

Definition mul (a b : number) : number :=
  match a, b with
  | NaN, _ | _, NaN => NaN
  | Fin x, Fin y => Fin (x * y)
  | _, _ => signed_inf (sign_mul (sign a) (sign b))
  end.

Definition div (a b : number) : number :=
  match a, b with
  | NaN, _ | _, NaN => NaN
  | Fin x, Fin y =>
      if Qeqb y 0 then signed_inf (sign a) else Fin (x / y)
  | Fin _, _ => Fin 0
  | _, Fin y =>
      signed_inf (sign_mul (sign a) (match Qcompare y 0 with Lt => Lt | _ => Gt end))
  | _, _ => NaN
  end.

(** [Math.min(a, b)] and [Math.max(a, b)]: [NaN] when either argument is. *)
Definition Math_min (a b : number) : number :=
  match a, b with
  | NaN, _ | _, NaN => NaN
  | _, _ => if lt b a then b else a
  end.

Definition Math_max (a b : number) : number :=
  match a, b with
  | NaN, _ | _, NaN => NaN
  | _, _ => if lt a b then b else a
  end.

(** Equality of the values denoted (rationals up to [Qeq]). *)
Definition eqv (a b : number) : Prop :=
  match a, b with
  | NaN, NaN | NegInf, NegInf | PosInf, PosInf => True
  | Fin x, Fin y => Qeq x y
  | _, _ => False
  end.

(** A number that is an integer value. *)
Definition is_integer (a : number) : Prop :=
  match a with
  | Fin x => exists z : Z, Qeq x (inject_Z z)
  | _ => False
  end.

End Num.

Export Num.

Declare Scope num_scope.
Delimit Scope num_scope with num.
Bind Scope num_scope with number.
Infix "+" := Num.add : num_scope.
Infix "-" := Num.sub : num_scope.
Infix "*" := Num.mul : num_scope.
Infix "/" := Num.div : num_scope.
Infix ">?" := Num.gt (at level 70) : num_scope.
Infix "<?" := Num.lt (at level 70) : num_scope.
Number Notation number Num.of_Z Num.to_Z : num_scope.

(** ** The normalized part record ([PartSearchResult]) *)

Record PartSearchResult : Type := mkPart {
  supplier : string;
  partNumber : string;
  manufacturer : string;
  manufacturerPartNumber : string;
  description : string;
  value : string;
  footprint : string;
  stock : number;
  price : number;
  currency : string;
  url : string;
  datasheet : string;
  lcscPart : option string;
  image : option string;
  package : option string;
  specifications : option (gmap string string)
}.

(** Truthiness of a string and of an optional string property. *)
Definition truthy_str (s : string) : bool :=
  match s with EmptyString => false | _ => true end.

Definition truthy_opt (o : option string) : bool :=
  match o with Some s => truthy_str s | None => false end.

(** ** Scoring (route.ts, [scoreJLCPCBPart] and [scoreDistributorPart]) *)

Section Scoring.
Local Open Scope num_scope.

Definition scoreJLCPCBPart (part : PartSearchResult) : number :=
  let score := 0 in
  (* In stock is critical (1000 points) *)
  let score := if stock part >? 0 then score + 1000 else score in
  (* Higher stock is better (up to 100 points) *)
  let score := score + Math_min (stock part / 100000) 100 in
  (* Lower price is better (up to 50 points) *)
  let score :=
    if price part >? 0
    then score + Math_max 0 (50 - price part * 10)
    else score in
  (* Has LCSC part number (50 points) *)
  let score := if truthy_opt (lcscPart part) then score + 50 else score in
  score.

Definition scoreDistributorPart (part : PartSearchResult) : number :=
  let score := 0 in
  let score := if stock part >? 0 then score + 1000 else score in
  let score := score + Math_min (stock part / 100000) 100 in
  let score :=
    if price part >? 0
    then score + Math_max 0 (50 - price part * 10)
    else score in
  (* Has datasheet (20 points) *)
  let score := if truthy_str (datasheet part) then score + 20 else score in
  score.

(** The scoring policy as the specification words it: an Iverson bracket is
    1 or 0, the price term is present only for a positive price. *)
Definition iverson (b : bool) : number := if b then 1 else 0.

Definition reference_score (bonus : number) (has_bonus : bool)
    (part : PartSearchResult) : number :=
  1000 * iverson (stock part >? 0)
  + Math_min (stock part / 100000) 100
  + (if price part >? 0 then Math_max 0 (50 - price part * 10) else 0)
  + bonus * iverson has_bonus.

Definition reference_score_free_catalog (part : PartSearchResult) : number :=
  reference_score 50 (truthy_opt (lcscPart part)) part.

Definition reference_score_distributor (part : PartSearchResult) : number :=
  reference_score 20 (truthy_str (datasheet part)) part.

End Scoring.

(** ** Strings: the built-ins and the regular expressions the code uses *)

Module Str.


Definition code (c : ascii) : N := N_of_ascii c.

Definition between (lo hi : N) (c : ascii) : bool :=
  (lo <=? code c)%N && (code c <=? hi)%N.

Definition is_digit : ascii -> bool := between 48 57.
Definition is_upper : ascii -> bool := between 65 90.
Definition is_lower : ascii -> bool := between 97 122.

(** [\w]: letters, digits and the underscore. *)
Definition is_word (c : ascii) : bool :=
  is_digit c || is_upper c || is_lower c || (code c =? 95)%N.

(** White space and line terminators among the 8-bit code units. *)
Definition is_ws (c : ascii) : bool :=
  between 9 13 c || (code c =? 32)%N || (code c =? 160)%N.

Definition upper_char (c : ascii) : ascii :=
  if is_lower c then ascii_of_N (code c - 32) else c.

Definition lower_char (c : ascii) : ascii :=
  if is_upper c then ascii_of_N (code c + 32) else c.

Fixpoint map_chars (f : ascii -> ascii) (s : string) : string :=
  match s with
  | EmptyString => EmptyString
  | String c r => String (f c) (map_chars f r)
  end.

Definition toUpperCase : string -> string := map_chars upper_char.
Definition toLowerCase : string -> string := map_chars lower_char.

Fixpoint trimStart (s : string) : string :=
  match s with
  | String c r => if is_ws c then trimStart r else s
  | EmptyString => EmptyString
  end.

(** [trimEnd]: a white-space character is dropped when all that follows it
    has been dropped. *)
Fixpoint trimEnd (s : string) : string :=
  match s with
  | EmptyString => EmptyString
  | String c r =>
      match trimEnd r with
      | EmptyString => if is_ws c then EmptyString else String c EmptyString
      | r' => String c r'
      end
  end.

Definition trim (s : string) : string := trimEnd (trimStart s).

(** [s.startsWith(p)] *)
Fixpoint startsWith (p s : string) : bool :=
  match p, s with
  | EmptyString, _ => true
  | String a p', String b s' => if Ascii.eqb a b then startsWith p' s' else false
  | String _ _, EmptyString => false
  end.

(** [s.includes(p)] *)
Fixpoint includes (p s : string) : bool :=
  startsWith p s ||
  match s with
  | EmptyString => false
  | String _ r => includes p r
  end.

(** [s.endsWith(p)]-style test used for a [$]-anchored pattern. *)
Fixpoint endsWith (p s : string) : bool :=
  String.eqb p s ||
  match s with
  | EmptyString => false
  | String _ r => endsWith p r
  end.

(** [s.replace(/X/g, '')] for a class [X] of single characters. *)
Fixpoint remove_chars (drop : ascii -> bool) (s : string) : string :=
  match s with
  | EmptyString => EmptyString
  | String c r => if drop c then remove_chars drop r else String c (remove_chars drop r)
  end.

Definition is_comma (c : ascii) : bool := (code c =? 44)%N.

(** [s.split(sep)] for a separator of one character *)
Fixpoint split_aux (sep : ascii -> bool) (cur : string) (s : string) : list string :=
  match s with
  | EmptyString => [String.rev cur]
  | String c r =>
      if sep c then String.rev cur :: split_aux sep EmptyString r
      else split_aux sep (String c cur) r
  end.

Definition split (sep : ascii -> bool) (s : string) : list string :=
  split_aux sep EmptyString s.

Definition is_newline (c : ascii) : bool := (code c =? 10)%N.
Definition is_quote (c : ascii) : bool := (code c =? 34)%N.

(** The leading run of characters of a class, and what follows it. *)
Fixpoint span (f : ascii -> bool) (s : string) : string * string :=
  match s with
  | String c r =>
      if f c then let '(a, b) := span f r in (String c a, b) else (EmptyString, s)
  | EmptyString => (EmptyString, EmptyString)
  end.

(** Four digits at the head of [s]: the digits and the rest. *)
Definition four_digits (s : string) : option (string * string) :=
  match s with
  | String a (String b (String c (String d r))) =>
      if is_digit a && is_digit b && is_digit c && is_digit d
      then Some (String a (String b (String c (String d EmptyString))), r)
      else None
  | _ => None
  end.

Definition head_is_word (s : string) : bool :=
  match s with
  | String c _ => is_word c
  | EmptyString => false
  end.

(** [s.match(/\b(\d{4})\b/)]: the first group of the leftmost match.
    [prev] tells whether the character before [s] is a word character. *)
Fixpoint match_word4 (prev : bool) (s : string) : option string :=
  match s with
  | EmptyString => None
  | String c r =>
      match (if prev then None else four_digits s) with
      | Some (d, rest) =>
          if head_is_word rest then match_word4 (is_word c) r else Some d
      | None => match_word4 (is_word c) r
      end
  end.

(** [s.match(/(\d{4})Metric/i)]: the first group of the leftmost match. *)
Fixpoint match_metric4 (s : string) : option string :=
  match s with
  | EmptyString => None
  | String _ r =>
      match four_digits s with
      | Some (d, rest) =>
          if startsWith "METRIC" (toUpperCase rest) then Some d else match_metric4 r
      | None => match_metric4 r
      end
  end.

(** [s.match(/(\d+)/)]: the leftmost, longest run of digits. *)
Fixpoint match_digits (s : string) : option string :=
  match s with
  | EmptyString => None
  | String c r => if is_digit c then Some (fst (span is_digit s)) else match_digits r
  end.

(** [/^[0-9.]+XY.../i.test(s)] for classes [X], [Y], ... of single
    characters, each given by its upper-case letters and the characters that
    have no case. *)
Definition is_digit_or_dot (c : ascii) : bool := is_digit c || (code c =? 46)%N.

Fixpoint starts_with_classes (cls : list (ascii -> bool)) (s : string) : bool :=
  match cls, s with
  | [], _ => true
  | f :: cls', String c r => f (upper_char c) && starts_with_classes cls' r
  | _ :: _, EmptyString => false
  end.

Definition test_number_then (cls : list (ascii -> bool)) (s : string) : bool :=
  match span is_digit_or_dot s with
  | (EmptyString, _) => false
  | (_, rest) => starts_with_classes cls rest
  end.

(** [/P/i.test(s)] for a literal [P] given in upper case. *)
Definition test_ci (P s : string) : bool := includes P (toUpperCase s).

Definition one_of (l : list N) (c : ascii) : bool :=
  existsb (fun n => (code c =? n)%N) l.

End Str.

(** ** Global functions and array methods of the language *)

Module JS.

Import Str.

(** The value of a digit character in a radix up to 36. *)
Definition digit_of (radix : N) (c : ascii) : option N :=
  let v :=
    if is_digit c then Some (code c - 48)%N
    else if is_lower c then Some (code c - 87)%N
    else if is_upper c then Some (code c - 55)%N
    else None in
  match v with
  | Some n => if (n <? radix)%N then Some n else None
  | None => None
  end.

(** The longest prefix of digits of [s] read in a radix: its value, how many
    digits it has and what follows it. *)
Fixpoint read_digits (radix : N) (acc : N) (len : nat) (s : string) : N * nat * string :=
  match s with
  | String c r =>
      match digit_of radix c with
      | Some d => read_digits radix (radix * acc + d)%N (S len) r
      | None => (acc, len, s)
      end
  | EmptyString => (acc, len, s)
  end.

Definition read_sign (s : string) : Z * string :=
  match s with
  | String c r =>
      if (code c =? 45)%N then (-1, r)
      else if (code c =? 43)%N then (1, r)
      else (1, s)
  | EmptyString => (1, s)
  end.

Definition drop_hex_prefix (s : string) : option string :=
  match s with
  | String a (String b r) =>
      if (code a =? 48)%N && (upper_char b =? "X")%char then Some r else None
  | _ => None
  end.

(** The number a text stands for, when its exact value is [q]: an infinity
    from the magnitude on that a double rounds to one, 2^1024 - 2^970.  Below
    it the exact value is kept; rounding is not modelled. *)
Definition overflow_bound : Z := 2 ^ 1024 - 2 ^ 970.

Definition to_double (q : Q) : number :=
  if Qle_bool (inject_Z overflow_bound) q then PosInf
  else if Qle_bool q (inject_Z (- overflow_bound)) then NegInf
  else Fin q.

(** [parseInt(s)], no radix given. *)
Definition parseInt (s : string) : number :=
  let s := trimStart s in
  let '(sign, s) := read_sign s in
  let '(radix, s) :=
    match drop_hex_prefix s with
    | Some r => (16%N, r)
    | None => (10%N, s)
    end in
  match read_digits radix 0 0 s with
  | (_, O, _) => NaN
  | (n, _, _) => to_double (inject_Z (sign * Z.of_N n))
  end.

(** The unsigned decimal literal at the head of [s], if any: its value and
    what follows it.  [DecimalDigits . DecimalDigits? Exp?], [. DecimalDigits
    Exp?] or [DecimalDigits Exp?]; an exponent is read only when complete. *)
Definition read_exponent (s : string) : Z * string :=
  match s with
  | String c r =>
      if (upper_char c =? "E")%char then
        let '(sg, r') := read_sign r in
        match read_digits 10 0 0 r' with
        | (_, O, _) => (0, s)
        | (e, _, rest) => (sg * Z.of_N e, rest)
        end
      else (0, s)
  | EmptyString => (0, s)
  end.

Definition read_unsigned_decimal (s : string) : option (Q * string) :=
  let '(ip, ilen, rest) := read_digits 10 0 0 s in
  let '(m, flen, rest, ok) :=
    match rest with
    | String c r =>
        if (code c =? 46)%N then
          let '(m, flen, rest') := read_digits 10 ip 0 r in
          match ilen, flen with
          | O, O => (ip, O, rest, false)
          | _, _ => (m, flen, rest', true)
          end
        else (ip, O, rest, match ilen with O => false | _ => true end)
    | EmptyString => (ip, O, rest, match ilen with O => false | _ => true end)
    end in
  if ok then
    let '(e, rest) := read_exponent rest in
    Some ((inject_Z (Z.of_N m) * Qpower (inject_Z 10) (e - Z.of_nat flen))%Q, rest)
  else None.

(** The signed decimal literal ([StrDecimalLiteral]) at the head of [s]. *)
Definition read_decimal (s : string) : option (number * string) :=
  let '(sign, s) := read_sign s in
  if startsWith "Infinity" s then
    Some (if (sign <? 0)%Z then NegInf else PosInf,
          String.substring 8 (String.length s - 8) s)
  else
    match read_unsigned_decimal s with
    | Some (q, rest) => Some (to_double (inject_Z sign * q)%Q, rest)
    | None => None
    end.

(** [parseFloat(s)] *)
Definition parseFloat (s : string) : number :=
  match read_decimal (trimStart s) with
  | Some (n, _) => n
  | None => NaN
  end.

(** [Number(s)] for a string: the whole trimmed text must be a numeric
    literal; the empty text is 0. *)
Definition radix_of_prefix (s : string) : option (N * string) :=
  match s with
  | String a (String b r) =>
      if (code a =? 48)%N then
        if (upper_char b =? "X")%char then Some (16%N, r)
        else if (upper_char b =? "O")%char then Some (8%N, r)
        else if (upper_char b =? "B")%char then Some (2%N, r)
        else None
      else None
  | _ => None
  end.

Definition StringToNumber (s : string) : number :=
  match trim s with
  | EmptyString => 0%num
  | t =>
      match radix_of_prefix t with
      | Some (radix, r) =>
          match read_digits radix 0 0 r with
          | (_, O, _) => NaN
          | (n, _, EmptyString) => to_double (inject_Z (Z.of_N n))
          | _ => NaN
          end
      | None =>
          match read_decimal t with
          | Some (n, EmptyString) => n
          | _ => NaN
          end
      end
  end.

(** [Array.prototype.sort(cmp)]: a stable sort.  [cmp a b > 0] puts [b]
    before [a]; any other result, [NaN] included, keeps [a] first.  The
    language fixes the result when [cmp] is a consistent comparator; for an
    inconsistent one the order is left to the implementation, and this model
    is then one of the permitted behaviours (an insertion from the right). *)
Section Sort.
Context {A : Type} (cmp : A -> A -> number).

Fixpoint insert_sorted (x : A) (l : list A) : list A :=
  match l with
  | [] => [x]
  | y :: l' =>
      if Num.gt (cmp x y) 0%num then y :: insert_sorted x l'
      else x :: l
  end.

Fixpoint sort (l : list A) : list A :=
  match l with
  | [] => []
  | x :: l' => insert_sorted x (sort l')
  end.

End Sort.

(** [ToIntegerOrInfinity] clamped to [0 .. len], as [slice] uses it for its
    end index: a negative index counts from the end. *)
Definition Qtrunc (q : Q) : Z := Z.quot (Qnum q) (Z.pos (Qden q)).

Definition relative_index (n : number) (len : nat) : nat :=
  match n with
  | NaN => O
  | NegInf => O
  | PosInf => len
  | Fin q =>
      let k := Qtrunc q in
      if (k <? 0)%Z then Z.to_nat (Z.max (Z.of_nat len + k) 0)
      else Nat.min (Z.to_nat k) len
  end.

(** [l.slice(0, end)] *)
Definition slice0 {A : Type} (l : list A) (e : number) : list A :=
  take (relative_index e (length l)) l.

End JS.

(** ** Exceptions *)

Inductive error : Type :=
| TypeError        (* a property of [undefined]/[null], or a call of a non-function *)
| SyntaxError      (* [response.json()] on a body that is not JSON *)
| NetworkError     (* [fetch] rejected *)
| ErrorMsg (msg : string).  (* [throw new Error(msg)] *)

Inductive result (A : Type) : Type :=
| Ok (a : A)
| Throw (e : error).
Arguments Ok {A} a.
Arguments Throw {A} e.

Definition rbind {A B : Type} (r : result A) (k : A -> result B) : result B :=
  match r with
  | Ok a => k a
  | Throw e => Throw e
  end.

(** [try { body } catch (error) { handler }] *)
Definition try_catch {A : Type} (body : result A) (handler : error -> result A) : result A :=
  match body with
  | Ok a => Ok a
  | Throw e => handler e
  end.

#[global] Instance result_ret : MRet result := @Ok.
#[global] Instance result_bind : MBind result := fun A B k r => rbind r k.

(** ** Search parameters ([SearchParams]); every field is optional *)

Module Params.
Record t : Type := mk {
  value : option string;
  footprint : option string;
  componentType : option string;
  manufacturer : option string;
  manufacturerPartNumber : option string;
  limit : option number
}.
End Params.

(** [o || d] for an optional string *)
Definition or_str (o : option string) (d : string) : string :=
  match o with
  | Some s => if truthy_str s then s else d
  | None => d
  end.

(** A number is falsy when it is 0 or [NaN]. *)
Definition truthy_num (n : number) : bool :=
  match n with
  | NaN => false
  | Fin q => negb (Num.Qeqb q 0)
  | _ => true
  end.

(** [o || d] for an optional number *)
Definition or_num (o : option number) (d : number) : number :=
  match o with
  | Some n => if truthy_num n then n else d
  | None => d
  end.

(** ** The BOM row interpreter and the selection engine (route.ts) *)

Module Route.

Import Str JS.

(** A row of the uploaded file: column name to text. *)
Abbreviation BOMRow := (gmap string string).

Inductive Status : Type := matched | not_found | skipped | already_sourced.

Record SearchResults : Type := mkSearchResults {
  res_JLCPCB : list PartSearchResult;
  res_DigiKey : list PartSearchResult;
  res_Mouser : list PartSearchResult
}.

Record SourcingResult : Type := mkSourcingResult {
  originalRow : BOMRow;
  matchedPart : option PartSearchResult;
  searchResults : SearchResults;
  status : Status;
  notes : string
}.

(** Parse a single CSV line (handles quoted fields).  [current] is the
    field being read, last character first. *)
Fixpoint parseCSVLine_from (inQuotes : bool) (current : string) (line : string)
    : list string :=
  match line with
  | EmptyString => [String.rev current]
  | String char rest =>
      if is_quote char then
        match rest with
        | String next rest' =>
            if inQuotes && is_quote next
            then parseCSVLine_from inQuotes (String next current) rest'
            else parseCSVLine_from (negb inQuotes) current rest
        | EmptyString => parseCSVLine_from (negb inQuotes) current rest
        end
      else if is_comma char && negb inQuotes
      then String.rev current :: parseCSVLine_from inQuotes EmptyString rest
      else parseCSVLine_from inQuotes (String char current) rest
  end.

Definition parseCSVLine (line : string) : list string :=
  parseCSVLine_from false EmptyString line.

(** [row[header.trim()] = values[index]?.trim() || ''] for each header;
    assigning to [__proto__] creates no column. *)
Definition set_column (values : list string) (row : BOMRow) (entry : nat * string)
    : BOMRow :=
  let '(index, header) := entry in
  if String.eqb (trim header) "__proto__" then row
  else <[trim header := or_str (trim <$> values !! index) ""]> row.

Definition make_row (headers values : list string) : BOMRow :=
  foldl (set_column values) ∅ (imap (fun index header => (index, header)) headers).

(** Parse CSV string to array of objects *)
Definition parseCSV (csvText : string) : list BOMRow :=
  let lines := List.filter (fun line => truthy_str (trim line)) (split is_newline csvText) in
  match lines with
  | header_line :: first :: more =>
      (* Parse header *)
      let headers := parseCSVLine header_line in
      (* Parse data rows *)
      omap (fun line =>
              let values := parseCSVLine line in
              match values with
              | [] => None
              | _ => Some (make_row headers values)
              end)
           (first :: more)
  | _ => []
  end.

(** [o?.f() === lit] *)
Definition opt_is (f : string -> string) (o : option string) (lit : string) : bool :=
  match o with
  | Some s => String.eqb (f s) lit
  | None => false
  end.

(** [o?.trim()] is truthy *)
Definition opt_trim_truthy (o : option string) : bool :=
  match o with
  | Some s => truthy_str (trim s)
  | None => false
  end.

Definition extractFootprint (row : BOMRow) : string :=
  (* First try the Footprint field *)
  let found :=
    match row !! "Footprint" with
    | Some fp =>
        if truthy_str fp then
          match match_metric4 fp with
          | Some d => Some d
          | None => match_word4 false fp
          end
        else None
    | None => None
    end in
  match found with
  | Some d => d
  | None =>
      (* Fall back to CASE CODE *)
      match row !! "CASE CODE (METRIC)" with
      | Some cc => if truthy_str cc then cc else ""
      | None => ""
      end
  end.

(** The letter classes of the three value patterns; 181 is the micro sign. *)
Definition capacitor_unit : ascii -> bool := one_of [80; 78; 181; 85; 70]%N.
Definition resistor_unit : ascii -> bool := one_of [75; 77; 82]%N.
Definition inductor_unit : ascii -> bool := one_of [78; 72]%N.

Definition inferComponentType (value reference : string) : string :=
  let ref := toUpperCase reference in
  let val := toUpperCase value in
  (* From reference designator *)
  if startsWith "C" ref then "capacitor"
  else if startsWith "R" ref then "resistor"
  else if startsWith "L" ref then "inductor"
  else if startsWith "LED" ref then "led"
  else if startsWith "D" ref then "diode"
  else if startsWith "U" ref then "ic"
  else if startsWith "Y" ref || startsWith "X" ref then "crystal"
  else if startsWith "S" ref then "switch"
  else if startsWith "J" ref then "connector"
  else if startsWith "MIC" ref then "microphone"
  (* From value pattern *)
  else if test_number_then [capacitor_unit] val || test_ci "FARAD" val then "capacitor"
  else if test_number_then [resistor_unit] val || test_ci "OHM" val then "resistor"
  else if test_number_then [inductor_unit] val && endsWith "H" (toUpperCase val) then "inductor"
  else "".

Definition calculateQty (row : BOMRow) : number :=
  let explicit :=
    match row !! "Qty" with
    | Some q => truthy_str q && Num.gt (parseInt q) 0%num
    | None => false
    end in
  if explicit then parseInt (default "" (row !! "Qty"))
  else
    (* Count from reference (C1,C2,C3 = 3) *)
    match row !! "Reference" with
    | Some r =>
        if truthy_str r
        then Num.of_Z (Z.of_nat (length (filter (fun x => truthy_str (trim x) = true) (split is_comma r))))
        else 1%num
    | None => 1%num
    end.

Record Selection : Type := mkSelection {
  sel_part : option PartSearchResult;
  sel_notes : string
}.

Record Scored : Type := mkScored {
  part : PartSearchResult;
  score : number
}.

Section Engine.

(** [Number.prototype.toLocaleString], which depends on the host's locale. *)
Variable toLocaleString : number -> string.

(** The object [searchAllSuppliers] resolves to for a query: supplier name to
    a list of parts, a supplier without results being absent. *)
Variable searchAllSuppliers : Params.t -> result (gmap string (list PartSearchResult)).

(** [${o}] for an optional string *)
Definition show_opt (o : option string) : string := default "undefined" o.

Definition by_score_desc (a b : Scored) : number := Num.sub (score b) (score a).

Definition rank (f : PartSearchResult -> number) (l : list PartSearchResult) : list Scored :=
  sort by_score_desc (map (fun p => mkScored p (f p)) l).

Definition selectBestPart (jlcpcbResults digikeyResults mouserResults : list PartSearchResult)
    : Selection :=
  (* Prioritize JLCPCB (China-based, no import needed) *)
  let from_jlcpcb :=
    match rank scoreJLCPCBPart jlcpcbResults with
    | top :: _ =>
        if Num.gt (score top) 0%num then
          let best := part top in
          Some (mkSelection (Some best)
                  ("Matched via JLCPCB (LCSC: " +:+ show_opt (lcscPart best) +:+
                   ", Stock: " +:+ toLocaleString (stock best) +:+ ")"))
        else None
    | [] => None
    end in
  match from_jlcpcb with
  | Some r => r
  | None =>
  (* Then try DigiKey *)
  let from_digikey :=
    match rank scoreDistributorPart digikeyResults with
    | top :: _ =>
        if Num.gt (score top) 0%num then
          let best := part top in
          Some (mkSelection (Some best)
                  ("Matched via Digi-Key (" +:+ partNumber best +:+
                   ", Stock: " +:+ toLocaleString (stock best) +:+ ")"))
        else None
    | [] => None
    end in
  match from_digikey with
  | Some r => r
  | None =>
  (* Then try Mouser *)
  let from_mouser :=
    match rank scoreDistributorPart mouserResults with
    | top :: _ =>
        if Num.gt (score top) 0%num then
          let best := part top in
          Some (mkSelection (Some best)
                  ("Matched via Mouser (" +:+ partNumber best +:+
                   ", Stock: " +:+ toLocaleString (stock best) +:+ ")"))
        else None
    | [] => None
    end in
  match from_mouser with
  | Some r => r
  | None => mkSelection None "No matches found"
  end end end.

Definition no_results : SearchResults := mkSearchResults [] [] [].

(** [processBOMRow] returns what the promise settles to together with the
    queries it passed to [searchAllSuppliers], in order. *)
Definition processBOMRow (row : BOMRow) : result SourcingResult * list Params.t :=
  let qty := calculateQty row in
  (* Skip if excluded from BOM *)
  if opt_is toLowerCase (row !! "Exclude from BOM") "yes"
     || opt_is toLowerCase (row !! "Exclude from BOM") "true"
     || opt_is toLowerCase (row !! "Exclude from BOM") "excluded from bom"
  then (Ok (mkSourcingResult row None no_results skipped "Excluded from BOM"), [])
  (* Skip if DNP (Do Not Populate) *)
  else if opt_is toLowerCase (row !! "DNP") "yes"
     || opt_is toLowerCase (row !! "DNP") "true"
     || opt_is toUpperCase (row !! "Manufacturer_Part_Number") "DNP"
  then (Ok (mkSourcingResult row None no_results skipped "DNP (Do Not Populate)"), [])
  (* Check if already sourced (has LCSC part number) *)
  else if opt_trim_truthy (row !! "LCSC Part #") || opt_trim_truthy (row !! "JLCPCB Part #")
  then (Ok (mkSourcingResult row None no_results already_sourced
              "Already has LCSC/JLCPCB part number"), [])
  else
    (* Get search parameters *)
    let value := or_str (trim <$> row !! "Value") "" in
    let footprint := extractFootprint row in
    match row !! "Reference" with
    | None => (Throw TypeError, [])   (* [reference.toUpperCase()] of [undefined] *)
    | Some reference =>
    let componentType := inferComponentType value reference in
    let manufacturerPartNumber := or_str (trim <$> row !! "Manufacturer_Part_Number") "" in
    (* Skip if no value to search *)
    if negb (truthy_str value) && negb (truthy_str manufacturerPartNumber)
    then (Ok (mkSourcingResult row None no_results not_found
                "No value or part number to search"), [])
    else
      (* Search all suppliers *)
      let query :=
        Params.mk (Some value) (Some footprint) (Some componentType) None
                  (Some manufacturerPartNumber) (Some 10%num) in
      match searchAllSuppliers query with
      | Throw e => (Throw e, [query])
      | Ok found =>
          let jlcpcbResults := default [] (found !! "JLCPCB") in
          let digikeyResults := default [] (found !! "Digi-Key") in
          let mouserResults := default [] (found !! "Mouser") in
          (* Select best part *)
          let sel := selectBestPart jlcpcbResults digikeyResults mouserResults in
          (Ok (mkSourcingResult row (sel_part sel)
                 (mkSearchResults jlcpcbResults digikeyResults mouserResults)
                 (match sel_part sel with Some _ => matched | None => not_found end)
                 (sel_notes sel)),
           [query])
      end
    end.

(** [!row[col]]: the column is missing or empty. *)
Definition empty_col (row : BOMRow) (col : string) : bool :=
  negb (truthy_opt (row !! col)).

Definition mergeSourcedData (row : BOMRow) (result : SourcingResult) : BOMRow :=
  match matchedPart result with
  | None => row
  | Some part =>
      let updatedRow := row in
      (* Fill in LCSC Part # and JLCPCB Part # (same value) *)
      let updatedRow :=
        match lcscPart part with
        | Some lcsc =>
            if truthy_str lcsc
            then <["JLCPCB Part #" := lcsc]> (<["LCSC Part #" := lcsc]> updatedRow)
            else updatedRow
        | None => updatedRow
        end in
      (* Fill in Manufacturer Part Number *)
      let updatedRow :=
        if truthy_str (manufacturerPartNumber part)
           && empty_col updatedRow "Manufacturer_Part_Number"
        then <["Manufacturer_Part_Number" := manufacturerPartNumber part]> updatedRow
        else updatedRow in
      (* Fill in Manufacturer Name *)
      let updatedRow :=
        if truthy_str (manufacturer part) && empty_col updatedRow "Manufacturer_Name"
        then <["Manufacturer_Name" := manufacturer part]> updatedRow
        else updatedRow in
      (* Fill in Datasheet *)
      let updatedRow :=
        if truthy_str (datasheet part) && empty_col updatedRow "Datasheet"
        then <["Datasheet" := datasheet part]> updatedRow
        else updatedRow in
      (* Fill in Description from supplier *)
      let updatedRow :=
        if truthy_str (description part) && empty_col updatedRow "Description"
        then <["Description" := description part]> updatedRow
        else updatedRow in
      (* Fill in footprint if missing *)
      let updatedRow :=
        match package part with
        | Some pkg =>
            if truthy_str pkg && empty_col updatedRow "CASE CODE (METRIC)"
            then <["CASE CODE (METRIC)" := pkg]> updatedRow
            else updatedRow
        | None => updatedRow
        end in
      updatedRow
  end.

(** The body of the loop of [POST] over the parsed rows: the result kept for
    the row and the row written to the output file. *)
Definition sourceRow (row : BOMRow) : result (SourcingResult * BOMRow) * list Params.t :=
  match processBOMRow row with
  | (Throw e, calls) => (Throw e, calls)
  | (Ok result, calls) =>
      let out :=
        match status result, matchedPart result with
        | matched, Some _ => mergeSourcedData row result
        | _, _ => row
        end in
      (Ok (result, out), calls)
  end.

End Engine.

End Route.

(** ** Values of unknown type: what [response.json()] yields and what a
       property read on it can give *)

Module Val.

Import Str JS.

#[local] Set Warnings "-register-all".
Inductive jsval : Type :=
| VUndefined
| VNull
| VBool (b : bool)
| VNum (n : number)
| VStr (s : string)
| VArr (items : list jsval)
| VObj (props : list (string * jsval)).

Definition truthy (v : jsval) : bool :=
  match v with
  | VUndefined | VNull => false
  | VBool b => b
  | VNum n => truthy_num n
  | VStr s => truthy_str s
  | VArr _ | VObj _ => true
  end.

Definition nullish (v : jsval) : bool :=
  match v with
  | VUndefined | VNull => true
  | _ => false
  end.

(** [a || b] *)
Definition or_val (a b : jsval) : jsval := if truthy a then a else b.

Definition is_array (v : jsval) : bool :=
  match v with VArr _ => true | _ => false end.

Fixpoint join (sep : string) (l : list string) : string :=
  match l with
  | [] => ""
  | [x] => x
  | x :: r => x +:+ sep +:+ join sep r
  end.

(** The own property [k] of an object: its first binding. *)
Fixpoint assoc (k : string) (l : list (string * jsval)) : option jsval :=
  match l with
  | [] => None
  | (k', v) :: r => if String.eqb k k' then Some v else assoc k r
  end.

(** [specs[k] = v] on an object built by the code. *)
Fixpoint assign (k : string) (v : jsval) (l : list (string * jsval)) : list (string * jsval) :=
  match l with
  | [] => [(k, v)]
  | (k', v') :: r => if String.eqb k k' then (k, v) :: r else (k', v') :: assign k v r
  end.

(** A canonical array index: "0", or digits without a leading zero. *)
Definition index_of_key (k : string) : option nat :=
  match k with
  | EmptyString => None
  | String c r =>
      if is_digit c && (negb (code c =? 48)%N || String.eqb r "") then
        match read_digits 10 0 0 k with
        | (n, _, EmptyString) => Some (N.to_nat n)
        | _ => None
        end
      else None
  end.

Definition char_at (s : string) (i : nat) : jsval :=
  match String.get i s with
  | Some c => VStr (String c EmptyString)
  | None => VUndefined
  end.

(** [v.k], [v[k]]: a [TypeError] on [undefined] and [null].  The property
    names the code reads are own data properties, [length] or an index; none
    of them is a member of a built-in prototype. *)
Definition get (v : jsval) (k : string) : result jsval :=
  match v with
  | VUndefined | VNull => Throw TypeError
  | VBool _ | VNum _ => Ok VUndefined
  | VStr s =>
      if String.eqb k "length" then Ok (VNum (Num.of_Z (Z.of_nat (String.length s))))
      else match index_of_key k with
           | Some i => Ok (char_at s i)
           | None => Ok VUndefined
           end
  | VArr l =>
      if String.eqb k "length" then Ok (VNum (Num.of_Z (Z.of_nat (length l))))
      else match index_of_key k with
           | Some i => Ok (default VUndefined (l !! i))
           | None => Ok VUndefined
           end
  | VObj props => Ok (default VUndefined (assoc k props))
  end.

(** [v?.k] *)
Definition get_opt (v : jsval) (k : string) : result jsval :=
  if nullish v then Ok VUndefined else get v k.

(** [v.k || rest] *)
Definition get_or (v : jsval) (k : string) (rest : result jsval) : result jsval :=
  x ← get v k; if truthy x then Ok x else rest.

(** [v.replace(/,/g, '')], [v.replace(/[$,]/g, '')]: a method of strings only. *)
Definition call_replace (drop : ascii -> bool) (v : jsval) : result jsval :=
  match v with
  | VStr s => Ok (VStr (remove_chars drop s))
  | _ => Throw TypeError
  end.

(** [v.match(/(\d+)/)]: a method of strings only; the first group. *)
Definition call_match_digits (v : jsval) : result (option string) :=
  match v with
  | VStr s => Ok (match_digits s)
  | _ => Throw TypeError
  end.

(** [v.map(f)]: a method of arrays only. *)
Fixpoint mapM {A B : Type} (f : A -> result B) (l : list A) : result (list B) :=
  match l with
  | [] => Ok []
  | x :: r => y ← f x; ys ← mapM f r; Ok (y :: ys)
  end.

Definition call_map {B : Type} (f : jsval -> result B) (v : jsval) : result (list B) :=
  match v with
  | VArr l => mapM f l
  | _ => Throw TypeError
  end.

(** [v.find(pred)]: a method of arrays only. *)
Fixpoint findM (pred : jsval -> result bool) (l : list jsval) : result jsval :=
  match l with
  | [] => Ok VUndefined
  | x :: r => b ← pred x; if b : bool then Ok x else findM pred r
  end.

Definition call_find (pred : jsval -> result bool) (v : jsval) : result jsval :=
  match v with
  | VArr l => findM pred l
  | _ => Throw TypeError
  end.

(** [l.sort(cmp)] with a comparator that may throw: the stable insertion of
    [JS.sort]. *)
Section SortM.
Context {A : Type} (cmp : A -> A -> result number).

Fixpoint insert_sortedM (x : A) (l : list A) : result (list A) :=
  match l with
  | [] => Ok [x]
  | y :: l' =>
      c ← cmp x y;
      if Num.gt c 0%num then r ← insert_sortedM x l'; Ok (y :: r)
      else Ok (x :: l)
  end.

Fixpoint sortM (l : list A) : result (list A) :=
  match l with
  | [] => Ok []
  | x :: l' => r ← sortM l'; insert_sortedM x r
  end.

End SortM.

(** [v === lit] for a string literal *)
Definition is_str (lit : string) (v : jsval) : bool :=
  match v with
  | VStr s => String.eqb s lit
  | _ => false
  end.

(** [a === b] on primitive values (two distinct objects are never equal). *)
Definition strict_eq (a b : jsval) : bool :=
  match a, b with
  | VUndefined, VUndefined | VNull, VNull => true
  | VBool x, VBool y => Bool.eqb x y
  | VNum x, VNum y => Num.strict_eq x y
  | VStr x, VStr y => String.eqb x y
  | _, _ => false
  end.

Section Conversions.

(** [Number.prototype.toString]: the shortest decimal text that reads back
    as the same double; left open, the results hold for any such function. *)
Variable Number_toString : number -> string.

(** [String(v)] and [`${v}`].  The values are those of a JSON text, so no
    property holds a function: an object with an own property [toString] has
    no way to a primitive value and the conversion throws a [TypeError]; any
    other object inherits [Object.prototype.toString]. *)
Fixpoint ToString (v : jsval) : result string :=
  match v with
  | VUndefined => Ok "undefined"
  | VNull => Ok "null"
  | VBool true => Ok "true"
  | VBool false => Ok "false"
  | VNum n => Ok (Number_toString n)
  | VStr s => Ok s
  | VArr l =>
      texts ← (fix items (l : list jsval) : result (list string) :=
                 match l with
                 | [] => Ok []
                 | x :: r =>
                     t ← match x with
                         | VUndefined | VNull => Ok ""
                         | _ => ToString x
                         end;
                     ts ← items r;
                     Ok (t :: ts)
                 end) l;
      Ok (join "," texts)
  | VObj props =>
      match assoc "toString" props with
      | Some _ => Throw TypeError
      | None => Ok "[object Object]"
      end
  end.

(** [Number(v)], the conversion behind [v > 0], [a - b] and [a * b]; an
    object is first brought to a primitive value as for [String(v)]. *)
Definition ToNumber (v : jsval) : result number :=
  match v with
  | VUndefined => Ok NaN
  | VNull => Ok 0%num
  | VBool b => Ok (Num.of_Z (if b then 1 else 0))
  | VNum n => Ok n
  | VStr s => Ok (StringToNumber s)
  | VArr _ => s ← ToString v; Ok (StringToNumber s)
  | VObj _ => s ← ToString v; Ok (StringToNumber s)
  end.

End Conversions.

End Val.

(** ** The object an adapter builds for a part.  Its fields hold whatever
       the upstream payload gave, so they are values of unknown type;
       [PartSearchResult] is the type the code declares for it. *)

Module Raw.
Import Val.
Record PartObject : Type := mk {
  supplier : string;
  partNumber : jsval;
  manufacturer : jsval;
  manufacturerPartNumber : jsval;
  description : jsval;
  value : string;
  footprint : jsval;
  stock : jsval;
  price : jsval;
  currency : string;
  url : jsval;
  datasheet : jsval;
  lcscPart : jsval;
  image : jsval;
  package : jsval;
  specifications : option (list (string * jsval))
}.
End Raw.

(** ** The network and the clock, and the state of the clients *)

Module Net.

Import Val.

(** A request, by the parts of it the code computes (URL, headers and body
    are determined by them). *)
Inductive Request : Type :=
| TokenRequest (apiBase client_id client_secret : string)
| DigiKeyKeyword (apiBase keyword : string) (limit : number) (token : jsval) (clientId : string)
| JLCList (category search : string) (limit : number) (full : bool) (package : option string)
| MouserKeyword (endpoint apiKey keyword : string) (records : number).

Record Response : Type := mkResponse {
  ok : bool;
  text : result string;    (* [await response.text()] *)
  json : result jsval      (* [await response.json()] *)
}.

Inductive Event : Type :=
| Fetched (r : Request)
| ClockRead.

(** The mutable fields of the clients, and what happened so far. *)
Record ClientState : Type := mkState {
  history : list Event;
  accessToken : jsval;
  tokenExpiry : number
}.

Definition initial : ClientState := mkState [] VNull 0%num.

(** An asynchronous computation: it settles to a value or rejects, and
    leaves a state. *)
Definition M (A : Type) : Type := ClientState -> result A * ClientState.

#[global] Instance M_ret : MRet M := fun A a st => (Ok a, st).
#[global] Instance M_bind : MBind M := fun A B k m st =>
  match m st with
  | (Ok a, st') => k a st'
  | (Throw e, st') => (Throw e, st')
  end.

Definition throw {A : Type} (e : error) : M A := fun st => (Throw e, st).

Definition lift {A : Type} (r : result A) : M A := fun st => (r, st).

(** [try { body } catch (error) { handler }] *)
Definition try_catchM {A : Type} (body : M A) (handler : error -> M A) : M A :=
  fun st =>
    match body st with
    | (Ok a, st') => (Ok a, st')
    | (Throw e, st') => handler e st'
    end.

Definition record (e : Event) (st : ClientState) : ClientState :=
  mkState (history st ++ [e]) (accessToken st) (tokenExpiry st).

Definition get_accessToken : M jsval := fun st => (Ok (accessToken st), st).
Definition get_tokenExpiry : M number := fun st => (Ok (tokenExpiry st), st).
Definition set_accessToken (v : jsval) : M unit :=
  fun st => (Ok tt, mkState (history st) v (tokenExpiry st)).
Definition set_tokenExpiry (n : number) : M unit :=
  fun st => (Ok tt, mkState (history st) (accessToken st) n).

(** The requests made so far. *)
Definition requests (st : ClientState) : list Request :=
  omap (fun e => match e with Fetched r => Some r | ClockRead => None end) (history st).

Section World.

(** What the network answers to a request, and what the clock shows, given
    all that happened before. *)
Variable network : list Event -> Request -> result Response.
Variable clock : list Event -> number.

Definition fetch (r : Request) : M Response :=
  fun st => (network (history st) r, record (Fetched r) st).

Definition Date_now : M number :=
  fun st => (Ok (clock (history st)), record ClockRead st).

End World.

End Net.

(** ** The supplier adapters of [src/lib/parts-search.ts] *)

Module PartsSearch.

Import Str JS Val Net.

Section Clients.

Variable Number_toString : number -> string.
Variable network : list Event -> Request -> result Response.
Variable clock : list Event -> number.

(** The credentials read from the environment by the constructors
    ([process.env.X || '']). *)
Variables clientId clientSecret apiKey : string.

Abbreviation ToString := (ToString Number_toString).
Abbreviation ToNumber := (ToNumber Number_toString).
Abbreviation fetch := (fetch network).
Abbreviation Date_now := (Date_now clock).

Definition zero : number := 0%num.

(** The search keyword of the two distributor clients. *)
Definition build_keyword (params : Params.t) : string :=
  let keyword := or_str (Params.value params) "" in
  let keyword :=
    if truthy_opt (Params.footprint params)
    then keyword +:+ " " +:+ default "" (Params.footprint params)
    else keyword in
  let keyword :=
    if truthy_opt (Params.componentType params)
    then default "" (Params.componentType params) +:+ " " +:+ keyword
    else keyword in
  let keyword :=
    if truthy_opt (Params.manufacturerPartNumber params)
    then default "" (Params.manufacturerPartNumber params)
    else keyword in
  trim keyword.

(** *** DigiKeyClient *)

Definition digikey_apiBase : string := "https://api.digikey.com".

Definition DigiKey_isConfigured : bool :=
  truthy_str clientId && truthy_str clientSecret.

Definition DigiKey_getAccessToken : M jsval :=
  (* Check if we have a valid cached token *)
  cached ← get_accessToken;
  valid ← (if truthy cached
           then now ← Date_now; expiry ← get_tokenExpiry; mret (Num.lt now expiry)
           else mret false);
  if valid : bool then mret cached
  else if negb DigiKey_isConfigured
  then throw (ErrorMsg "DigiKey API credentials not configured")
  else
    response ← fetch (TokenRequest digikey_apiBase clientId clientSecret);
    if negb (ok response)
    then error ← lift (text response);
         throw (ErrorMsg ("DigiKey auth failed: " +:+ error))
    else
      data ← lift (json response);
      token ← lift (get data "access_token");
      _ ← set_accessToken token;
      (* Set expiry with 5 minute buffer *)
      now ← Date_now;
      expires_in ← lift (get data "expires_in");
      seconds ← lift (ToNumber expires_in);
      _ ← set_tokenExpiry
            (Num.add now (Num.mul (Num.sub seconds 300%num) 1000%num));
      get_accessToken.

Definition DigiKey_extractSpecifications (parameters : jsval)
    : result (list (string * jsval)) :=
  match parameters with
  | VArr l =>
      foldl (fun acc param =>
               specs ← acc;
               name ← get param "Parameter";
               if truthy name then
                 v ← get param "Value";
                 if truthy v then
                   key ← ToString name;
                   (* assigning to [__proto__] creates no property *)
                   if String.eqb key "__proto__" then Ok specs
                   else Ok (assign key v specs)
                 else Ok specs
               else Ok specs)
            (Ok []) l
  | _ => Ok []
  end.

Definition DigiKey_parseProduct (product : jsval) (params : Params.t)
    : result Raw.PartObject :=
  pricing ← get_or product "StandardPricing" (Ok (VArr []));
  len ← get pricing "length";
  count ← ToNumber len;
  unitPrice ← (if Num.gt count zero
               then first ← get pricing "0"; get first "UnitPrice"
               else Ok (VNum zero));
  partNumber ← get_or product "DigiKeyPartNumber" (Ok (VStr ""));
  mfr ← get product "Manufacturer";
  mfrName ← get_opt mfr "Name";
  mpn ← get_or product "ManufacturerPartNumber" (Ok (VStr ""));
  description ← get_or product "DetailedDescription"
                  (get_or product "ProductDescription" (Ok (VStr "")));
  stock ← get_or product "QuantityAvailable" (Ok (VNum zero));
  url ← get_or product "ProductUrl"
          (dk ← get product "DigiKeyPartNumber";
           text ← ToString dk;
           Ok (VStr ("https://www.digikey.com/product-detail/en/" +:+ text)));
  datasheet ← get_or product "PrimaryDatasheet" (Ok (VStr ""));
  parameters ← get product "Parameters";
  found ← (if nullish parameters then Ok VUndefined
           else call_find (fun p => name ← get p "Parameter";
                                    Ok (is_str "Package / Case" name)) parameters);
  pkg ← get_opt found "Value";
  image ← get_or product "PrimaryPhoto" (Ok (VStr ""));
  specs ← DigiKey_extractSpecifications parameters;
  Ok {| Raw.supplier := "Digi-Key";
        Raw.partNumber := partNumber;
        Raw.manufacturer := or_val mfrName (VStr "");
        Raw.manufacturerPartNumber := mpn;
        Raw.description := description;
        Raw.value := or_str (Params.value params) "";
        Raw.footprint := VStr (or_str (Params.footprint params) "");
        Raw.stock := stock;
        Raw.price := unitPrice;
        Raw.currency := "USD";
        Raw.url := url;
        Raw.datasheet := datasheet;
        Raw.lcscPart := VUndefined;
        Raw.image := image;
        Raw.package := or_val pkg (VStr "");
        Raw.specifications := Some specs |}.

Definition DigiKey_search (params : Params.t) : M (list Raw.PartObject) :=
  if negb DigiKey_isConfigured then mret []
  else
    try_catchM
      (token ← DigiKey_getAccessToken;
       (* Build search keyword *)
       let keyword := build_keyword params in
       if negb (truthy_str keyword) then mret []
       else
         (* the token goes into the [Authorization] header as text *)
         bearer ← lift (ToString token);
         response ← fetch (DigiKeyKeyword digikey_apiBase keyword
                             (or_num (Params.limit params) 10%num) token clientId);
         if negb (ok response)
         then error ← lift (text response); mret []
         else
           data ← lift (json response);
           products ← lift (get_or data "Products" (Ok (VArr [])));
           lift (call_map (fun product => DigiKey_parseProduct product params) products))
      (fun error => mret []).

(** *** JLCPCBClient *)

(** [Object.entries(footprintMap)]: the keys that are array indices come
    first, in ascending order, then the others as written. *)
Definition footprintMap_entries : list (string * string) :=
  [("1206", "1206"); ("1210", "1210"); ("2010", "2010"); ("2512", "2512");
   ("0402", "0402"); ("0603", "0603"); ("0805", "0805")].

Definition normalizeFootprint (footprint : string) : string :=
  (* Extract metric codes like 0402, 0603, 0805, etc. *)
  match match_word4 false footprint with
  | Some d => d
  | None =>
      (* Common footprint mappings *)
      match List.find (fun kv => includes (fst kv) (toLowerCase footprint))
                      footprintMap_entries with
      | Some kv => snd kv
      | None => footprint
      end
  end.

Definition JLCPCB_parseComponent (comp : jsval) (params : Params.t)
    : result Raw.PartObject :=
  (* Extract LCSC part number *)
  lcsc ← get comp "lcsc";
  lcscPart ← (if truthy lcsc then
                text ← ToString lcsc;
                Ok (VStr (if startsWith "C" text then text else "C" +:+ text))
              else
                lcscCode ← get comp "lcscCode";
                if truthy lcscCode then Ok lcscCode
                else
                  lcsc_id ← get comp "lcsc_id";
                  if truthy lcsc_id then text ← ToString lcsc_id; Ok (VStr ("C" +:+ text))
                  else Ok (VStr ""));
  (* Extract stock *)
  stockValue ← get_or comp "stock" (get_or comp "stockQty" (get comp "quantity"));
  stock ← (if truthy stockValue then
             text ← ToString stockValue;
             let parsed := parseInt (remove_chars is_comma text) in
             Ok (if Num.isNaN parsed then zero else parsed)
           else Ok zero);
  (* Extract price *)
  priceValue ← get_or comp "price" (get comp "unit_price");
  price ← (if truthy priceValue then
             text ← ToString priceValue;
             let parsed := parseFloat (remove_chars is_comma text) in
             Ok (if Num.isNaN parsed then zero else parsed)
           else Ok zero);
  (* Extract manufacturer *)
  manufacturer ← get_or comp "mfr" (get_or comp "manufacturer"
                    (get_or comp "Manufacturer" (Ok (VStr ""))));
  (* Extract description *)
  description ← get_or comp "description" (get_or comp "Description" (Ok (VStr "")));
  (* Extract package/footprint *)
  pkg ← get_or comp "package" (get_or comp "Package"
           (get_or comp "footprint" (Ok (VStr ""))));
  partNumber ← get_or comp "mfrPartNo"
                 (get_or comp "manufacturer_part_number" (Ok (VStr "")));
  url ← (if truthy lcscPart
         then text ← ToString lcscPart;
              Ok (VStr ("https://jlcpcb.com/partdetail/" +:+ text))
         else Ok (VStr "https://jlcpcb.com/"));
  datasheet ← get_or comp "datasheet" (Ok (VStr ""));
  image ← get_or comp "image" (Ok (VStr ""));
  Ok {| Raw.supplier := "JLCPCB";
        Raw.partNumber := partNumber;
        Raw.manufacturer := manufacturer;
        Raw.manufacturerPartNumber := partNumber;
        Raw.description := description;
        Raw.value := or_str (Params.value params) "";
        Raw.footprint := or_val pkg (VStr (or_str (Params.footprint params) ""));
        Raw.stock := VNum stock;
        Raw.price := VNum price;
        Raw.currency := "USD";
        Raw.url := url;
        Raw.datasheet := datasheet;
        Raw.lcscPart := lcscPart;
        Raw.image := image;
        Raw.package := pkg;
        Raw.specifications := None |}.

(** The comparator of the local ordering: stock descending, then price
    ascending. *)
Definition by_stock_then_price (a b : Raw.PartObject) : result number :=
  if negb (strict_eq (Raw.stock b) (Raw.stock a))
  then x ← ToNumber (Raw.stock b); y ← ToNumber (Raw.stock a); Ok (Num.sub x y)
  else x ← ToNumber (Raw.price a); y ← ToNumber (Raw.price b); Ok (Num.sub x y).

(** The package filter of the query, when there is one. *)
Definition package_filter (params : Params.t) : option string :=
  match Params.footprint params with
  | Some fp =>
      if truthy_str fp then
        let normalizedFootprint := normalizeFootprint fp in
        if truthy_str normalizedFootprint then Some normalizedFootprint else None
      else None
  | None => None
  end.

Definition JLCPCB_search (params : Params.t) : M (list Raw.PartObject) :=
  try_catchM
    ((* Build search query *)
     let searchTerm := or_str (Params.value params) "" in
     let searchTerm :=
       if truthy_opt (Params.manufacturerPartNumber params)
       then default "" (Params.manufacturerPartNumber params)
       else searchTerm in
     let searchTerm :=
       if truthy_opt (Params.manufacturer params)
          && negb (truthy_opt (Params.manufacturerPartNumber params))
       then default "" (Params.manufacturer params) +:+ " " +:+ searchTerm
       else searchTerm in
     let searchTerm := trim searchTerm in
     if negb (truthy_str searchTerm) then mret []
     else
       response ← fetch (JLCList "components" searchTerm
                           (or_num (Params.limit params) 20%num) true
                           (package_filter params));
       if negb (ok response)
       then error ← lift (text response); mret []
       else
         data ← lift (json response);
         components ← lift (get_or data "components" (Ok (VArr [])));
         (* Filter and sort results *)
         parsed ← lift (call_map (fun comp => JLCPCB_parseComponent comp params) components);
         let results :=
           List.filter (fun r => truthy (or_val (Raw.partNumber r) (Raw.lcscPart r))) parsed in
         (* Sort by stock (descending) then price (ascending) *)
         results ← lift (sortM by_stock_then_price results);
         mret (slice0 results (or_num (Params.limit params) 10%num)))
    (fun error => mret []).

(** *** MouserClient *)

Definition mouser_endpoint : string := "https://api.mouser.com/api/v1/product/search".

Definition Mouser_isConfigured : bool := truthy_str apiKey.

Definition Mouser_parsePart (part : jsval) (params : Params.t) : result Raw.PartObject :=
  (* Extract stock *)
  availability ← get_or part "Availability" (Ok (VStr ""));
  stockMatch ← call_match_digits availability;
  let stock :=
    match stockMatch with
    | Some digits => parseInt digits
    | None => zero
    end in
  (* Extract price *)
  priceBreaks ← get_or part "PriceBreaks" (Ok (VArr []));
  len ← get priceBreaks "length";
  count ← ToNumber len;
  price ← (if Num.gt count zero then
             first ← get priceBreaks "0";
             p ← get first "Price";
             cleaned ← (if nullish p then Ok VUndefined else call_replace is_comma p);
             text ← ToString (or_val cleaned (VStr "0"));
             Ok (parseFloat text)
           else Ok zero);
  partNumber ← get_or part "MouserPartNumber" (Ok (VStr ""));
  manufacturer ← get_or part "Manufacturer" (Ok (VStr ""));
  mpn ← get_or part "ManufacturerPartNumber" (Ok (VStr ""));
  description ← get_or part "Description" (Ok (VStr ""));
  url ← get_or part "ProductDetailUrl" (Ok (VStr ""));
  datasheet ← get_or part "DataSheetUrl" (Ok (VStr ""));
  image ← get_or part "ImagePath" (Ok (VStr ""));
  Ok {| Raw.supplier := "Mouser";
        Raw.partNumber := partNumber;
        Raw.manufacturer := manufacturer;
        Raw.manufacturerPartNumber := mpn;
        Raw.description := description;
        Raw.value := or_str (Params.value params) "";
        Raw.footprint := VStr (or_str (Params.footprint params) "");
        Raw.stock := VNum stock;
        Raw.price := VNum price;
        Raw.currency := "USD";
        Raw.url := url;
        Raw.datasheet := datasheet;
        Raw.lcscPart := VUndefined;
        Raw.image := image;
        Raw.package := VUndefined;
        Raw.specifications := None |}.

Definition Mouser_search (params : Params.t) : M (list Raw.PartObject) :=
  if negb Mouser_isConfigured then mret []
  else
    try_catchM
      ((* Build search keyword *)
       let keyword := build_keyword params in
       if negb (truthy_str keyword) then mret []
       else
         response ← fetch (MouserKeyword mouser_endpoint apiKey keyword
                             (or_num (Params.limit params) 10%num));
         if negb (ok response)
         then error ← lift (text response); mret []
         else
           data ← lift (json response);
           searchResults ← lift (get data "SearchResults");
           found ← lift (get_opt searchResults "Parts");
           let parts := or_val found (VArr []) in
           lift (call_map (fun part => Mouser_parsePart part params) parts))
      (fun error => mret []).

End Clients.

End PartsSearch.

(** ** The later revision of the adapters ([src/unnamed/part_001]): the
       free-catalog client with its category endpoints, and the part parser
       of the API-key distributor *)

Module PartsSearchRev.

Import Str JS Val Net.

Section Clients.

Variable Number_toString : number -> string.
(** [Number.prototype.toFixed(1)] *)
Variable toFixed1 : number -> string.
(** The literals of the ohm sign and of the plus-minus sign, which lie
    outside the 8-bit strings of this model. *)
Variables ohm_sign plus_minus_sign : string.
Variable network : list Event -> Request -> result Response.

Abbreviation ToString := (ToString Number_toString).
Abbreviation ToNumber := (ToNumber Number_toString).
Abbreviation fetch := (fetch network).

Definition zero : number := 0%num.

(** Map component types to JLCSearch category endpoints.  The last two
    entries are the lower-case names the table object inherits, as the text
    the code then uses for them. *)
Definition categoryEndpoints : list (string * string) :=
  [("resistor", "resistors"); ("capacitor", "capacitors"); ("inductor", "inductors");
   ("led", "leds"); ("diode", "diodes"); ("transistor", "bjt_transistors");
   ("mosfet", "mosfets"); ("ic", "microcontrollers");
   ("microcontroller", "microcontrollers"); ("voltage regulator", "voltage_regulators");
   ("ldo", "ldos"); ("switch", "switches"); ("relay", "relays"); ("fuse", "fuses");
   ("connector", "headers"); ("header", "headers"); ("oled", "oled_display");
   ("lcd", "lcd_display"); ("adc", "adcs"); ("dac", "dacs"); ("wifi", "wifi_modules");
   ("fpga", "fpgas"); ("arm", "arm_processors"); ("risc-v", "risc_v_processors");
   ("constructor", "function Object() { [native code] }");
   ("__proto__", "[object Object]")].

Fixpoint lookup_table (k : string) (l : list (string * string)) : option string :=
  match l with
  | [] => None
  | (k', v) :: r => if String.eqb k k' then Some v else lookup_table k r
  end.

Definition prefix_unit : ascii -> bool := one_of [80; 78; 181; 85]%N.
Definition letter (n : N) : ascii -> bool := one_of [n].

Definition looksLikeResistor (term : string) : bool :=
  (* Match patterns like 100K, 10K, 1K, 100R, 10R, 4.7K, etc. *)
  test_number_then [one_of [75; 82]%N] term
  || test_ci "OHM" term || test_ci "RESISTOR" term.

Definition looksLikeCapacitor (term : string) : bool :=
  (* Match patterns like 1uF, 100nF, 10pF, etc. *)
  test_number_then [prefix_unit; letter 70] term
  || test_ci "CAPACITOR" term || test_ci "FARAD" term.

Definition normalizeFootprint : string -> string := PartsSearch.normalizeFootprint.

Definition package_filter : Params.t -> option string := PartsSearch.package_filter.

Definition parseComponent (comp : jsval) (params : Params.t) : result Raw.PartObject :=
  (* Extract LCSC part number *)
  lcsc ← get comp "lcsc";
  lcscPart ← (if truthy lcsc then
                text ← ToString lcsc;
                Ok (VStr (if startsWith "C" text then text else "C" +:+ text))
              else
                lcscCode ← get comp "lcscCode";
                if truthy lcscCode then Ok lcscCode
                else
                  lcsc_id ← get comp "lcsc_id";
                  if truthy lcsc_id then text ← ToString lcsc_id; Ok (VStr ("C" +:+ text))
                  else Ok (VStr ""));
  (* Extract stock *)
  stockValue ← get_or comp "stock" (get_or comp "stockQty" (get comp "quantity"));
  stock ← (if truthy stockValue then
             text ← ToString stockValue;
             let parsed := parseInt (remove_chars is_comma text) in
             Ok (if Num.isNaN parsed then zero else parsed)
           else Ok zero);
  (* Extract price - handle both 'price' and 'price1' formats *)
  priceValue ← get_or comp "price" (get_or comp "price1" (get comp "unit_price"));
  price ← (if truthy priceValue then
             text ← ToString priceValue;
             let parsed := parseFloat (remove_chars is_comma text) in
             Ok (if Num.isNaN parsed then zero else parsed)
           else Ok zero);
  (* Extract manufacturer part number - handle different field names *)
  mfrPartNo ← get_or comp "mfr" (get_or comp "mfrPartNo"
                 (get_or comp "manufacturer_part_number" (Ok (VStr ""))));
  (* Extract manufacturer *)
  manufacturer ← get_or comp "manufacturer" (get_or comp "Manufacturer" (Ok (VStr "")));
  (* Extract description - build from available fields if not present *)
  description ← get_or comp "description" (get_or comp "Description" (Ok (VStr "")));
  description ← (if negb (truthy description) then
                   (* For resistors, build description from resistance and package *)
                   resistance ← get comp "resistance";
                   if negb (strict_eq resistance VUndefined) then
                     fraction ← get comp "tolerance_fraction";
                     tolerance ← (if truthy fraction
                                  then ratio ← ToNumber fraction;
                                       Ok (plus_minus_sign
                                           +:+ toFixed1 (Num.mul ratio 100%num) +:+ "%")
                                  else Ok "");
                     text ← ToString resistance;
                     Ok (VStr (trim (text +:+ ohm_sign +:+ " " +:+ tolerance)))
                   else Ok description
                 else Ok description);
  (* Extract package/footprint *)
  pkg ← get_or comp "package" (get_or comp "Package"
           (get_or comp "footprint" (Ok (VStr ""))));
  url ← (if truthy lcscPart
         then text ← ToString lcscPart;
              Ok (VStr ("https://jlcpcb.com/partdetail/" +:+ text))
         else Ok (VStr "https://jlcpcb.com/"));
  datasheet ← get_or comp "datasheet" (Ok (VStr ""));
  image ← get_or comp "image" (Ok (VStr ""));
  Ok {| Raw.supplier := "JLCPCB";
        Raw.partNumber := mfrPartNo;
        Raw.manufacturer := manufacturer;
        Raw.manufacturerPartNumber := mfrPartNo;
        Raw.description := description;
        Raw.value := or_str (Params.value params) "";
        Raw.footprint := or_val pkg (VStr (or_str (Params.footprint params) ""));
        Raw.stock := VNum stock;
        Raw.price := VNum price;
        Raw.currency := "USD";
        Raw.url := url;
        Raw.datasheet := datasheet;
        Raw.lcscPart := lcscPart;
        Raw.image := image;
        Raw.package := pkg;
        Raw.specifications := None |}.

Definition by_stock_then_price : Raw.PartObject -> Raw.PartObject -> result number :=
  PartsSearch.by_stock_then_price Number_toString.

Definition searchCategory (category searchTerm : string) (params : Params.t)
    : M (list Raw.PartObject) :=
  response ← fetch (JLCList category searchTerm
                      (or_num (Params.limit params) 20%num) false
                      (package_filter params));
  if negb (ok response)
  then error ← lift (text response); mret []
  else
    data ← lift (json response);
    (* Handle different response formats *)
    components ← lift (get_or data "components" (get_or data category
                         (get_or data "resistors" (get_or data "capacitors"
                            (get_or data "items" (Ok (VArr [])))))));
    match components with
    | VArr items =>
        (* Filter and sort results *)
        parsed ← lift (mapM (fun comp => parseComponent comp params) items);
        let results :=
          List.filter (fun r => truthy (or_val (Raw.partNumber r) (Raw.lcscPart r))) parsed in
        (* Sort by stock (descending) then price (ascending) *)
        lift (sortM by_stock_then_price results)
    | _ => mret []
    end.

Definition search (params : Params.t) : M (list Raw.PartObject) :=
  try_catchM
    ((* Build search query *)
     let searchTerm := or_str (Params.value params) "" in
     let searchTerm :=
       if truthy_opt (Params.manufacturerPartNumber params)
       then default "" (Params.manufacturerPartNumber params)
       else searchTerm in
     let searchTerm :=
       if truthy_opt (Params.manufacturer params)
          && negb (truthy_opt (Params.manufacturerPartNumber params))
       then default "" (Params.manufacturer params) +:+ " " +:+ searchTerm
       else searchTerm in
     let searchTerm := trim searchTerm in
     if negb (truthy_str searchTerm) then mret []
     else
       (* Determine which category endpoint to use *)
       let componentType := toLowerCase (or_str (Params.componentType params) "") in
       let category := default "components" (lookup_table componentType categoryEndpoints) in
       (* Try category-specific endpoint first *)
       results ← searchCategory category searchTerm params;
       (* If no results and using components fallback, try resistors/capacitors *)
       results ← (if (length results =? 0)%nat && String.eqb category "components" then
                    if looksLikeResistor searchTerm
                    then searchCategory "resistors" searchTerm params
                    else if looksLikeCapacitor searchTerm
                    then searchCategory "capacitors" searchTerm params
                    else mret results
                  else mret results);
       mret (slice0 results (or_num (Params.limit params) 10%num)))
    (fun error => mret []).

(** [MouserClient.parsePart] of the revision. *)
Definition is_dollar_or_comma (c : ascii) : bool := (code c =? 36)%N || is_comma c.

Definition Mouser_parsePart (part : jsval) (params : Params.t) : result Raw.PartObject :=
  (* Extract stock - try AvailabilityInStock first, then parse Availability string *)
  inStock ← get part "AvailabilityInStock";
  stock ← (if truthy inStock then
             text ← ToString inStock;
             let parsed := parseInt text in
             Ok (if truthy_num parsed then parsed else zero)
           else
             availability ← get_or part "Availability" (Ok (VStr ""));
             stockMatch ← call_match_digits availability;
             Ok (match stockMatch with
                 | Some digits => parseInt digits
                 | None => zero
                 end));
  (* Extract price - handle "$2.05" format *)
  priceBreaks ← get_or part "PriceBreaks" (Ok (VArr []));
  len ← get priceBreaks "length";
  count ← ToNumber len;
  price ← (if Num.gt count zero then
             first ← get priceBreaks "0";
             priceStr ← get_or first "Price" (Ok (VStr "0"));
             (* Remove $ and commas, then parse *)
             cleanPrice ← call_replace is_dollar_or_comma priceStr;
             text ← ToString cleanPrice;
             let parsed := parseFloat text in
             Ok (if truthy_num parsed then parsed else zero)
           else Ok zero);
  partNumber ← get_or part "MouserPartNumber" (Ok (VStr ""));
  manufacturer ← get_or part "Manufacturer" (Ok (VStr ""));
  mpn ← get_or part "ManufacturerPartNumber" (Ok (VStr ""));
  description ← get_or part "Description" (Ok (VStr ""));
  url ← get_or part "ProductDetailUrl" (Ok (VStr ""));
  datasheet ← get_or part "DataSheetUrl" (Ok (VStr ""));
  image ← get_or part "ImagePath" (Ok (VStr ""));
  Ok {| Raw.supplier := "Mouser";
        Raw.partNumber := partNumber;
        Raw.manufacturer := manufacturer;
        Raw.manufacturerPartNumber := mpn;
        Raw.description := description;
        Raw.value := or_str (Params.value params) "";
        Raw.footprint := VStr (or_str (Params.footprint params) "");
        Raw.stock := VNum stock;
        Raw.price := VNum price;
        Raw.currency := "USD";
        Raw.url := url;
        Raw.datasheet := datasheet;
        Raw.lcscPart := VUndefined;
        Raw.image := image;
        Raw.package := VUndefined;
        Raw.specifications := None |}.

End Clients.

End PartsSearchRev.

(** ** Auxiliary definitions of the statements *)

(** A part with another stock, respectively price: two parts that differ
    only in that field. *)
Definition with_stock (p : PartSearchResult) (s : number) : PartSearchResult :=
  mkPart (supplier p) (partNumber p) (manufacturer p) (manufacturerPartNumber p)
    (description p) (value p) (footprint p) s (price p) (currency p) (url p)
    (datasheet p) (lcscPart p) (image p) (package p) (specifications p).

Definition with_price (p : PartSearchResult) (c : number) : PartSearchResult :=
  mkPart (supplier p) (partNumber p) (manufacturer p) (manufacturerPartNumber p)
    (description p) (value p) (footprint p) (stock p) c (currency p) (url p)
    (datasheet p) (lcscPart p) (image p) (package p) (specifications p).

(** One stage of the cascade: the part of the top-ranked candidate of a
    supplier when its score is positive. *)
Definition top_candidate (f : PartSearchResult -> number) (l : list PartSearchResult)
    : option PartSearchResult :=
  match Route.rank f l with
  | top :: _ => if Num.gt (Route.score top) 0%num then Some (Route.part top) else None
  | [] => None
  end.

(** The notes of a match, per supplier. *)
Definition note_jlcpcb (toLocaleString : number -> string) (best : PartSearchResult) : string :=
  "Matched via JLCPCB (LCSC: " +:+ Route.show_opt (lcscPart best) +:+
  ", Stock: " +:+ toLocaleString (stock best) +:+ ")".

Definition note_distributor (toLocaleString : number -> string) (name : string)
    (best : PartSearchResult) : string :=
  "Matched via " +:+ name +:+ " (" +:+ partNumber best +:+
  ", Stock: " +:+ toLocaleString (stock best) +:+ ")".

(** [p] is a highest-scoring candidate of [l], and the first of them. *)
Definition first_best (f : PartSearchResult -> number) (l : list PartSearchResult)
    (p : PartSearchResult) : Prop :=
  exists pre post,
    l = pre ++ p :: post
    /\ Forall (fun q => Num.lt (f q) (f p) = true) pre
    /\ Forall (fun q => Num.le (f q) (f p) = true) post.

(** [best] is a highest-scoring candidate of the list, with a positive
    score. *)
Definition positive_best (f : PartSearchResult -> number) (l : list PartSearchResult)
    (best : PartSearchResult) : Prop :=
  best ∈ l
  /\ (forall q, q ∈ l -> Num.le (f q) (f best) = true)
  /\ Num.gt (f best) 0%num = true.

(** No candidate of the list has a positive score. *)
Definition none_positive (f : PartSearchResult -> number) (l : list PartSearchResult) : Prop :=
  forall q, q ∈ l -> Num.gt (f q) 0%num = false.

(** The part of a score that does not depend on the bonus, as a function of
    stock and price. *)
Definition score_base (s c : number) : number :=
  let score := 0%num in
  let score := if Num.gt s 0%num then Num.add score 1000%num else score in
  let score := Num.add score (Math_min (Num.div s 100000%num) 100%num) in
  if Num.gt c 0%num
  then Num.add score (Math_max 0%num (Num.sub 50%num (Num.mul c 10%num)))
  else score.

(** The conditions of the two skip rules of [processBOMRow]. *)
Definition excluded_from_bom (row : Route.BOMRow) : bool :=
  Route.opt_is Str.toLowerCase (row !! "Exclude from BOM") "yes"
  || Route.opt_is Str.toLowerCase (row !! "Exclude from BOM") "true"
  || Route.opt_is Str.toLowerCase (row !! "Exclude from BOM") "excluded from bom".

Definition do_not_populate (row : Route.BOMRow) : bool :=
  Route.opt_is Str.toLowerCase (row !! "DNP") "yes"
  || Route.opt_is Str.toLowerCase (row !! "DNP") "true"
  || Route.opt_is Str.toUpperCase (row !! "Manufacturer_Part_Number") "DNP".

(** A cross-reference column holds text other than white space. *)
Definition has_cross_reference (row : Route.BOMRow) : bool :=
  Route.opt_trim_truthy (row !! "LCSC Part #")
  || Route.opt_trim_truthy (row !! "JLCPCB Part #").

(** One gap-filling step of [mergeSourcedData]. *)
Definition fill_gap (col : string) (v : string) (row : Route.BOMRow) : Route.BOMRow :=
  if truthy_str v && Route.empty_col row col then <[col := v]> row else row.

(** The columns [mergeSourcedData] may write, with the datum of the part
    that goes into each: the two cross-reference columns, then the five
    gap-filled ones. *)
Definition cross_reference_columns : list string := ["LCSC Part #"; "JLCPCB Part #"].

Definition gap_columns (p : PartSearchResult) : list (string * string) :=
  [("Manufacturer_Part_Number", manufacturerPartNumber p);
   ("Manufacturer_Name", manufacturer p);
   ("Datasheet", datasheet p);
   ("Description", description p);
   ("CASE CODE (METRIC)", default "" (package p))].

(** Every value of the row is free of surrounding white space, as
    [parseCSV] leaves it. *)
Definition trimmed (row : Route.BOMRow) : Prop :=
  forall k v, row !! k = Some v -> Str.trim v = v.

(** A text that is empty or starts with a character other than white
    space. *)
Definition no_leading_ws (s : string) : bool :=
  match s with
  | String c _ => negb (Str.is_ws c)
  | EmptyString => true
  end.

(** A text that is exactly one four-digit code. *)
Definition is_code4 (s : string) : bool :=
  match Str.four_digits s with
  | Some (_, EmptyString) => true
  | _ => false
  end.

(** The number a field of a parsed part holds. *)
Definition number_of (v : Val.jsval) : number :=
  match v with Val.VNum n => n | _ => NaN end.

(** Statements about the adapters. *)
Module Spec.
Import Val Net.

(** A number other than [NaN]; an integer; a natural number. *)
Definition well_defined_number (v : jsval) : Prop :=
  exists n, v = VNum n /\ n <> NaN.

Definition integer_value (v : jsval) : Prop :=
  exists z : Z, v = VNum (Num.of_Z z).

Definition natural_value (v : jsval) : Prop :=
  exists n : N, v = VNum (Num.of_Z (Z.of_N n)).

(** An integer or an infinity; a natural number or the positive infinity:
    what [parseInt] gives for a run of digits, which overflows from about 309
    digits on. *)
Definition integer_or_infinite (v : jsval) : Prop :=
  v = VNum PosInf \/ v = VNum NegInf \/ integer_value v.

Definition natural_or_infinite (v : jsval) : Prop :=
  v = VNum PosInf \/ natural_value v.

Definition negative_value (v : jsval) : Prop :=
  exists n, v = VNum n /\ Num.lt n 0%num = true.

(** The text starts, after white space, with a minus sign. *)
Definition leading_minus (s : string) : bool :=
  Str.startsWith "-" (Str.trimStart s).

(** The part carries a supplier part number or a cross-reference id. *)
Definition has_identifier (r : Raw.PartObject) : Prop :=
  truthy (Raw.partNumber r) = true \/ truthy (Raw.lcscPart r) = true.

(** A failed exchange: [fetch] rejected, the response is not OK, or its body
    is not JSON. *)
Definition failed (x : result Response) : Prop :=
  match x with
  | Throw _ => True
  | Ok response => ok response = false \/ exists e, json response = Throw e
  end.

(** The call that took a client from [st] to [st'] ended with a failed
    exchange. *)
Definition last_exchange_failed
    (network : list Event -> Request -> result Response) (st st' : ClientState) : Prop :=
  exists h r, history st' = h ++ [Fetched r]
              /\ (length (history st) <= length h)%nat
              /\ failed (network h r).

(** The upstream values the free-catalog parser reads stock and price
    from, and the text it hands to [parseInt] and [parseFloat]. *)
Definition stock_source (comp : jsval) : result jsval :=
  get_or comp "stock" (get_or comp "stockQty" (get comp "quantity")).

Definition price_source (comp : jsval) : result jsval :=
  get_or comp "price" (get comp "unit_price").

Definition price_source_rev (comp : jsval) : result jsval :=
  get_or comp "price" (get_or comp "price1" (get comp "unit_price")).

Definition cleaned (Number_toString : number -> string) (v : jsval) : result string :=
  text ← ToString Number_toString v; Ok (Str.remove_chars Str.is_comma text).

(** The stock and the price the free-catalog parser gives for the upstream
    values [stockValue] and [priceValue]: 0 for a falsy value and for a text
    that does not parse, the number read otherwise. *)
Definition coerced (parse : string -> number) (Number_toString : number -> string)
    (upstream : jsval) (field : jsval) : Prop :=
  if truthy upstream then
    exists text, cleaned Number_toString upstream = Ok text
                 /\ field = VNum (if Num.isNaN (parse text) then 0%num else parse text)
  else field = VNum 0%num.

(** The stock and the price of the part are numbers, and the comparator of
    the local ordering on such parts. *)
Definition numeric_fields (r : Raw.PartObject) : Prop :=
  exists s p, Raw.stock r = VNum s /\ Raw.price r = VNum p.

Definition by_numbers (a b : Raw.PartObject) : number :=
  if negb (strict_eq (Raw.stock b) (Raw.stock a))
  then Num.sub (number_of (Raw.stock b)) (number_of (Raw.stock a))
  else Num.sub (number_of (Raw.price a)) (number_of (Raw.price b)).

(** A value that is [undefined], [null] or [NaN]. *)
Definition missing (v : jsval) : Prop :=
  v = VUndefined \/ v = VNull \/ v = VNum NaN.

End Spec.

(** A number formatter for the examples: the decimal digits of an integer. *)
Module Fmt.

Definition digit_char (n : N) : ascii := ascii_of_N (48 + n).

Fixpoint digits_of (fuel : nat) (n : N) (acc : string) : string :=
  match fuel with
  | O => acc
  | S fuel' =>
      let acc' := String (digit_char (n mod 10)) acc in
      if (n <? 10)%N then acc' else digits_of fuel' (n / 10) acc'
  end.

Definition of_N (n : N) : string := digits_of (S (N.to_nat (N.log2 n))) n "".

Definition of_Z (z : Z) : string :=
  if (z <? 0)%Z then "-" +:+ of_N (Z.to_N (- z)) else of_N (Z.to_N z).

Definition decimal (n : number) : string :=
  match n with
  | NaN => "NaN"
  | NegInf => "-Infinity"
  | PosInf => "Infinity"
  | Fin q => of_Z (JS.Qtrunc q)
  end.

End Fmt.

(** The parts and rows of the examples. *)
Module Ex.

Definition blank : PartSearchResult :=
  mkPart "" "" "" "" "" "" "" 0%num 0%num "USD" "" "" None None None None.

(** A free-catalog candidate of score 10: no stock, a price of 4, no
    cross-reference id. *)
Definition weak_jlcpcb : PartSearchResult :=
  mkPart "JLCPCB" "RC0402" "" "RC0402" "" "100K" "0402" 0%num 4%num
    "USD" "" "" None None None None.

(** A distributor candidate of the highest score the policy can give. *)
Definition strong_digikey : PartSearchResult :=
  mkPart "Digi-Key" "311-100KJRCT-ND" "YAGEO" "RC0402JR-07100KL" "" "100K" "0402"
    50000000%num (Fin (1 # 1000)%Q) "USD" "" "https://example.com/ds.pdf"
    None None None None.

Definition strong_mouser : PartSearchResult :=
  mkPart "Mouser" "603-RC0402JR-07100KL" "YAGEO" "RC0402JR-07100KL" "" "100K" "0402"
    20000%num (Fin (1 # 100)%Q) "USD" "" "https://example.com/ds.pdf"
    None None None None.

(** A row with a cross-reference id that is excluded from the BOM. *)
Definition excluded_row : Route.BOMRow :=
  <["LCSC Part #" := "C25744"]> (<["Exclude from BOM" := "yes"]>
    (<["Value" := "10k"]> (<["Reference" := "R1"]> ∅))).

(** A row with a cross-reference id and nothing that excludes it. *)
Definition sourced_row : Route.BOMRow :=
  <["LCSC Part #" := "C25744"]> (<["DNP" := ""]>
    (<["Value" := "10k"]> (<["Reference" := "R1"]> ∅))).

(** A supplier search without results. *)
Definition no_supplier : Params.t -> result (gmap string (list PartSearchResult)) :=
  fun _ => Ok ∅.

(** The line feed and the double quote. *)
Definition nl : string := String (ascii_of_N 10) "".
Definition quote : string := String (ascii_of_N 34) "".

(** An uploaded file with one row: two parts of value 100K, a datasheet
    already given, no cross-reference id, and a column the code does not
    know. *)
Definition csv : string :=
  "Reference,Value,Datasheet,LCSC Part #,Remark" +:+ nl +:+
  quote +:+ "C1,C2" +:+ quote +:+ ",100K,https://old.example/ds.pdf,, keep me ".

Definition parsed_row : Route.BOMRow :=
  <["Remark" := "keep me"]> (<["LCSC Part #" := ""]>
    (<["Datasheet" := "https://old.example/ds.pdf"]>
      (<["Value" := "100K"]> (<["Reference" := "C1,C2"]> ∅)))).

(** The part the free catalog returns for it. *)
Definition catalog_part : PartSearchResult :=
  mkPart "JLCPCB" "RC0402FR-07100KL" "YAGEO" "RC0402FR-07100KL" "100K 1% 0402" "100K"
    "0402" 15900000%num (Fin (1 # 1000)%Q) "USD" "https://jlcpcb.com/partdetail/C5137468"
    "https://new.example/ds.pdf" (Some "C5137468") None (Some "0402") None.

Definition catalog_supplier : Params.t -> result (gmap string (list PartSearchResult)) :=
  fun _ => Ok {["JLCPCB" := [catalog_part]]}.

(** What [processBOMRow] settles to for that row, and the one query it
    makes. *)
Definition matched_result : Route.SourcingResult :=
  Route.mkSourcingResult parsed_row (Some catalog_part)
    (Route.mkSearchResults [catalog_part] [] []) Route.matched
    "Matched via JLCPCB (LCSC: C5137468, Stock: 15900000)".

Definition matched_query : Params.t :=
  Params.mk (Some "100K") (Some "") (Some "capacitor") None (Some "") (Some 10%num).

(** The row written to the output file. *)
Definition merged_row : Route.BOMRow :=
  <["CASE CODE (METRIC)" := "0402"]> (<["Description" := "100K 1% 0402"]>
    (<["Manufacturer_Name" := "YAGEO"]> (<["Manufacturer_Part_Number" := "RC0402FR-07100KL"]>
      (<["JLCPCB Part #" := "C5137468"]> (<["LCSC Part #" := "C5137468"]> parsed_row))))).

(** A query for a 100K resistor of size 0402. *)
Definition query : Params.t :=
  Params.mk (Some "100K") (Some "0402") (Some "resistor") None (Some "") (Some 10%num).

(** A network on which every request is rejected. *)
Definition offline : list Net.Event -> Net.Request -> result Net.Response :=
  fun _ _ => Throw NetworkError.

Definition midnight : list Net.Event -> number := fun _ => 0%num.

(** A payload of the free catalog with three components: one with a
    cross-reference id, a stock with thousands separators and a price; one
    with neither a part number nor a cross-reference id; one with a part
    number only and a larger stock. *)
Definition catalog_payload : Val.jsval :=
  Val.VObj [("components", Val.VArr [
    Val.VObj [("lcsc", Val.VNum 5137468%num); ("mfrPartNo", Val.VStr "RC0402FR-07100KL");
              ("stock", Val.VStr "15,900"); ("price", Val.VStr "0.001");
              ("package", Val.VStr "0402")];
    Val.VObj [("stock", Val.VNum 900000%num); ("description", Val.VStr "unnamed")];
    Val.VObj [("mfrPartNo", Val.VStr "0402WGF1003TCE"); ("stock", Val.VNum 20000%num)]])].

Definition catalog_network : list Net.Event -> Net.Request -> result Net.Response :=
  fun _ r =>
    match r with
    | Net.JLCList _ _ _ _ _ => Ok (Net.mkResponse true (Ok "") (Ok catalog_payload))
    | _ => Throw NetworkError
    end.

(** A product of the OAuth2 distributor whose pricing tier has no unit
    price. *)
Definition product_without_price : Val.jsval :=
  Val.VObj [("DigiKeyPartNumber", Val.VStr "311-100KLRCT-ND");
            ("QuantityAvailable", Val.VNum 2500%num);
            ("StandardPricing", Val.VArr [Val.VObj [("BreakQuantity", Val.VNum 1%num)]])].

(** A component of the free catalog with a negative stock text. *)
Definition component_negative_stock : Val.jsval :=
  Val.VObj [("lcsc", Val.VStr "C25744"); ("stock", Val.VStr "-5");
            ("price", Val.VStr "0.01")].

(** A part of the API-key distributor with a price that carries a currency
    sign. *)
Definition part_dollar_price : Val.jsval :=
  Val.VObj [("MouserPartNumber", Val.VStr "603-RC0402FR-07100KL");
            ("Availability", Val.VStr "2500 In Stock");
            ("PriceBreaks", Val.VArr [Val.VObj [("Quantity", Val.VNum 1%num);
                                                ("Price", Val.VStr "$0.10")]])].

(** A component of the free catalog as the service sends it. *)
Definition component_100K : Val.jsval :=
  Val.VObj [("lcsc", Val.VNum 5137468%num); ("mfr", Val.VStr "RC0402FR-07100KL");
            ("stock", Val.VStr "15,900,000"); ("price", Val.VStr "0.001");
            ("package", Val.VStr "0402")].

(** Two free-catalog candidates: one whose stock is not a number, one with a
    stock of 1 500 000 and a cross-reference id (score 1065). *)
Definition nan_stock : PartSearchResult :=
  mkPart "JLCPCB" "RC0402JR" "" "RC0402JR" "" "100K" "0402" NaN 0%num
    "USD" "" "" None None None None.

Definition big_stock : PartSearchResult :=
  mkPart "JLCPCB" "RC0402FR" "" "RC0402FR" "" "100K" "0402" 1500000%num 0%num
    "USD" "" "" (Some "C25744") None None None.

(** Products of the OAuth2 distributor whose quantity is a text, and a
    negative number. *)
Definition product_text_stock : Val.jsval :=
  Val.VObj [("DigiKeyPartNumber", Val.VStr "311-100KLRCT-ND");
            ("QuantityAvailable", Val.VStr "In stock")].

Definition product_negative_stock : Val.jsval :=
  Val.VObj [("DigiKeyPartNumber", Val.VStr "311-100KLRCT-ND");
            ("QuantityAvailable", Val.VNum (-3)%num)].

(** A component of the free catalog whose stock is the text of 10^309. *)
Fixpoint zeros (n : nat) : string :=
  match n with
  | O => EmptyString
  | S k => String "0" (zeros k)
  end.

Definition component_huge_stock : Val.jsval :=
  Val.VObj [("lcsc", Val.VStr "C25744"); ("stock", Val.VStr (String "1" (zeros 309)))].

End Ex.

(** ** Writing the rows back (route.ts, [toCSV]) *)

Module RouteCSV.

Import Str.

Section ToCSV.

(** [Object.keys(row)]: the columns of a row in the order they were written,
    which a map does not record; left open. *)
Variable Object_keys : Route.BOMRow -> list string.

(** The names a row object inherits.  What they name is a function or an
    object: truthy, and without a [replace] method. *)
Definition inherited_names : list string :=
  ["constructor"; "__defineGetter__"; "__defineSetter__"; "hasOwnProperty";
   "__lookupGetter__"; "__lookupSetter__"; "isPrototypeOf"; "propertyIsEnumerable";
   "toString"; "valueOf"; "__proto__"; "toLocaleString"].

Definition quote_char : ascii := ascii_of_N 34.

(** [value.replace]: every double quote becomes two. *)
Fixpoint escape_quotes (value : string) : string :=
  match value with
  | EmptyString => EmptyString
  | String c r =>
      if is_quote c then String quote_char (String quote_char (escape_quotes r))
      else String c (escape_quotes r)
  end.

Definition quoted (s : string) : string :=
  String quote_char (s +:+ String quote_char EmptyString).

(** [allHeaders.add(key)] *)
Definition add_header (allHeaders : list string) (key : string) : list string :=
  if bool_decide (key ∈ allHeaders) then allHeaders else allHeaders ++ [key].

(** Get all headers from all rows *)
Definition all_headers (rows : list Route.BOMRow) : list string :=
  foldl (fun allHeaders row => foldl add_header allHeaders (Object_keys row)) [] rows.

(** The cell of a column: [row[h] || ''], quotes escaped, wrapped in
    quotes. *)
Definition cell (row : Route.BOMRow) (h : string) : result string :=
  match row !! h with
  | Some value => Ok (quoted (escape_quotes (if truthy_str value then value else "")))
  | None =>
      if bool_decide (h ∈ inherited_names) then Throw TypeError
      else Ok (quoted (escape_quotes ""))
  end.

Definition header_line (headers : list string) : string :=
  Val.join "," (map quoted headers).

Definition data_line (headers : list string) (row : Route.BOMRow) : result string :=
  values ← Val.mapM (cell row) headers;
  Ok (Val.join "," values).

(** Convert BOM rows to CSV *)
Definition toCSV (rows : list Route.BOMRow) : result string :=
  match rows with
  | [] => Ok ""
  | _ =>
      let headers := all_headers rows in
      lines ← Val.mapM (data_line headers) rows;
      Ok (Val.join (String (ascii_of_N 10) EmptyString) (header_line headers :: lines))
  end.

End ToCSV.

End RouteCSV.

(** ** The upload handler (route.ts, [POST]) *)

(** The statistics of a reply. *)
Module Stats.
Record t : Type := mk {
  total : nat;
  matched : nat;
  notFound : nat;
  skipped : nat;
  alreadySourced : nat
}.
End Stats.

Module RoutePOST.

Import Route.

(** The reply of the handler: a failure with its HTTP status and message, or
    the statistics, the results and the output CSV.  The file name of the
    reply and the configuration status are left out, and the results are kept
    whole. *)
Inductive Reply : Type :=
| Failure (httpStatus : Z) (error : string)
| Success (stats : Stats.t) (results : list SourcingResult) (csv : string).

(** [r.status === s] *)
Definition status_is (s : Status) (r : SourcingResult) : bool :=
  match status r, s with
  | matched, matched | not_found, not_found
  | skipped, skipped | already_sourced, already_sourced => true
  | _, _ => false
  end.

(** Calculate statistics *)
Definition statistics (results : list SourcingResult) : Stats.t :=
  Stats.mk (length results)
           (length (List.filter (status_is matched) results))
           (length (List.filter (status_is not_found) results))
           (length (List.filter (status_is skipped) results))
           (length (List.filter (status_is already_sourced) results)).

Section Handler.

Variable toLocaleString : number -> string.

(** What the suppliers answer to a query.  The answer may change from one
    call to the next: it is given the queries made before. *)
Variable searchAllSuppliers :
  list Params.t -> Params.t -> result (gmap string (list PartSearchResult)).

Variable Object_keys : BOMRow -> list string.

(** The message of an error, as the reply gives it. *)
Variable message : error -> string.

(** Process each row: the results and the sourced rows, in the order of the
    rows, with all the queries made; the loop ends at the first row that
    fails. *)
Fixpoint sourceRows (earlier : list Params.t) (rows : list BOMRow)
    : result (list SourcingResult * list BOMRow) * list Params.t :=
  match rows with
  | [] => (Ok ([], []), earlier)
  | row :: rest =>
      match sourceRow toLocaleString (searchAllSuppliers earlier) row with
      | (Throw e, calls) => (Throw e, earlier ++ calls)
      | (Ok (result, sourced), calls) =>
          match sourceRows (earlier ++ calls) rest with
          | (Throw e, all) => (Throw e, all)
          | (Ok (results, sourcedRows), all) =>
              (Ok (result :: results, sourced :: sourcedRows), all)
          end
      end
  end.

(** [POST], for a request whose [file] entry, when there is one, is a file
    with the given text. *)
Definition POST (file : option string) : Reply * list Params.t :=
  match file with
  | None => (Failure 400 "No file uploaded", [])
  | Some csvText =>
      (* Read file content *)
      let bomRows := parseCSV csvText in
      if (length bomRows =? 0)%nat
      then (Failure 400 "Could not parse BOM file or file is empty", [])
      else
        (* Process each row *)
        match sourceRows [] bomRows with
        | (Throw e, calls) => (Failure 500 (message e), calls)
        | (Ok (results, sourcedRows), calls) =>
            (* Generate output CSV *)
            match RouteCSV.toCSV Object_keys sourcedRows with
            | Throw e => (Failure 500 (message e), calls)
            | Ok outputCSV => (Success (statistics results) results outputCSV, calls)
            end
        end
  end.

End Handler.

Definition succeeded (reply : Reply * list Params.t) : bool :=
  match reply with
  | (Success _ _ _, _) => true
  | _ => false
  end.

End RoutePOST.

(** ** Further statements *)

(** A value that is not an object: a text, a number, a boolean, [null] or
    [undefined]; and a value whose properties are all such values. *)
Definition primitive (v : Val.jsval) : bool :=
  match v with
  | Val.VArr _ | Val.VObj _ => false
  | _ => true
  end.

Definition primitive_fields (comp : Val.jsval) : Prop :=
  forall k v, Val.get comp k = Ok v -> primitive v = true.

(** The categories the classification of a row can give. *)
Definition categories : list string :=
  ["capacitor"; "resistor"; "inductor"; "diode"; "ic"; "crystal"; "switch";
   "connector"; "microphone"; ""].

(** The requests among some events. *)
Definition fetched (evs : list Net.Event) : list Net.Request :=
  omap (fun e => match e with Net.Fetched r => Some r | Net.ClockRead => None end) evs.

(** The history of [st'] continues that of [st], with at most [n] requests
    more. *)
Definition extends_by (st st' : Net.ClientState) (n : nat) : Prop :=
  exists evs, Net.history st' = Net.history st ++ evs /\ (length (fetched evs) <= n)%nat.

(** A query that gives the free-catalog client nothing to search for, and
    one that gives the distributor clients nothing. *)
Definition no_search_term (params : Params.t) : Prop :=
  truthy_opt (Params.value params) = false
  /\ truthy_opt (Params.manufacturerPartNumber params) = false
  /\ truthy_opt (Params.manufacturer params) = false.

Definition no_keyword (params : Params.t) : Prop :=
  truthy_opt (Params.value params) = false
  /\ truthy_opt (Params.manufacturerPartNumber params) = false
  /\ truthy_opt (Params.footprint params) = false
  /\ truthy_opt (Params.componentType params) = false.

(** The local ordering of the free-catalog results: more stock first, and
    at equal stock the lower price first. *)
Definition ranks_before (a b : Raw.PartObject) : Prop :=
  Num.lt (number_of (Raw.stock b)) (number_of (Raw.stock a)) = true
  \/ (Num.strict_eq (number_of (Raw.stock a)) (number_of (Raw.stock b)) = true
      /\ Num.le (number_of (Raw.price a)) (number_of (Raw.price b)) = true).

(** The stock and the price of the part are numbers, not [NaN]. *)
Definition numeric (r : Raw.PartObject) : Prop :=
  Spec.well_defined_number (Raw.stock r) /\ Spec.well_defined_number (Raw.price r).

(** What may follow a closing quote: nothing, or a character that is not a
    quote. *)
Definition closes (rest : string) : Prop :=
  match rest with
  | EmptyString => True
  | String c _ => Str.is_quote c = false
  end.

(** The lines of a file that hold more than white space. *)
Definition non_blank_lines (csvText : string) : list string :=
  List.filter (fun line => truthy_str (Str.trim line)) (Str.split Str.is_newline csvText).

(** Every character of the text is of the class. *)
Fixpoint all_chars (f : ascii -> bool) (s : string) : bool :=
  match s with
  | EmptyString => true
  | String c r => f c && all_chars f r
  end.

Definition not_newline (c : ascii) : bool := negb (Str.is_newline c).

Definition not_quote_or_newline (c : ascii) : bool :=
  negb (Str.is_quote c) && negb (Str.is_newline c).

(** A column name and a value that a CSV text carries unchanged: no white
    space around them and no line feed inside; a column name has no double
    quote either, and is none of the inherited names. *)
Definition plain_key (k : string) : Prop :=
  Str.trim k = k /\ all_chars not_quote_or_newline k = true
  /\ k ∉ RouteCSV.inherited_names.

Definition plain_value (v : string) : Prop :=
  Str.trim v = v /\ all_chars not_newline v = true.

Definition plain_row (row : Route.BOMRow) : Prop :=
  forall k v, row !! k = Some v -> plain_key k /\ plain_value v.

(** What reading back gives for a row written under the headers: the cells
    of the row, and an empty cell for each header the row has not. *)
Definition written_as (headers : list string) (row row' : Route.BOMRow) : Prop :=
  forall h,
    row' !! h = if bool_decide (h ∈ headers) then Some (default "" (row !! h)) else None.

(** ** Further examples *)

Module Ex2.

(** A row with a value and no reference column. *)
Definition row_without_reference : Route.BOMRow :=
  <["Footprint" := "R_0402_1005Metric"]> (<["Value" := "10k"]> ∅).

(** A query without any text. *)
Definition empty_query : Params.t :=
  Params.mk (Some "") None None None (Some "") (Some 10%num).

(** A client that holds a token, valid until the clock reaches 1. *)
Definition signed_in : Net.ClientState :=
  Net.mkState [] (Val.VStr "token") 1%num.

(** The columns of a row, in the order of the map. *)
Definition keys_of (row : Route.BOMRow) : list string := (map_to_list row).*1.

(** Two rows with different columns; one value has a comma, one has double
    quotes. *)
Definition two_rows : list Route.BOMRow :=
  [ <["Value" := "10k"]> (<["Reference" := "R1, R2"]> ∅);
    <["Remark" := "series " +:+ Ex.quote +:+ "E24" +:+ Ex.quote]>
      (<["Value" := "4k7"]> ∅) ].

(** An uploaded file with two rows, the second one short of a cell. *)
Definition short_csv : string :=
  "Reference, Value" +:+ Ex.nl +:+ "R1,10k" +:+ Ex.nl +:+ "C1".

Definition short_rows : list Route.BOMRow :=
  [ <["Value" := "10k"]> (<["Reference" := "R1"]> ∅);
    <["Value" := ""]> (<["Reference" := "C1"]> ∅) ].

(** A component whose cross-reference id is an object with a property
    [toString], which a JSON text can give. *)
Definition component_object_id : Val.jsval :=
  Val.VObj [("lcsc", Val.VObj [("toString", Val.VNum 1%num)])].

End Ex2.

(** * Properties *)

(** ** Numbers *)

Section NumFacts.

Lemma Qltb_spec a b : reflect (a < b)%Q (Num.Qltb a b).
Proof.
  unfold Num.Qltb. destruct (a ?= b)%Q eqn:E; constructor.
  - apply Qeq_alt in E. rewrite E. apply Qlt_irrefl.
  - apply Qlt_alt, E.
  - apply Qgt_alt in E. apply Qle_not_lt, Qlt_le_weak, E.
Qed.

Lemma Qeqb_spec a b : reflect (a == b)%Q (Num.Qeqb a b).
Proof.
  unfold Num.Qeqb. destruct (a ?= b)%Q eqn:E; constructor.
  - apply Qeq_alt, E.
  - apply Qlt_alt in E. intros E'. rewrite E' in E. exact (Qlt_irrefl _ E).
  - apply Qgt_alt in E. intros E'. rewrite E' in E. exact (Qlt_irrefl _ E).
Qed.

End NumFacts.

(** Equations between closed terms, by evaluation. *)
Ltac vm_refl :=
  lazymatch goal with
  | |- _ = ?r => vm_cast_no_check (@eq_refl _ r)
  end.

Ltac num_simpl :=
  cbn [Num.gt Num.lt Num.add Num.sub Num.neg Num.mul Num.div Num.Math_min Num.Math_max
       Num.sign Num.signed_inf Num.sign_mul Num.of_Z Num.eqv Num.strict_eq Num.le
       Num.isNaN iverson orb andb negb] in *.

Ltac num_case :=
  match goal with
  | |- context [Num.Qltb ?a ?b] => destruct (Qltb_spec a b)
  | |- context [Num.Qeqb ?a ?b] => destruct (Qeqb_spec a b)
  | H : context [Num.Qltb ?a ?b] |- _ => destruct (Qltb_spec a b)
  | H : context [Num.Qeqb ?a ?b] |- _ => destruct (Qeqb_spec a b)
  | |- context [Qcompare ?a ?b] => destruct (Qcompare_spec a b)
  | H : context [Qcompare ?a ?b] |- _ => destruct (Qcompare_spec a b)
  end.

Ltac num_crunch := num_simpl; repeat (num_case; num_simpl).

Ltac q_arith :=
  unfold inject_Z, Qdiv in *;
  change (/ (100000 # 1))%Q with (1 # 100000)%Q in *;
  lra.

Ltac num_done :=
  first [ exact I | reflexivity | discriminate | q_arith
        | intros; first [ discriminate | exfalso; q_arith ] ].

Ltac num_solve := num_crunch; try tauto; try num_done; try (intros; exfalso; q_arith).

Section NumOrder.
Local Open Scope num_scope.

(** The comparator [b - a > 0] of a descending sort is the test [a < b]. *)
Lemma gt_sub_lt a b : (b - a >? 0) = (a <? b).
Proof. destruct a as [| |x|], b as [| |y|]; num_solve. Qed.

Lemma le_not_NaN_l a b : Num.le a b = true -> a <> NaN.
Proof. destruct a; [destruct b; discriminate | discriminate ..]. Qed.

Lemma le_not_NaN_r a b : Num.le a b = true -> b <> NaN.
Proof. destruct a, b; discriminate. Qed.

Lemma eqv_refl a : Num.eqv a a.
Proof. destruct a; simpl; try exact I. reflexivity. Qed.

Lemma eqv_sym a b : Num.eqv a b -> Num.eqv b a.
Proof. destruct a, b; simpl; try tauto. intros H; symmetry; exact H. Qed.

Lemma eqv_trans a b c : Num.eqv a b -> Num.eqv b c -> Num.eqv a c.
Proof.
  destruct a, b, c; simpl; try tauto. intros H1 H2; rewrite H1; exact H2.
Qed.

Lemma le_antisym_lt a b : Num.le a b = true -> (a <? b) = false -> Num.eqv a b.
Proof. destruct a as [| |x|], b as [| |y|]; unfold Num.le; num_solve. Qed.

Lemma le_eqv_r a b c : Num.le a b = true -> Num.eqv b c -> Num.le a c = true.
Proof.
  destruct a as [| |x|], b as [| |y|], c as [| |z|]; unfold Num.le; num_solve.
Qed.

Lemma lt_le_false a b : Num.le a b = true -> (b <? a) = false.
Proof. destruct a as [| |x|], b as [| |y|]; unfold Num.le; num_solve. Qed.

Lemma lt_eqv_r a b c : Num.eqv b c -> (a <? b) = (a <? c).
Proof. destruct a as [| |x|], b as [| |y|], c as [| |z|]; num_solve. Qed.

Lemma lt_eqv_l a b c : Num.eqv a b -> (a <? c) = (b <? c).
Proof. destruct a as [| |x|], b as [| |y|], c as [| |z|]; num_solve. Qed.

Lemma gt_eqv a b : Num.eqv a b -> (a >? 0) = (b >? 0).
Proof. destruct a as [| |x|], b as [| |y|]; num_solve. Qed.

End NumOrder.

(** ** Scoring *)

Section ScoringFacts.
Local Open Scope num_scope.

(** C2. Each scoring function computes the reference expression of the
    specification: 1000 for a positive stock, plus min(stock/100000, 100),
    plus max(0, 50 - 10 price) for a positive price, plus 50 for a
    cross-reference id (free catalog) or 20 for a datasheet (distributor). *)
Theorem score_refines_reference (p : PartSearchResult) :
  Num.eqv (scoreJLCPCBPart p) (reference_score_free_catalog p)
  /\ Num.eqv (scoreDistributorPart p) (reference_score_distributor p).
Proof.
  unfold scoreJLCPCBPart, scoreDistributorPart, reference_score_free_catalog,
    reference_score_distributor, reference_score.
  destruct (stock p) as [| |s|], (price p) as [| |q|],
    (truthy_opt (lcscPart p)), (truthy_str (datasheet p)).
  all: split; num_solve.
Qed.

Lemma score_base_stock_monotone (s1 s2 c : number) :
  (s1 <? s2) = true -> (score_base s2 c <? score_base s1 c) = false.
Proof.
  unfold score_base.
  destruct s1 as [| |s1|], s2 as [| |s2|], c as [| |c|]; num_solve.
Qed.

Lemma score_base_price_antitone (s c1 c2 : number) :
  (c1 >? 0) = true -> (c2 >? 0) = true -> (c1 <? c2) = true ->
  (score_base s c1 <? score_base s c2) = false.
Proof.
  unfold score_base.
  destruct s as [| |s|], c1 as [| |c1|], c2 as [| |c2|]; num_solve.
Qed.

Lemma lt_false_add_bonus (a b : number) (k : Q) (has : bool) :
  (a <? b) = false ->
  ((if has then a + Fin k else a) <? (if has then b + Fin k else b)) = false.
Proof.
  destruct has; [| tauto].
  destruct a as [| |x|], b as [| |y|]; num_solve.
Qed.

Lemma scoreJLCPCBPart_base p :
  scoreJLCPCBPart p =
  if truthy_opt (lcscPart p) then score_base (stock p) (price p) + 50
  else score_base (stock p) (price p).
Proof. reflexivity. Qed.

Lemma scoreDistributorPart_base p :
  scoreDistributorPart p =
  if truthy_str (datasheet p) then score_base (stock p) (price p) + 20
  else score_base (stock p) (price p).
Proof. reflexivity. Qed.

(** C7. For both scoring functions: of two parts that differ only in stock,
    the one with the larger stock never gets a strictly smaller score; of
    two parts that differ only in price, both prices positive, the one with
    the larger price never gets a strictly larger score. *)
Theorem score_monotone (p : PartSearchResult) :
  (forall s1 s2, (s1 <? s2) = true ->
     (scoreJLCPCBPart (with_stock p s2) <? scoreJLCPCBPart (with_stock p s1)) = false
     /\ (scoreDistributorPart (with_stock p s2) <? scoreDistributorPart (with_stock p s1)) = false)
  /\ (forall c1 c2, (c1 >? 0) = true -> (c2 >? 0) = true -> (c1 <? c2) = true ->
     (scoreJLCPCBPart (with_price p c1) <? scoreJLCPCBPart (with_price p c2)) = false
     /\ (scoreDistributorPart (with_price p c1) <? scoreDistributorPart (with_price p c2)) = false).
Proof.
  split.
  - intros s1 s2 Hlt.
    rewrite !scoreJLCPCBPart_base, !scoreDistributorPart_base; cbn [stock price lcscPart datasheet with_stock].
    split; apply lt_false_add_bonus, score_base_stock_monotone, Hlt.
  - intros c1 c2 H1 H2 Hlt.
    rewrite !scoreJLCPCBPart_base, !scoreDistributorPart_base; cbn [stock price lcscPart datasheet with_price].
    split; apply lt_false_add_bonus, score_base_price_antitone; assumption.
Qed.

(** A witness: 500 000 units against 100 000 at the same price, and a price
    of 2 against a price of 1 at the same stock. *)
Lemma score_monotone_witness :
  ((scoreJLCPCBPart (with_stock Ex.weak_jlcpcb 500000)
      <? scoreJLCPCBPart (with_stock Ex.weak_jlcpcb 100000)) = false
   /\ (scoreDistributorPart (with_stock Ex.weak_jlcpcb 500000)
      <? scoreDistributorPart (with_stock Ex.weak_jlcpcb 100000)) = false)
  /\ ((scoreJLCPCBPart (with_price Ex.weak_jlcpcb 1)
      <? scoreJLCPCBPart (with_price Ex.weak_jlcpcb 2)) = false
   /\ (scoreDistributorPart (with_price Ex.weak_jlcpcb 1)
      <? scoreDistributorPart (with_price Ex.weak_jlcpcb 2)) = false).
Proof.
  split.
  - apply (proj1 (score_monotone Ex.weak_jlcpcb) 100000 500000). reflexivity.
  - apply (proj2 (score_monotone Ex.weak_jlcpcb) 1 2); reflexivity.
Defined.

End ScoringFacts.

(** ** Sorting *)

Section SortFacts.
Context {A : Type} (cmp : A -> A -> number).

Lemma insert_sorted_Permutation x l : JS.insert_sorted cmp x l ≡ₚ x :: l.
Proof.
  induction l as [|y l IH]; cbn [JS.insert_sorted]; [reflexivity|].
  destruct (Num.gt (cmp x y) 0%num); [|reflexivity].
  rewrite IH. apply Permutation_swap.
Qed.

Lemma sort_Permutation l : JS.sort cmp l ≡ₚ l.
Proof.
  induction l as [|x l IH]; cbn [JS.sort]; [reflexivity|].
  rewrite insert_sorted_Permutation. by rewrite IH.
Qed.

Lemma elem_of_sort x l : x ∈ JS.sort cmp l <-> x ∈ l.
Proof. by rewrite sort_Permutation. Qed.

End SortFacts.

(** ** The selection cascade *)

Section Cascade.
Local Open Scope num_scope.
Import Route.

Variable toLocaleString : number -> string.
Variable f : PartSearchResult -> number.

Lemma rank_cons x l :
  rank f (x :: l) = JS.insert_sorted by_score_desc (mkScored x (f x)) (rank f l).
Proof. reflexivity. Qed.

Lemma rank_elem y l : y ∈ rank f l -> part y ∈ l /\ score y = f (part y).
Proof.
  unfold rank. rewrite elem_of_sort, list_elem_of_In, in_map_iff.
  intros (p & <- & Hp). split; [by apply list_elem_of_In | reflexivity].
Qed.

Lemma rank_nil l : rank f l = [] -> l = [].
Proof.
  intros H. destruct l as [|x l]; [reflexivity|].
  assert (Hin : mkScored x (f x) ∈ rank f (x :: l)).
  { unfold rank. rewrite elem_of_sort. cbn [map]. left. }
  rewrite H in Hin. by apply not_elem_of_nil in Hin.
Qed.

Lemma by_score_desc_gt a b : (by_score_desc a b >? 0) = (score a <? score b).
Proof. apply gt_sub_lt. Qed.

(** The head of the ranking, by a scan from the right: a later candidate
    replaces an earlier one only with a strictly larger score. *)
Lemma rank_head x l :
  head (rank f (x :: l)) =
  match head (rank f l) with
  | Some y => if f x <? score y then Some y else Some (mkScored x (f x))
  | None => Some (mkScored x (f x))
  end.
Proof.
  rewrite rank_cons. destruct (rank f l) as [|y r]; [reflexivity|].
  cbn [JS.insert_sorted head]. rewrite by_score_desc_gt. cbn [score].
  by destruct (f x <? score y).
Qed.

Lemma rank_top_prefix l top :
  head (rank f l) = Some top ->
  score top = f (part top)
  /\ exists pre post, l = pre ++ part top :: post
       /\ Forall (fun q => (f q <? f (part top)) = true) pre.
Proof.
  revert top. induction l as [|x l IH]; intros top; [discriminate|].
  rewrite rank_head. destruct (head (rank f l)) as [y|] eqn:Hy.
  - destruct (f x <? score y) eqn:Hlt; intros [= <-].
    + destruct (IH y eq_refl) as (Hs & pre & post & -> & Hpre).
      split; [exact Hs|]. exists (x :: pre), post. split; [reflexivity|].
      constructor; [by rewrite <- Hs | exact Hpre].
    + split; [reflexivity|]. exists [], l. split; [reflexivity | constructor].
  - intros [= <-]. split; [reflexivity|]. exists [], l. split; [reflexivity | constructor].
Qed.

Lemma rank_top_max l best top :
  head (rank f l) = Some top ->
  best ∈ l ->
  (forall q, q ∈ l -> Num.le (f q) (f best) = true) ->
  Num.eqv (score top) (f best).
Proof.
  revert top. induction l as [|x l IH]; intros top; [discriminate|].
  rewrite rank_head. intros Htop Hbest Hmax.
  assert (Hx : Num.le (f x) (f best) = true) by (apply Hmax; left).
  destruct (head (rank f l)) as [y|] eqn:Hy.
  - assert (Hyin : y ∈ rank f l).
    { destruct (rank f l); [discriminate|]. injection Hy as ->. left. }
    apply rank_elem in Hyin as [Hyl Hys].
    destruct (f x <? score y) eqn:Hlt; injection Htop as <-.
    + apply elem_of_cons in Hbest as [-> | Hbest].
      * assert (Hle : Num.le (f (part y)) (f x) = true) by (apply Hmax; by right).
        apply lt_le_false in Hle. rewrite Hys in Hlt. congruence.
      * apply (IH y eq_refl Hbest). intros q Hq. apply Hmax. by right.
    + apply elem_of_cons in Hbest as [-> | Hbest]; [apply eqv_refl|].
      cbn [score]. apply le_antisym_lt; [exact Hx|].
      assert (He : Num.eqv (score y) (f best)).
      { apply (IH y eq_refl Hbest). intros q Hq. apply Hmax. by right. }
      by rewrite <- (lt_eqv_r _ _ _ He).
  - injection Htop as <-. cbn [score].
    destruct (rank f l) eqn:E; [apply rank_nil in E | discriminate].
    subst l. apply elem_of_cons in Hbest as [-> | Hbest]; [apply eqv_refl|].
    by apply not_elem_of_nil in Hbest.
Qed.

Lemma top_candidate_None l :
  (forall q, q ∈ l -> (f q >? 0) = false) -> top_candidate f l = None.
Proof.
  intros Hno. unfold top_candidate.
  destruct (rank f l) as [|top r] eqn:E; [reflexivity|].
  assert (Hin : top ∈ rank f l) by (rewrite E; left).
  apply rank_elem in Hin as [Hin Hs]. rewrite Hs, (Hno _ Hin). reflexivity.
Qed.

Lemma top_candidate_Some l best :
  best ∈ l ->
  (forall q, q ∈ l -> Num.le (f q) (f best) = true) ->
  (f best >? 0) = true ->
  exists p, top_candidate f l = Some p /\ first_best f l p /\ Num.eqv (f p) (f best).
Proof.
  intros Hbest Hmax Hpos. unfold top_candidate.
  destruct (rank f l) as [|top r] eqn:E.
  { apply rank_nil in E. subst l. by apply not_elem_of_nil in Hbest. }
  assert (Hhead : head (rank f l) = Some top) by (rewrite E; reflexivity).
  destruct (rank_top_prefix l top Hhead) as (Hs & pre & post & Hl & Hpre).
  pose proof (rank_top_max l best top Hhead Hbest Hmax) as He.
  rewrite (gt_eqv _ _ He), Hpos. exists (part top).
  rewrite Hs in He. split; [reflexivity|]. split; [|exact He].
  exists pre, post. split; [exact Hl|]. split; [exact Hpre|].
  apply Forall_forall. intros q Hq. apply le_eqv_r with (f best); [|by apply eqv_sym].
  apply Hmax. rewrite Hl. apply elem_of_app. right. by right.
Qed.

End Cascade.

Section SelectBestPart.
Local Open Scope num_scope.
Import Route.

Variable toLocaleString : number -> string.

(** The cascade, stage by stage. *)
Lemma selectBestPart_stages j d m :
  selectBestPart toLocaleString j d m =
  match top_candidate scoreJLCPCBPart j with
  | Some p => mkSelection (Some p) (note_jlcpcb toLocaleString p)
  | None =>
      match top_candidate scoreDistributorPart d with
      | Some p => mkSelection (Some p) (note_distributor toLocaleString "Digi-Key" p)
      | None =>
          match top_candidate scoreDistributorPart m with
          | Some p => mkSelection (Some p) (note_distributor toLocaleString "Mouser" p)
          | None => mkSelection None "No matches found"
          end
      end
  end.
Proof.
  unfold selectBestPart, top_candidate.
  destruct (rank scoreJLCPCBPart j) as [|tj rj];
    [|destruct (score tj >? 0); [reflexivity|]];
  (destruct (rank scoreDistributorPart d) as [|td rd];
    [|destruct (score td >? 0); [reflexivity|]]);
  (destruct (rank scoreDistributorPart m) as [|tm rm];
    [|destruct (score tm >? 0)]); reflexivity.
Qed.

(** A score is [NaN] exactly when the stock is. *)
Lemma score_base_NaN s c : score_base s c = NaN <-> s = NaN.
Proof.
  unfold score_base.
  destruct s as [| |s|], c as [| |c|]; num_crunch; split; try discriminate; reflexivity.
Qed.

Lemma score_not_NaN p :
  stock p <> NaN -> scoreJLCPCBPart p <> NaN /\ scoreDistributorPart p <> NaN.
Proof.
  intros Hs. rewrite scoreJLCPCBPart_base, scoreDistributorPart_base.
  assert (Hb : score_base (stock p) (price p) <> NaN) by (by rewrite score_base_NaN).
  split.
  - destruct (truthy_opt (lcscPart p)); [|exact Hb].
    destruct (score_base (stock p) (price p)); [done | discriminate..].
  - destruct (truthy_str (datasheet p)); [|exact Hb].
    destruct (score_base (stock p) (price p)); [done | discriminate..].
Qed.

(** On numbers other than [NaN] the order is total. *)
Lemma le_total_num a b : a <> NaN -> b <> NaN -> Num.le a b = true \/ Num.le b a = true.
Proof.
  unfold Num.le. destruct a as [| |x|], b as [| |y|]; try done; num_crunch;
    try (by left); try (by right); intros; exfalso; q_arith.
Qed.

Lemma le_trans_num a b c : Num.le a b = true -> Num.le b c = true -> Num.le a c = true.
Proof.
  unfold Num.le. destruct a as [| |x|], b as [| |y|], c as [| |z|]; num_solve.
Qed.

Lemma le_not_positive a b : Num.le a b = true -> (b >? 0) = false -> (a >? 0) = false.
Proof.
  unfold Num.le. destruct a as [| |x|], b as [| |y|]; num_crunch; try done;
    intros; exfalso; q_arith.
Qed.

(** A list of candidates whose scores are numbers has a highest-scoring
    candidate, unless it is empty. *)
Lemma highest_exists (f : PartSearchResult -> number) l :
  Forall (fun q => f q <> NaN) l -> l <> [] ->
  exists best, best ∈ l /\ forall q, q ∈ l -> Num.le (f q) (f best) = true.
Proof.
  induction 1 as [|p l Hp Hl IH]; [done|]. intros _.
  destruct l as [|p' l'].
  - exists p. split; [left|]. intros q ->%list_elem_of_singleton.
    destruct (le_total_num (f p) (f p) Hp Hp); assumption.
  - destruct (IH ltac:(done)) as (b & Hb & Hmax).
    assert (Hnb : f b <> NaN) by (rewrite Forall_forall in Hl; by apply Hl).
    destruct (le_total_num (f p) (f b) Hp Hnb) as [Hle | Hle].
    + exists b. split; [by right|]. intros q [-> | Hq]%elem_of_cons; [exact Hle|].
      by apply Hmax.
    + exists p. split; [left|]. intros q [-> | Hq]%elem_of_cons.
      * destruct (le_total_num (f p) (f p) Hp Hp); assumption.
      * eapply le_trans_num; [by apply Hmax | exact Hle].
Qed.

Lemma best_or_none (f : PartSearchResult -> number) l :
  Forall (fun q => f q <> NaN) l ->
  (exists best, positive_best f l best) \/ none_positive f l.
Proof.
  intros Hl. destruct l as [|p l]; [right; intros q Hq; by apply not_elem_of_nil in Hq|].
  destruct (highest_exists f (p :: l) Hl ltac:(done)) as (b & Hb & Hmax).
  destruct (f b >? 0) eqn:Hpos.
  - left. by exists b.
  - right. intros q Hq. by apply (le_not_positive _ (f b)); [apply Hmax|].
Qed.

(** C1, amended.  The cascade.  When the free-catalog list has a
    highest-scoring candidate with a positive score, the first such candidate
    is selected, whatever the distributor lists hold.  Only when no
    free-catalog candidate has a positive score is the Digi-Key list used in
    the same way, then the Mouser list; when no list has a candidate with a
    positive score the result is no part, with the note "No matches found".
    These cases cover every list in which the stock of each candidate is a
    number other than [NaN]: such a list has a highest-scoring candidate with
    a positive score, or no candidate with a positive score. *)
Theorem selectBestPart_cascade (j d m : list PartSearchResult) :
  ((forall best, positive_best scoreJLCPCBPart j best ->
     exists p, first_best scoreJLCPCBPart j p
       /\ Num.eqv (scoreJLCPCBPart p) (scoreJLCPCBPart best)
       /\ selectBestPart toLocaleString j d m
          = mkSelection (Some p) (note_jlcpcb toLocaleString p))
  /\ (none_positive scoreJLCPCBPart j ->
      (forall best, positive_best scoreDistributorPart d best ->
         exists p, first_best scoreDistributorPart d p
           /\ Num.eqv (scoreDistributorPart p) (scoreDistributorPart best)
           /\ selectBestPart toLocaleString j d m
              = mkSelection (Some p) (note_distributor toLocaleString "Digi-Key" p))
      /\ (none_positive scoreDistributorPart d ->
          (forall best, positive_best scoreDistributorPart m best ->
             exists p, first_best scoreDistributorPart m p
               /\ Num.eqv (scoreDistributorPart p) (scoreDistributorPart best)
               /\ selectBestPart toLocaleString j d m
                  = mkSelection (Some p) (note_distributor toLocaleString "Mouser" p))
          /\ (none_positive scoreDistributorPart m ->
              selectBestPart toLocaleString j d m
              = mkSelection None "No matches found"))))
  /\ (forall l, Forall (fun q => stock q <> NaN) l ->
      ((exists best, positive_best scoreJLCPCBPart l best)
       \/ none_positive scoreJLCPCBPart l)
      /\ ((exists best, positive_best scoreDistributorPart l best)
          \/ none_positive scoreDistributorPart l)).
Proof.
  split.
  2:{ intros l Hl. split; apply best_or_none; (eapply Forall_impl; [exact Hl|]);
        intros q Hq; by apply score_not_NaN. }
  rewrite selectBestPart_stages. split.
  { intros best (Hin & Hmax & Hpos).
    destruct (top_candidate_Some _ _ _ Hin Hmax Hpos) as (p & -> & Hfirst & He).
    by exists p. }
  intros Hj. rewrite (top_candidate_None _ _ Hj). split.
  { intros best (Hin & Hmax & Hpos).
    destruct (top_candidate_Some _ _ _ Hin Hmax Hpos) as (p & -> & Hfirst & He).
    by exists p. }
  intros Hd. rewrite (top_candidate_None _ _ Hd). split.
  { intros best (Hin & Hmax & Hpos).
    destruct (top_candidate_Some _ _ _ Hin Hmax Hpos) as (p & -> & Hfirst & He).
    by exists p. }
  intros Hm. by rewrite (top_candidate_None _ _ Hm).
Qed.

End SelectBestPart.

(** The scores of the example parts. *)
Example score_weak_jlcpcb : Num.eqv (scoreJLCPCBPart Ex.weak_jlcpcb) 10%num.
Proof. vm_compute. reflexivity. Qed.

Example score_strong_digikey :
  Num.eqv (scoreDistributorPart Ex.strong_digikey) (Fin (116999 # 100)).
Proof. vm_compute. reflexivity. Qed.

Lemma positive_best_singleton f p :
  Num.le (f p) (f p) = true -> Num.gt (f p) 0%num = true ->
  positive_best f [p] p.
Proof.
  intros Hle Hpos. split; [left|]. split; [|exact Hpos].
  intros q ->%list_elem_of_singleton. exact Hle.
Qed.

Lemma none_positive_nil f : none_positive f [].
Proof. intros q Hq. by apply not_elem_of_nil in Hq. Qed.

Lemma none_positive_singleton f p :
  Num.gt (f p) 0%num = false -> none_positive f [p].
Proof. intros H q ->%list_elem_of_singleton. exact H. Qed.

Lemma positive_best_second f p q :
  Num.le (f p) (f q) = true -> Num.le (f q) (f q) = true -> Num.gt (f q) 0%num = true ->
  positive_best f [p; q] q.
Proof.
  intros Hp Hq Hpos. split; [right; left|]. split; [|exact Hpos].
  intros x [-> | ->%list_elem_of_singleton]%elem_of_cons; assumption.
Qed.

(** A witness of the cascade: a free-catalog candidate of score 10, the
    second of its list, is selected over a distributor candidate of score
    1169.99; with no free-catalog candidate of positive score the Digi-Key
    candidate is selected, then the Mouser one; with no candidate of positive
    score nothing is. *)
Lemma selectBestPart_cascade_witness :
  (exists p, first_best scoreJLCPCBPart [Ex.blank; Ex.weak_jlcpcb] p
     /\ Num.eqv (scoreJLCPCBPart p) (scoreJLCPCBPart Ex.weak_jlcpcb)
     /\ Route.selectBestPart Fmt.decimal [Ex.blank; Ex.weak_jlcpcb]
          [Ex.strong_digikey] [Ex.strong_mouser]
        = Route.mkSelection (Some p) (note_jlcpcb Fmt.decimal p))
  /\ (exists p, first_best scoreDistributorPart [Ex.blank; Ex.strong_digikey] p
     /\ Num.eqv (scoreDistributorPart p) (scoreDistributorPart Ex.strong_digikey)
     /\ Route.selectBestPart Fmt.decimal [Ex.blank] [Ex.blank; Ex.strong_digikey]
          [Ex.strong_mouser]
        = Route.mkSelection (Some p) (note_distributor Fmt.decimal "Digi-Key" p))
  /\ (exists p, first_best scoreDistributorPart [Ex.strong_mouser] p
     /\ Num.eqv (scoreDistributorPart p) (scoreDistributorPart Ex.strong_mouser)
     /\ Route.selectBestPart Fmt.decimal [Ex.blank] [] [Ex.strong_mouser]
        = Route.mkSelection (Some p) (note_distributor Fmt.decimal "Mouser" p))
  /\ Route.selectBestPart Fmt.decimal [Ex.blank] [Ex.blank] []
     = Route.mkSelection None "No matches found".
Proof.
  pose proof (none_positive_singleton scoreJLCPCBPart Ex.blank eq_refl) as Hj.
  pose proof (none_positive_singleton scoreDistributorPart Ex.blank eq_refl) as Hd.
  split; [|split; [|split]].
  - apply (proj1 (proj1 (selectBestPart_cascade Fmt.decimal
                    [Ex.blank; Ex.weak_jlcpcb] [Ex.strong_digikey] [Ex.strong_mouser]))).
    apply positive_best_second; reflexivity.
  - apply (proj1 (proj2 (proj1 (selectBestPart_cascade Fmt.decimal
                    [Ex.blank] [Ex.blank; Ex.strong_digikey] [Ex.strong_mouser])) Hj)).
    apply positive_best_second; reflexivity.
  - apply (proj1 (proj2 (proj2 (proj1 (selectBestPart_cascade Fmt.decimal
                    [Ex.blank] [] [Ex.strong_mouser])) Hj)
                    (none_positive_nil _))).
    apply positive_best_singleton; reflexivity.
  - apply (proj2 (proj2 (proj2 (proj1 (selectBestPart_cascade Fmt.decimal
                    [Ex.blank] [Ex.blank] [])) Hj) Hd)
                    (none_positive_nil _)).
Defined.

(** C1 as stated fails.  In the list of a candidate whose stock is [NaN]
    followed by one of score 1065, no candidate scores more than the second
    one, yet the ranking leaves the first on top: its score is not positive,
    the list is passed over and the Digi-Key candidate is selected. *)
Lemma selectBestPart_cascade_counterexample :
  (scoreJLCPCBPart Ex.big_stock >? 0)%num = true
  /\ (forall q, q ∈ [Ex.nan_stock; Ex.big_stock] ->
      (scoreJLCPCBPart Ex.big_stock <? scoreJLCPCBPart q)%num = false)
  /\ Route.selectBestPart Fmt.decimal [Ex.nan_stock; Ex.big_stock] [Ex.strong_digikey] []
     = Route.mkSelection (Some Ex.strong_digikey)
         (note_distributor Fmt.decimal "Digi-Key" Ex.strong_digikey).
Proof.
  split; [reflexivity|]. split.
  - intros q [-> | ->%list_elem_of_singleton]%elem_of_cons; reflexivity.
  - vm_refl.
Qed.

(** ** Strings *)

Section StringFacts.
Import Str.

Lemma trimEnd_idemp s : trimEnd (trimEnd s) = trimEnd s.
Proof.
  induction s as [|c r IH]; [reflexivity|].
  cbn [trimEnd]. destruct (trimEnd r) as [|c' r'] eqn:E.
  - destruct (is_ws c) eqn:Hc; [reflexivity|]. cbn [trimEnd]. by rewrite Hc.
  - cbn [trimEnd]. cbn [trimEnd] in IH. by rewrite IH.
Qed.

Lemma trimStart_no_leading_ws s : no_leading_ws (trimStart s) = true.
Proof.
  induction s as [|c r IH]; [reflexivity|].
  cbn [trimStart]. destruct (is_ws c) eqn:Hc; [exact IH|]. cbn. by rewrite Hc.
Qed.

Lemma trimStart_fixed s : no_leading_ws s = true -> trimStart s = s.
Proof.
  destruct s as [|c r]; [reflexivity|]. cbn. by intros ->%negb_true_iff.
Qed.

Lemma trimEnd_no_leading_ws s : no_leading_ws s = true -> no_leading_ws (trimEnd s) = true.
Proof.
  destruct s as [|c r]; [reflexivity|]. cbn [no_leading_ws trimEnd].
  intros Hc. destruct (trimEnd r); [|exact Hc].
  apply negb_true_iff in Hc. rewrite Hc. cbn. by rewrite Hc.
Qed.

Lemma trim_idemp s : trim (trim s) = trim s.
Proof.
  unfold trim.
  rewrite (trimStart_fixed (trimEnd (trimStart s))).
  - apply trimEnd_idemp.
  - apply trimEnd_no_leading_ws, trimStart_no_leading_ws.
Qed.

Lemma truthy_str_false s : truthy_str s = false -> s = "".
Proof. by destruct s. Qed.

Lemma truthy_str_true s : s <> "" -> truthy_str s = true.
Proof. by destruct s. Qed.

End StringFacts.

(** ** The row interpreter *)

Section RowFacts.
Import Str Route.

Variable toLocaleString : number -> string.
Variable searchAllSuppliers : Params.t -> result (gmap string (list PartSearchResult)).

Abbreviation processBOMRow := (Route.processBOMRow toLocaleString searchAllSuppliers).
Abbreviation sourceRow := (Route.sourceRow toLocaleString searchAllSuppliers).

Lemma startsWith_LED s :
  startsWith "LED" s = true ->
  startsWith "C" s = false /\ startsWith "R" s = false /\ startsWith "L" s = true.
Proof.
  destruct s as [|c r]; [discriminate|]. cbn [startsWith].
  destruct (Ascii.eqb_spec "L" c) as [<-|]; [|discriminate]. by intros _.
Qed.

(** C9, as the code has it.  A reference designator that begins with "LED"
    is classified as an inductor: the test for "L" comes before the test for
    "LED", which no reference can reach. *)
Theorem inferComponentType_LED_is_inductor (value reference : string) :
  startsWith "LED" (toUpperCase reference) = true ->
  inferComponentType value reference = "inductor".
Proof.
  intros (HC & HR & HL)%startsWith_LED. unfold inferComponentType.
  by rewrite HC, HR, HL.
Qed.

Lemma inferComponentType_LED_witness :
  inferComponentType "" "LED1" = "inductor" /\ inferComponentType "RED" "led7" = "inductor".
Proof.
  split; apply inferComponentType_LED_is_inductor; reflexivity.
Defined.

(** The branch "led" is never taken. *)
Lemma inferComponentType_never_led (value reference : string) :
  inferComponentType value reference <> "led".
Proof.
  unfold inferComponentType.
  repeat match goal with
         | |- context [if ?b then _ else _] => destruct b eqn:?; try discriminate
         end.
  destruct (toUpperCase reference) as [|c r]; [discriminate|].
  cbn [startsWith] in *. destruct (Ascii.eqb "L" c); discriminate.
Qed.

Lemma processBOMRow_skip_excluded row :
  excluded_from_bom row = true ->
  processBOMRow row =
  (Ok (mkSourcingResult row None no_results skipped "Excluded from BOM"), []).
Proof.
  unfold excluded_from_bom, Route.processBOMRow. cbv zeta. by intros ->.
Qed.

Lemma processBOMRow_skip_dnp row :
  excluded_from_bom row = false -> do_not_populate row = true ->
  processBOMRow row =
  (Ok (mkSourcingResult row None no_results skipped "DNP (Do Not Populate)"), []).
Proof.
  unfold excluded_from_bom, do_not_populate, Route.processBOMRow. cbv zeta.
  by intros -> ->.
Qed.

(** C5, amended.  A row with text in a cross-reference column that is
    neither excluded from the BOM nor marked do-not-populate is
    [already_sourced], whatever its other columns hold, and no search is
    made; whenever a cross-reference column holds text, no search is made. *)
Theorem processBOMRow_already_sourced (row : BOMRow) :
  has_cross_reference row = true ->
  (excluded_from_bom row = false -> do_not_populate row = false ->
   processBOMRow row =
   (Ok (mkSourcingResult row None no_results already_sourced
          "Already has LCSC/JLCPCB part number"), []))
  /\ (processBOMRow row).2 = [].
Proof.
  intros Hx.
  assert (Hmain : excluded_from_bom row = false -> do_not_populate row = false ->
          processBOMRow row =
          (Ok (mkSourcingResult row None no_results already_sourced
                 "Already has LCSC/JLCPCB part number"), [])).
  { unfold excluded_from_bom, do_not_populate, has_cross_reference in *.
    unfold Route.processBOMRow. cbv zeta. intros -> ->. by rewrite Hx. }
  split; [exact Hmain|].
  destruct (excluded_from_bom row) eqn:He.
  { by rewrite processBOMRow_skip_excluded. }
  destruct (do_not_populate row) eqn:Hd.
  { by rewrite processBOMRow_skip_dnp. }
  by rewrite Hmain.
Qed.

End RowFacts.

Section RowExamples.
Import Route.

(** C5 as stated fails: a row with the cross-reference id "C25744" and
    "Exclude from BOM" set to "yes" is [skipped], not [already_sourced]. *)
Lemma processBOMRow_excluded_despite_cross_reference :
  truthy_opt (Ex.excluded_row !! "LCSC Part #") = true
  /\ processBOMRow Fmt.decimal Ex.no_supplier Ex.excluded_row =
     (Ok (mkSourcingResult Ex.excluded_row None no_results skipped "Excluded from BOM"), [])
  /\ skipped <> already_sourced.
Proof. split; [vm_refl|]. split; [vm_refl | discriminate]. Qed.

Lemma processBOMRow_already_sourced_witness :
  (processBOMRow Fmt.decimal Ex.no_supplier Ex.sourced_row =
   (Ok (mkSourcingResult Ex.sourced_row None no_results already_sourced
          "Already has LCSC/JLCPCB part number"), []))
  /\ (processBOMRow Fmt.decimal Ex.no_supplier Ex.sourced_row).2 = [].
Proof.
  destruct (processBOMRow_already_sourced Fmt.decimal Ex.no_supplier Ex.sourced_row)
    as [H1 H2]; [vm_refl|].
  split; [apply H1; vm_refl | exact H2].
Defined.

End RowExamples.

(** ** Merging a selected part back into its row *)

Section MergeFacts.
Import Str Route.

Lemma fill_gap_lookup_ne col v row col' :
  col <> col' -> fill_gap col v row !! col' = row !! col'.
Proof.
  intros Hne. unfold fill_gap.
  destruct (truthy_str v && empty_col row col); [|reflexivity].
  by apply lookup_insert_ne.
Qed.

Lemma fill_gap_lookup col v row :
  fill_gap col v row !! col =
  if truthy_str v && empty_col row col then Some v else row !! col.
Proof.
  unfold fill_gap. destruct (truthy_str v && empty_col row col); [|reflexivity].
  apply lookup_insert_eq.
Qed.

Lemma empty_col_false row col v : row !! col = Some v -> v <> "" -> empty_col row col = false.
Proof.
  intros H Hv. unfold empty_col. rewrite H. cbn. by rewrite truthy_str_true.
Qed.

(** [mergeSourcedData] as a chain of steps. *)
Lemma mergeSourcedData_steps row result p :
  matchedPart result = Some p ->
  mergeSourcedData row result =
  fill_gap "CASE CODE (METRIC)" (default "" (package p))
    (fill_gap "Description" (description p)
      (fill_gap "Datasheet" (datasheet p)
        (fill_gap "Manufacturer_Name" (manufacturer p)
          (fill_gap "Manufacturer_Part_Number" (manufacturerPartNumber p)
            (if truthy_opt (lcscPart p)
             then <["JLCPCB Part #" := default "" (lcscPart p)]>
                    (<["LCSC Part #" := default "" (lcscPart p)]> row)
             else row))))).
Proof.
  intros Hp. unfold mergeSourcedData. rewrite Hp. cbv zeta.
  destruct (lcscPart p) as [lcsc|]; cbn [truthy_opt default].
  - destruct (package p) as [pkg|]; cbn [default]; reflexivity.
  - destruct (package p) as [pkg|]; cbn [default]; reflexivity.
Qed.

End MergeFacts.

Section ParseCSVFacts.
Import Str Route.

Lemma trimmed_empty : trimmed ∅.
Proof. intros k v H. by rewrite lookup_empty in H. Qed.

Lemma trimmed_insert row k v : trimmed row -> trim v = v -> trimmed (<[k := v]> row).
Proof.
  intros Hrow Hv k' v'. rewrite lookup_insert. case_decide.
  - by intros [= <-].
  - apply Hrow.
Qed.

Lemma or_str_trim_fixed (o : option string) : trim (or_str (trim <$> o) "") = or_str (trim <$> o) "".
Proof.
  destruct o as [s|]; [|reflexivity]. cbn.
  destruct (truthy_str (trim s)); [apply trim_idemp | reflexivity].
Qed.

Lemma set_column_trimmed values row entry :
  trimmed row -> trimmed (set_column values row entry).
Proof.
  intros Hrow. destruct entry as [index header]. unfold set_column.
  destruct (String.eqb (trim header) "__proto__"); [exact Hrow|].
  apply trimmed_insert; [exact Hrow | apply or_str_trim_fixed].
Qed.

Lemma make_row_trimmed headers values : trimmed (make_row headers values).
Proof.
  unfold make_row.
  generalize (imap (fun index header => (index, header)) headers).
  intros entries. generalize trimmed_empty. generalize (∅ : BOMRow).
  induction entries as [|e entries IH]; intros row Hrow; [exact Hrow|].
  cbn [foldl]. apply IH, set_column_trimmed, Hrow.
Qed.

(** Every row [parseCSV] yields has trimmed values. *)
Lemma parseCSV_trimmed csvText row : row ∈ parseCSV csvText -> trimmed row.
Proof.
  unfold parseCSV.
  destruct (List.filter _ _) as [|header_line [|first more]];
    [by intros ?%not_elem_of_nil | by intros ?%not_elem_of_nil |].
  intros (line & _ & Hrow)%list_elem_of_omap.
  destruct (parseCSVLine line); [discriminate|].
  injection Hrow as <-. apply make_row_trimmed.
Qed.

End ParseCSVFacts.

Section MergeBack.
Import Str Route.

Variable toLocaleString : number -> string.
Variable searchAllSuppliers : Params.t -> result (gmap string (list PartSearchResult)).

Abbreviation processBOMRow := (Route.processBOMRow toLocaleString searchAllSuppliers).
Abbreviation sourceRow := (Route.sourceRow toLocaleString searchAllSuppliers).

(** A row for which a part was selected has no text in a cross-reference
    column. *)
Lemma processBOMRow_matched_inv row res calls p :
  processBOMRow row = (Ok res, calls) ->
  matchedPart res = Some p ->
  has_cross_reference row = false /\ status res = matched.
Proof.
  unfold Route.processBOMRow, has_cross_reference. cbv zeta.
  destruct (_ || _ || _); [by intros [= <- _]|].
  destruct (_ || _ || _); [by intros [= <- _]|].
  destruct (_ || _); [by intros [= <- _]|].
  destruct (row !! "Reference"); [|discriminate].
  destruct (_ && _); [by intros [= <- _]|].
  destruct (searchAllSuppliers _); [|discriminate].
  intros [= <- _]. cbn [matchedPart status]. intros ->. done.
Qed.

Lemma sourceRow_matched_inv row res out calls p :
  sourceRow row = (Ok (res, out), calls) ->
  matchedPart res = Some p ->
  has_cross_reference row = false /\ out = mergeSourcedData row res.
Proof.
  unfold Route.sourceRow. destruct (Route.processBOMRow _ _ row) as [[r|e] c] eqn:E;
    [|discriminate].
  intros [= -> <- _] Hp.
  destruct (processBOMRow_matched_inv _ _ _ _ E Hp) as [Hx ->].
  by rewrite Hp.
Qed.

Lemma cross_reference_empty row :
  trimmed row -> has_cross_reference row = false ->
  empty_col row "LCSC Part #" = true /\ empty_col row "JLCPCB Part #" = true.
Proof.
  intros Htrim. unfold has_cross_reference, empty_col, opt_trim_truthy.
  intros [H1 H2]%orb_false_iff. split.
  - destruct (row !! "LCSC Part #") as [v|] eqn:E; [|reflexivity].
    apply Htrim in E. rewrite E in H1. cbn. by rewrite H1.
  - destruct (row !! "JLCPCB Part #") as [v|] eqn:E; [|reflexivity].
    apply Htrim in E. rewrite E in H2. cbn. by rewrite H2.
Qed.

End MergeBack.

Section MergeLookup.
Import Str Route.

Variables (row : BOMRow) (result : SourcingResult) (p : PartSearchResult).
Hypothesis Hp : matchedPart result = Some p.

Ltac strip_layers :=
  repeat first
    [ rewrite fill_gap_lookup_ne by done
    | rewrite lookup_insert_ne by done ].

Ltac reach col :=
  rewrite (mergeSourcedData_steps _ _ _ Hp);
  strip_layers; rewrite ?fill_gap_lookup; unfold empty_col;
  strip_layers;
  destruct (truthy_opt (lcscPart p)); strip_layers; reflexivity.

Lemma merge_lookup_mpn :
  mergeSourcedData row result !! "Manufacturer_Part_Number" =
  if truthy_str (manufacturerPartNumber p) && empty_col row "Manufacturer_Part_Number"
  then Some (manufacturerPartNumber p) else row !! "Manufacturer_Part_Number".
Proof. reach "Manufacturer_Part_Number". Qed.

Lemma merge_lookup_manufacturer :
  mergeSourcedData row result !! "Manufacturer_Name" =
  if truthy_str (manufacturer p) && empty_col row "Manufacturer_Name"
  then Some (manufacturer p) else row !! "Manufacturer_Name".
Proof. reach "Manufacturer_Name". Qed.

Lemma merge_lookup_datasheet :
  mergeSourcedData row result !! "Datasheet" =
  if truthy_str (datasheet p) && empty_col row "Datasheet"
  then Some (datasheet p) else row !! "Datasheet".
Proof. reach "Datasheet". Qed.

Lemma merge_lookup_description :
  mergeSourcedData row result !! "Description" =
  if truthy_str (description p) && empty_col row "Description"
  then Some (description p) else row !! "Description".
Proof. reach "Description". Qed.

Lemma merge_lookup_case_code :
  mergeSourcedData row result !! "CASE CODE (METRIC)" =
  if truthy_str (default "" (package p)) && empty_col row "CASE CODE (METRIC)"
  then Some (default "" (package p)) else row !! "CASE CODE (METRIC)".
Proof. reach "CASE CODE (METRIC)". Qed.

Lemma merge_lookup_cross_reference col :
  col ∈ cross_reference_columns ->
  mergeSourcedData row result !! col =
  if truthy_opt (lcscPart p) then lcscPart p else row !! col.
Proof.
  intros Hcol. rewrite (mergeSourcedData_steps _ _ _ Hp).
  assert (col = "LCSC Part #" \/ col = "JLCPCB Part #") as [-> | ->].
  { unfold cross_reference_columns in Hcol.
    rewrite !elem_of_cons, elem_of_nil in Hcol. tauto. }
  all: strip_layers; destruct (lcscPart p) as [lcsc|]; cbn [truthy_opt default];
    [destruct (truthy_str lcsc) eqn:Hl|]; strip_layers; try reflexivity;
    by rewrite lookup_insert_eq.
Qed.

Lemma merge_lookup_other col :
  col ∉ cross_reference_columns ++ (gap_columns p).*1 ->
  mergeSourcedData row result !! col = row !! col.
Proof.
  intros Hcol. rewrite (mergeSourcedData_steps _ _ _ Hp).
  cbn in Hcol. rewrite !not_elem_of_cons in Hcol.
  destruct Hcol as (H1 & H2 & H3 & H4 & H5 & H6 & H7 & _).
  rewrite !fill_gap_lookup_ne by done.
  destruct (truthy_opt (lcscPart p)); [|reflexivity].
  by rewrite !lookup_insert_ne by done.
Qed.

(** What each of the five gap columns holds after the merge. *)
Lemma merge_lookup_gap col v :
  (col, v) ∈ gap_columns p ->
  mergeSourcedData row result !! col =
  if truthy_str v && empty_col row col then Some v else row !! col.
Proof.
  unfold gap_columns. rewrite !elem_of_cons, elem_of_nil.
  intros [[= -> ->] | [[= -> ->] | [[= -> ->] | [[= -> ->] | [[= -> ->] | []]]]]].
  - apply merge_lookup_mpn.
  - apply merge_lookup_manufacturer.
  - apply merge_lookup_datasheet.
  - apply merge_lookup_description.
  - apply merge_lookup_case_code.
Qed.

End MergeLookup.

Section MergeBackTheorem.
Import Str Route.

Variable toLocaleString : number -> string.
Variable searchAllSuppliers : Params.t -> result (gmap string (list PartSearchResult)).

Abbreviation sourceRow := (Route.sourceRow toLocaleString searchAllSuppliers).

(** C6. Merge-back.  For a row of the uploaded file for which a part was
    selected, the output row has: the two cross-reference columns set to the
    part's cross-reference id when it has one (and unchanged otherwise); each
    of the columns manufacturer part number, manufacturer name, datasheet,
    description and package code filled from the part when the column was
    empty in the original row and the part has the datum, and changed in no
    other case; every column that was non-empty in the original row, and
    every column outside these seven, with its original value. *)
Theorem merge_back_fills_gaps_only
    (csvText : string) (row out : BOMRow) (res : SourcingResult)
    (calls : list Params.t) (p : PartSearchResult) :
  row ∈ parseCSV csvText ->
  sourceRow row = (Ok (res, out), calls) ->
  matchedPart res = Some p ->
  Forall (fun col => out !! col = if truthy_opt (lcscPart p) then lcscPart p else row !! col)
         cross_reference_columns
  /\ Forall (fun '(col, v) =>
               (empty_col row col = true -> truthy_str v = true -> out !! col = Some v)
               /\ (out !! col <> row !! col -> empty_col row col = true /\ out !! col = Some v))
            (gap_columns p)
  /\ (forall col v, row !! col = Some v -> v <> "" -> out !! col = Some v)
  /\ (forall col, col ∉ cross_reference_columns ++ (gap_columns p).*1 ->
        out !! col = row !! col).
Proof.
  intros Hrow Hsrc Hp.
  destruct (sourceRow_matched_inv _ _ _ _ _ _ _ Hsrc Hp) as [Hx ->].
  pose proof (parseCSV_trimmed _ _ Hrow) as Htrim.
  destruct (cross_reference_empty _ Htrim Hx) as [Hl Hj].
  assert (Hgap : forall col v, (col, v) ∈ gap_columns p ->
            (empty_col row col = true -> truthy_str v = true ->
             mergeSourcedData row res !! col = Some v)
            /\ (mergeSourcedData row res !! col <> row !! col ->
                empty_col row col = true /\ mergeSourcedData row res !! col = Some v)).
  { intros col v Hin. rewrite (merge_lookup_gap row res p Hp col v Hin). split.
    - by intros -> ->.
    - destruct (truthy_str v); [|done]. destruct (empty_col row col); done. }
  split; [|split; [|split]].
  - apply Forall_forall. intros col Hcol.
    by apply merge_lookup_cross_reference.
  - apply Forall_forall. intros [col v] Hin. by apply Hgap.
  - intros col v Hcol Hv.
    pose proof (empty_col_false _ _ _ Hcol Hv) as Hne.
    destruct (decide (col ∈ cross_reference_columns)) as [Hc|Hc].
    { unfold cross_reference_columns in Hc.
      rewrite !elem_of_cons, elem_of_nil in Hc.
      destruct Hc as [-> | [-> | []]]; congruence. }
    destruct (decide (col ∈ (gap_columns p).*1)) as [Hg|Hg].
    { apply list_elem_of_fmap in Hg as ([col' v'] & -> & Hin).
      cbn [fst] in *. rewrite (merge_lookup_gap row res p Hp _ _ Hin).
      rewrite Hne, andb_false_r. exact Hcol. }
    rewrite merge_lookup_other with (p := p); [exact Hcol | exact Hp |].
    rewrite elem_of_app. tauto.
  - intros col Hcol. by apply merge_lookup_other with (p := p).
Qed.

End MergeBackTheorem.

Section MergeBackExample.
Import Route.

Example parseCSV_example : parseCSV Ex.csv = [Ex.parsed_row].
Proof. vm_refl. Qed.

Example sourceRow_example :
  sourceRow Fmt.decimal Ex.catalog_supplier Ex.parsed_row
  = (Ok (Ex.matched_result, Ex.merged_row), [Ex.matched_query]).
Proof. vm_refl. Qed.

(** A witness of the merge-back: the row of [Ex.csv] and the part the free
    catalog returns for it. *)
Lemma merge_back_witness :
  Forall (fun col => Ex.merged_row !! col =
                     if truthy_opt (lcscPart Ex.catalog_part)
                     then lcscPart Ex.catalog_part else Ex.parsed_row !! col)
         cross_reference_columns
  /\ Forall (fun '(col, v) =>
               (empty_col Ex.parsed_row col = true -> truthy_str v = true ->
                Ex.merged_row !! col = Some v)
               /\ (Ex.merged_row !! col <> Ex.parsed_row !! col ->
                   empty_col Ex.parsed_row col = true /\ Ex.merged_row !! col = Some v))
            (gap_columns Ex.catalog_part)
  /\ (forall col v, Ex.parsed_row !! col = Some v -> v <> "" ->
        Ex.merged_row !! col = Some v)
  /\ (forall col, col ∉ cross_reference_columns ++ (gap_columns Ex.catalog_part).*1 ->
        Ex.merged_row !! col = Ex.parsed_row !! col).
Proof.
  apply (merge_back_fills_gaps_only Fmt.decimal Ex.catalog_supplier Ex.csv
           Ex.parsed_row Ex.merged_row Ex.matched_result [Ex.matched_query]
           Ex.catalog_part).
  - replace (parseCSV Ex.csv) with [Ex.parsed_row] by (symmetry; vm_refl). left.
  - vm_refl.
  - reflexivity.
Defined.

End MergeBackExample.

(** ** Footprint normalization *)

Section Footprint.
Import Str PartsSearch.

Lemma four_digits_code s d rest : four_digits s = Some (d, rest) -> is_code4 d = true.
Proof.
  destruct s as [|a [|b [|c [|e r]]]]; try discriminate. cbn [four_digits].
  destruct (is_digit a && is_digit b && is_digit c && is_digit e) eqn:H; [|discriminate].
  intros [= <- <-]. unfold is_code4. cbn [four_digits]. by rewrite H.
Qed.

Lemma match_word4_code prev s d : match_word4 prev s = Some d -> is_code4 d = true.
Proof.
  revert prev. induction s as [|c r IH]; intros prev; [discriminate|].
  cbn [match_word4].
  destruct (if prev then None else four_digits (String c r)) as [[d' rest]|] eqn:E.
  - destruct (head_is_word rest); [apply IH|].
    intros [= <-]. destruct prev; [discriminate|]. by apply four_digits_code in E.
  - apply IH.
Qed.

Lemma match_word4_of_code d : is_code4 d = true -> match_word4 false d = Some d.
Proof.
  unfold is_code4.
  destruct d as [|a [|b [|c [|e r]]]]; try discriminate.
  cbn [match_word4 four_digits].
  destruct (is_digit a && is_digit b && is_digit c && is_digit e); [|discriminate].
  by destruct r.
Qed.

Lemma footprintMap_values kv :
  kv ∈ footprintMap_entries -> is_code4 (snd kv) = true.
Proof.
  unfold footprintMap_entries. rewrite !elem_of_cons, elem_of_nil.
  intros [-> | [-> | [-> | [-> | [-> | [-> | [-> | []]]]]]]]; reflexivity.
Qed.

Lemma normalizeFootprint_of_code d : is_code4 d = true -> normalizeFootprint d = d.
Proof. intros H. unfold normalizeFootprint. by rewrite (match_word4_of_code d H). Qed.

(** The result of a normalization is a four-digit code, or the input as it
    was, which then normalizes to itself again. *)
Lemma normalizeFootprint_cases s :
  is_code4 (normalizeFootprint s) = true
  \/ (normalizeFootprint s = s /\ match_word4 false s = None
      /\ List.find (fun kv => includes (fst kv) (toLowerCase s)) footprintMap_entries = None).
Proof.
  unfold normalizeFootprint.
  destruct (match_word4 false s) as [d|] eqn:E.
  { left. by apply match_word4_code in E. }
  destruct (List.find _ footprintMap_entries) as [kv|] eqn:F.
  { left. apply find_some in F as [Hin _]. by apply footprintMap_values, list_elem_of_In. }
  by right.
Qed.

(** C8. Footprint normalization is idempotent; a four-digit code maps to
    itself, and "0402 (1005 Metric)" maps to "0402". *)
Theorem normalizeFootprint_idempotent :
  (forall s, normalizeFootprint (normalizeFootprint s) = normalizeFootprint s)
  /\ (forall d, is_code4 d = true -> normalizeFootprint d = d)
  /\ normalizeFootprint "0402 (1005 Metric)" = "0402".
Proof.
  split; [|split].
  - intros s. destruct (normalizeFootprint_cases s) as [H | (H & _)].
    + by apply normalizeFootprint_of_code.
    + by rewrite !H.
  - apply normalizeFootprint_of_code.
  - reflexivity.
Qed.

Lemma normalizeFootprint_idempotent_witness :
  normalizeFootprint "0603" = "0603"
  /\ normalizeFootprint (normalizeFootprint "Capacitor_SMD:C_0603_1608Metric")
     = normalizeFootprint "Capacitor_SMD:C_0603_1608Metric".
Proof.
  destruct normalizeFootprint_idempotent as (Hidem & Hcode & _).
  split; [apply Hcode; reflexivity | apply Hidem].
Defined.

(** The substring fallback and the pass-through. *)
Example normalizeFootprint_substring : normalizeFootprint "R0805x" = "0805".
Proof. reflexivity. Qed.

Example normalizeFootprint_passthrough : normalizeFootprint "SOT-23" = "SOT-23".
Proof. reflexivity. Qed.

End Footprint.

(** ** The adapters: failures are absorbed *)

Section AdapterFailures.
Import Str JS Val Net PartsSearch Spec.

Variable Number_toString : number -> string.
Variable network : list Event -> Request -> result Response.
Variable clock : list Event -> number.
Variables clientId clientSecret apiKey : string.

Abbreviation DigiKey_search :=
  (PartsSearch.DigiKey_search Number_toString network clock clientId clientSecret).
Abbreviation DigiKey_getAccessToken :=
  (PartsSearch.DigiKey_getAccessToken Number_toString network clock clientId clientSecret).
Abbreviation JLCPCB_search := (PartsSearch.JLCPCB_search Number_toString network).
Abbreviation Mouser_search := (PartsSearch.Mouser_search Number_toString network apiKey).

Lemma try_catchM_nil {A} (body : M (list A)) st :
  exists l st', try_catchM body (fun _ => mret []) st = (Ok l, st')
    /\ (body st = (Ok l, st') \/ (l = [] /\ exists e, body st = (Throw e, st'))).
Proof.
  unfold try_catchM. destruct (body st) as [[l|e] st'] eqn:E.
  - exists l, st'. split; [reflexivity | by left].
  - exists [], st'. split; [reflexivity | right; eauto].
Qed.

(** A request whose exchange succeeded is not a failed last exchange. *)
Lemma not_failed_after_fetch st0 st r response data (l : list Raw.PartObject) :
  network (history st) r = Ok response ->
  ok response = true ->
  json response = Ok data ->
  (length (history st0) <= length (history st))%nat ->
  last_exchange_failed network st0 (record (Fetched r) st) -> l = [].
Proof.
  intros Hnet Hok Hjson Hlen (h & r' & Hh & _ & Hfail). exfalso.
  cbn [record history] in Hh. apply app_inj_tail in Hh as [<- [= <-]].
  rewrite Hnet in Hfail. cbn in Hfail. destruct Hfail as [Hf | [e Hf]]; congruence.
Qed.

End AdapterFailures.

Section MonadLaws.
Import Val Net.

Variable network : list Event -> Request -> result Response.
Variable clock : list Event -> number.

Lemma M_bind_eq {A B} (m : M A) (k : A -> M B) st :
  (m ≫= k) st =
  match m st with
  | (Ok a, st') => k a st'
  | (Throw e, st') => (Throw e, st')
  end.
Proof. reflexivity. Qed.

Lemma bind_fetch {B} r (k : Response -> M B) st :
  (fetch network r ≫= k) st =
  match network (history st) r with
  | Ok response => k response (record (Fetched r) st)
  | Throw e => (Throw e, record (Fetched r) st)
  end.
Proof. rewrite M_bind_eq. unfold fetch. by destruct (network _ _). Qed.

Lemma bind_lift {A B} (r : result A) (k : A -> M B) st :
  (lift r ≫= k) st =
  match r with
  | Ok a => k a st
  | Throw e => (Throw e, st)
  end.
Proof. rewrite M_bind_eq. unfold lift. by destruct r. Qed.

Lemma bind_mret {A B} (a : A) (k : A -> M B) st : (mret a ≫= k) st = k a st.
Proof. reflexivity. Qed.

Lemma mret_eq {A} (a : A) (st : ClientState) : (mret a : M A) st = (Ok a, st).
Proof. reflexivity. Qed.

Lemma lift_eq {A} (r : result A) (st : ClientState) : lift r st = (r, st).
Proof. reflexivity. Qed.

Lemma try_catchM_eq {A} (body : M A) handler st :
  try_catchM body handler st =
  match body st with
  | (Ok a, st') => (Ok a, st')
  | (Throw e, st') => handler e st'
  end.
Proof. reflexivity. Qed.


Lemma rbind_Ok {A B} (r : result A) (k : A -> result B) b :
  r ≫= k = Ok b -> exists a, r = Ok a /\ k a = Ok b.
Proof. destruct r as [a|e]; [|discriminate]. intros H. by exists a. Qed.

End MonadLaws.

Section AdapterSearch.
Import Str JS Val Net PartsSearch Spec.

Variable Number_toString : number -> string.
Variable network : list Event -> Request -> result Response.
Variable clock : list Event -> number.
Variables clientId clientSecret apiKey : string.

Abbreviation JLCPCB_search := (PartsSearch.JLCPCB_search Number_toString network).
Abbreviation Mouser_search := (PartsSearch.Mouser_search Number_toString network apiKey).

Lemma has_identifier_filter (parsed : list Raw.PartObject) :
  Forall has_identifier
    (List.filter (fun r => truthy (or_val (Raw.partNumber r) (Raw.lcscPart r))) parsed).
Proof.
  apply Forall_forall. intros r [_ Hr]%list_elem_of_In%filter_In.
  unfold has_identifier, or_val in *.
  destruct (truthy (Raw.partNumber r)); [by left | by right].
Qed.

Lemma Forall_sort {A} (P : A -> Prop) cmp (l : list A) :
  Forall P l -> Forall P (JS.sort cmp l).
Proof. by rewrite sort_Permutation. Qed.

Lemma insert_sortedM_Permutation {A} (cmp : A -> A -> result number) x l l' :
  insert_sortedM cmp x l = Ok l' -> l' ≡ₚ x :: l.
Proof.
  revert l'. induction l as [|y l IH]; intros l'; cbn [insert_sortedM].
  - by intros [= <-].
  - intros (c & _ & H)%rbind_Ok.
    destruct (Num.gt c 0%num); [|by injection H as <-].
    apply rbind_Ok in H as (r & Hr & [= <-]).
    rewrite (IH r Hr). apply Permutation_swap.
Qed.

Lemma sortM_Permutation {A} (cmp : A -> A -> result number) l l' :
  sortM cmp l = Ok l' -> l' ≡ₚ l.
Proof.
  revert l'. induction l as [|x l IH]; intros l'; cbn [sortM].
  - by intros [= <-].
  - intros (r & Hr & H%insert_sortedM_Permutation)%rbind_Ok.
    by rewrite H, (IH r Hr).
Qed.

Lemma Forall_sortM {A} (P : A -> Prop) cmp (l l' : list A) :
  sortM cmp l = Ok l' -> Forall P l -> Forall P l'.
Proof. intros H%sortM_Permutation. by rewrite H. Qed.

Lemma Forall_slice0 {A} (P : A -> Prop) (l : list A) e :
  Forall P l -> Forall P (slice0 l e).
Proof. apply Forall_take. Qed.

Lemma JLCPCB_search_absorbs params st :
  exists l st', JLCPCB_search params st = (Ok l, st')
    /\ (last_exchange_failed network st st' -> l = [])
    /\ Forall has_identifier l.
Proof.
  unfold PartsSearch.JLCPCB_search. cbv zeta. rewrite try_catchM_eq.
  match goal with |- context [truthy_str ?t] => generalize t; intros searchTerm end.
  destruct (truthy_str searchTerm); cbn [negb];
    [|rewrite mret_eq; by exists [], st].
  rewrite bind_fetch.
  destruct (network (history st) _) as [response|e] eqn:Hnet;
    [|rewrite mret_eq; by eexists [], _].
  destruct (ok response) eqn:Hok; cbn [negb];
    [|rewrite bind_lift; destruct (text response); rewrite mret_eq; by eexists [], _].
  rewrite bind_lift.
  destruct (json response) as [data|e] eqn:Hjson; [|rewrite mret_eq; by eexists [], _].
  rewrite bind_lift.
  destruct (get_or data _ _) as [components|e]; [|rewrite mret_eq; by eexists [], _].
  rewrite bind_lift.
  destruct (call_map _ components) as [parsed|e]; [|rewrite mret_eq; by eexists [], _].
  rewrite bind_lift.
  destruct (sortM _ _) as [sorted|e] eqn:Hsort; [|rewrite mret_eq; by eexists [], _].
  rewrite mret_eq. eexists _, _. split; [reflexivity|]. split.
  - by apply (not_failed_after_fetch network st st _ response data).
  - apply Forall_slice0. eapply Forall_sortM; [exact Hsort|]. apply has_identifier_filter.
Qed.


End AdapterSearch.

Section DigiKeySearch.
Import Str JS Val Net PartsSearch Spec.

Variable Number_toString : number -> string.
Variable network : list Event -> Request -> result Response.
Variable clock : list Event -> number.
Variables clientId clientSecret apiKey : string.

Abbreviation DigiKey_search :=
  (PartsSearch.DigiKey_search Number_toString network clock clientId clientSecret).
Abbreviation DigiKey_getAccessToken :=
  (PartsSearch.DigiKey_getAccessToken Number_toString network clock clientId clientSecret).

Lemma bind_Date_now {B} (k : number -> M B) st :
  (Date_now clock ≫= k) st = k (clock (history st)) (record ClockRead st).
Proof. reflexivity. Qed.

Lemma bind_get_accessToken {B} (k : jsval -> M B) st :
  (get_accessToken ≫= k) st = k (accessToken st) st.
Proof. reflexivity. Qed.

Lemma bind_get_tokenExpiry {B} (k : number -> M B) st :
  (get_tokenExpiry ≫= k) st = k (tokenExpiry st) st.
Proof. reflexivity. Qed.

Lemma bind_set_accessToken {B} v (k : unit -> M B) st :
  (set_accessToken v ≫= k) st = k tt (mkState (history st) v (tokenExpiry st)).
Proof. reflexivity. Qed.

Lemma bind_set_tokenExpiry {B} n (k : unit -> M B) st :
  (set_tokenExpiry n ≫= k) st = k tt (mkState (history st) (accessToken st) n).
Proof. reflexivity. Qed.

Lemma bind_throw {A B} e (k : A -> M B) st : (throw e ≫= k) st = (Throw e, st).
Proof. reflexivity. Qed.

Lemma bind_assoc_M {A B C} (m : M A) (f : A -> M B) (g : B -> M C) st :
  ((m ≫= f) ≫= g) st = (m ≫= (fun a => f a ≫= g)) st.
Proof. rewrite !M_bind_eq. destruct (m st) as [[a|e] st']; reflexivity. Qed.



End DigiKeySearch.

Section RevisedSearch.
Import Str JS Val Net Spec.

Variable Number_toString : number -> string.
Variable toFixed1 : number -> string.
Variables ohm_sign plus_minus_sign : string.
Variable network : list Event -> Request -> result Response.

Abbreviation searchCategory :=
  (PartsSearchRev.searchCategory Number_toString toFixed1 ohm_sign plus_minus_sign network).
Abbreviation search :=
  (PartsSearchRev.search Number_toString toFixed1 ohm_sign plus_minus_sign network).

Lemma searchCategory_identified category searchTerm params st l st' :
  searchCategory category searchTerm params st = (Ok l, st') ->
  Forall has_identifier l.
Proof.
  unfold PartsSearchRev.searchCategory. rewrite bind_fetch.
  destruct (network (history st) _) as [response|e]; [|discriminate].
  destruct (ok response); cbn [negb];
    [|rewrite bind_lift; destruct (text response);
      [rewrite mret_eq; by intros [= <- _] | discriminate]].
  rewrite bind_lift. destruct (json response) as [data|e]; [|discriminate].
  rewrite bind_lift.
  destruct (get_or data _ _) as [components|e]; [|discriminate].
  destruct components as [| | | | |items|];
    try (rewrite mret_eq; by intros [= <- _]).
  rewrite bind_lift. destruct (mapM _ items) as [parsed|e]; [|discriminate].
  rewrite lift_eq. intros [= Hsort _].
  eapply Forall_sortM; [exact Hsort|]. apply has_identifier_filter.
Qed.

Lemma search_identified params st :
  exists l st', search params st = (Ok l, st') /\ Forall has_identifier l.
Proof.
  unfold PartsSearchRev.search. cbv zeta. rewrite try_catchM_eq.
  match goal with |- context [truthy_str ?t] => generalize t; intros searchTerm end.
  destruct (truthy_str searchTerm); cbn [negb];
    [|rewrite mret_eq; by exists [], st].
  rewrite M_bind_eq.
  destruct (PartsSearchRev.searchCategory _ _ _ _ _ _ _ _ st) as [[results|e] st1] eqn:E1;
    [|rewrite mret_eq; by eexists [], _].
  apply searchCategory_identified in E1.
  rewrite M_bind_eq.
  match goal with
  | |- context [(if ?c then ?a else ?b) st1] =>
      assert (Hsecond : forall r st2, (if c then a else b) st1 = (Ok r, st2) ->
                Forall has_identifier r)
  end.
  { intros r st2. destruct (_ && _).
    - destruct (PartsSearchRev.looksLikeResistor searchTerm).
      { apply searchCategory_identified. }
      destruct (PartsSearchRev.looksLikeCapacitor searchTerm).
      { apply searchCategory_identified. }
      rewrite mret_eq. by intros [= <- _].
    - rewrite mret_eq. by intros [= <- _]. }
  match goal with
  | |- context [(if ?c then ?a else ?b) st1] =>
      destruct ((if c then a else b) st1) as [[results2|e] st2] eqn:E2
  end; [|rewrite mret_eq; by eexists [], _].
  rewrite mret_eq. eexists _, _. split; [reflexivity|].
  apply Forall_slice0, (Hsecond _ _ eq_refl).
Qed.

End RevisedSearch.

(** ** The claims about the searches *)

Section SearchTheorems.
Import Str JS Val Net Spec.

Variable Number_toString : number -> string.
Variable toFixed1 : number -> string.
Variables ohm_sign plus_minus_sign : string.
Variable network : list Event -> Request -> result Response.
Variable clock : list Event -> number.
Variables clientId clientSecret apiKey : string.

Abbreviation DigiKey_search :=
  (PartsSearch.DigiKey_search Number_toString network clock clientId clientSecret).
Abbreviation JLCPCB_search := (PartsSearch.JLCPCB_search Number_toString network).
Abbreviation Mouser_search := (PartsSearch.Mouser_search Number_toString network apiKey).
Abbreviation Rev_search :=
  (PartsSearchRev.search Number_toString toFixed1 ohm_sign plus_minus_sign network).


(** C10. Every part in the list the free-catalog search settles to carries
    a supplier part number or a cross-reference id, in both revisions of the
    client. *)
Theorem JLCPCB_results_identified (params : Params.t) (st : ClientState) :
  (exists l st', JLCPCB_search params st = (Ok l, st') /\ Forall has_identifier l)
  /\ (exists l st', Rev_search params st = (Ok l, st') /\ Forall has_identifier l).
Proof.
  split.
  - destruct (JLCPCB_search_absorbs Number_toString network params st)
      as (l & st' & H1 & _ & H3). by exists l, st'.
  - apply search_identified.
Qed.

End SearchTheorems.

Section SearchExamples.
Import Val Net Spec.


(** The components without an identifier are dropped, the others ordered
    by stock. *)
Example JLCPCB_search_example :
  exists st',
    PartsSearch.JLCPCB_search Fmt.decimal Ex.catalog_network Ex.query initial
    = (Ok [Raw.mk "JLCPCB" (VStr "0402WGF1003TCE") (VStr "") (VStr "0402WGF1003TCE")
             (VStr "") "100K" (VStr "0402") (VNum 20000) (VNum 0) "USD"
             (VStr "https://jlcpcb.com/") (VStr "") (VStr "") (VStr "") (VStr "") None;
           Raw.mk "JLCPCB" (VStr "RC0402FR-07100KL") (VStr "") (VStr "RC0402FR-07100KL")
             (VStr "") "100K" (VStr "0402") (VNum 15900) (VNum (Fin (1 # 1000)%Q)) "USD"
             (VStr "https://jlcpcb.com/partdetail/C5137468") (VStr "") (VStr "C5137468")
             (VStr "") (VStr "0402") None], st').
Proof. eexists. vm_compute. reflexivity. Qed.

End SearchExamples.

(** ** Parsing numbers *)

Section ParseFacts.
Import Str JS Spec.
Local Open Scope num_scope.

Ltac by_bits c := destruct c as [[|] [|] [|] [|] [|] [|] [|] [|]]; try discriminate; try reflexivity.

Lemma is_digit_not_ws c : is_digit c = true -> is_ws c = false.
Proof. by_bits c. Qed.

Lemma is_digit_not_sign c :
  is_digit c = true -> (code c =? 45)%N = false /\ (code c =? 43)%N = false.
Proof. by_bits c; intros _; split; reflexivity. Qed.

Lemma is_digit_not_X c : is_digit c = true -> (upper_char c =? "X")%char = false.
Proof. by_bits c. Qed.

Lemma is_digit_digit_of c : is_digit c = true -> exists d, digit_of 10 c = Some d.
Proof. by_bits c; intros _; eexists; reflexivity. Qed.

Lemma minus_char c : (code c =? 45)%N = true -> c = "-"%char.
Proof. by_bits c. Qed.

Lemma lt_of_Z_0 z : (Num.of_Z z <? 0) = true -> (z < 0)%Z.
Proof.
  unfold Num.of_Z. num_crunch; [|discriminate]. intros _.
  unfold Qlt, inject_Z in *. cbn in *. lia.
Qed.

Lemma read_sign_cases s :
  (read_sign s).1 = 1%Z \/ ((read_sign s).1 = (-1)%Z /\ startsWith "-" s = true).
Proof.
  destruct s as [|c r]; [by left|]. unfold read_sign.
  destruct (code c =? 45)%N eqn:H; [|destruct (code c =? 43)%N; by left].
  right. apply minus_char in H as ->. done.
Qed.

(** The overflow of a text read as a number. *)
Lemma overflow_bound_positive : (0 < inject_Z overflow_bound)%Q.
Proof. vm_compute. reflexivity. Qed.

Lemma overflow_bound_negative : (inject_Z (- overflow_bound) < 0)%Q.
Proof. vm_compute. reflexivity. Qed.

Lemma to_double_cases q :
  to_double q = PosInf \/ to_double q = NegInf \/ to_double q = Fin q.
Proof.
  unfold to_double. destruct (Qle_bool _ q); [by left|].
  destruct (Qle_bool q _); [by right; left | by right; right].
Qed.

Lemma to_double_not_NaN q : to_double q <> NaN.
Proof. destruct (to_double_cases q) as [-> | [-> | ->]]; discriminate. Qed.

Lemma to_double_nonneg q : (0 <= q)%Q -> (to_double q <? 0) = false.
Proof.
  intros Hq. unfold to_double. destruct (Qle_bool _ q); [reflexivity|].
  destruct (Qle_bool q _) eqn:E.
  - apply Qle_bool_iff in E. exfalso.
    apply (Qlt_irrefl 0). eapply Qle_lt_trans; [exact Hq|].
    eapply Qle_lt_trans; [exact E | apply overflow_bound_negative].
  - num_crunch; [|reflexivity]. exfalso. lra.
Qed.

Lemma to_double_positive q :
  (0 <? to_double q) = true -> to_double q = PosInf \/ (to_double q = Fin q /\ (0 < q)%Q).
Proof.
  destruct (to_double_cases q) as [-> | [-> | ->]]; [by left | discriminate |].
  intros H. right. split; [reflexivity|]. revert H. num_crunch; [done | discriminate].
Qed.

(** [parseInt] gives [NaN], an infinity or an integer. *)
Lemma parseInt_integer s :
  parseInt s = NaN \/ parseInt s = PosInf \/ parseInt s = NegInf
  \/ exists z, parseInt s = Num.of_Z z.
Proof.
  unfold parseInt. destruct (read_sign _) as [sign t].
  destruct (drop_hex_prefix t) as [r|]; destruct (read_digits _ _ _ _) as [[n [|len]] rest];
    try (by left);
    match goal with |- context [to_double ?q] =>
      destruct (to_double_cases q) as [-> | [-> | ->]] end;
    eauto 6.
Qed.

Lemma parseInt_coerced_integer s :
  let n := if Num.isNaN (parseInt s) then 0 else parseInt s in
  n = PosInf \/ n = NegInf \/ exists z, n = Num.of_Z z.
Proof.
  cbv zeta. destruct (parseInt_integer s) as [-> | [-> | [-> | [z ->]]]]; cbn;
    [right; right; by exists 0%Z | by left | by right; left | right; right; by exists z].
Qed.

(** A negative result needs a leading minus sign. *)
Lemma parseInt_negative s : (parseInt s <? 0) = true -> leading_minus s = true.
Proof.
  unfold parseInt, leading_minus.
  destruct (read_sign_cases (trimStart s)) as [H | [H Hm]]; [|by intros _].
  destruct (read_sign _) as [sign t]. cbn [fst] in H. subst sign.
  assert (Hn : forall n : N, (to_double (inject_Z (1 * Z.of_N n)) <? 0) = false).
  { intros n. apply to_double_nonneg. unfold Qle, inject_Z. cbn. lia. }
  destruct (drop_hex_prefix t) as [r|]; destruct (read_digits _ _ _ _) as [[n [|len]] rest];
    try discriminate; by rewrite Hn.
Qed.

Lemma read_unsigned_decimal_nonneg s q rest :
  read_unsigned_decimal s = Some (q, rest) -> (0 <= q)%Q.
Proof.
  unfold read_unsigned_decimal.
  destruct (read_digits 10 0 0 s) as [[ip ilen] r0].
  assert (Hval : forall (m : N) (e : Z), (0 <= inject_Z (Z.of_N m) * inject_Z 10 ^ e)%Q).
  { intros m e. apply Qmult_le_0_compat.
    - unfold Qle, inject_Z. cbn. lia.
    - apply Qpower_0_le. unfold Qle, inject_Z. cbn. lia. }
  destruct r0 as [|c r].
  - destruct ilen; [discriminate|]. destruct (read_exponent _) as [e r2].
    intros [= <- _]. apply Hval.
  - destruct (code c =? 46)%N.
    + destruct (read_digits 10 ip 0 r) as [[m flen] r1].
      destruct ilen, flen; try discriminate;
        destruct (read_exponent _) as [e r2]; intros [= <- _]; apply Hval.
    + destruct ilen; [discriminate|]. destruct (read_exponent _) as [e r2].
      intros [= <- _]. apply Hval.
Qed.

Lemma parseFloat_negative s : (parseFloat s <? 0) = true -> leading_minus s = true.
Proof.
  unfold parseFloat, leading_minus, read_decimal.
  destruct (read_sign_cases (trimStart s)) as [H | [H Hm]]; [|by intros _].
  destruct (read_sign _) as [sign t]. cbn [fst] in H. subst sign.
  destruct (startsWith "Infinity" t); [discriminate|].
  destruct (read_unsigned_decimal t) as [[q rest]|] eqn:E; [|discriminate].
  apply read_unsigned_decimal_nonneg in E.
  rewrite to_double_nonneg; [discriminate|].
  apply Qmult_le_0_compat; [|exact E]. unfold Qle, inject_Z. cbn. lia.
Qed.

Lemma read_digits_len radix s : forall acc len,
  (len <= (read_digits radix acc len s).1.2)%nat.
Proof.
  induction s as [|c r IH]; intros acc len; cbn [read_digits]; [cbn; lia|].
  destruct (digit_of radix c); [|cbn; lia].
  specialize (IH (radix * acc + n)%N (S len)). lia.
Qed.

Lemma span_digits_head s c r :
  (span is_digit s).1 = String c r ->
  is_digit c = true /\ match r with String b _ => is_digit b = true | EmptyString => True end.
Proof.
  destruct s as [|c0 s]; [discriminate|]. cbn [span].
  destruct (is_digit c0) eqn:H0; [|discriminate].
  destruct (span is_digit s) as [a b] eqn:E. cbn [fst]. intros [= <- <-].
  split; [exact H0|]. destruct a as [|b0 a']; [exact I|].
  destruct s as [|c1 s']; [discriminate|]. cbn [span] in E.
  destruct (is_digit c1) eqn:H1; [|discriminate].
  destruct (span is_digit s'). by injection E as <- _ _.
Qed.

Lemma match_digits_shape s d :
  match_digits s = Some d ->
  exists c d', d = String c d' /\ is_digit c = true
    /\ match d' with String b _ => is_digit b = true | EmptyString => True end.
Proof.
  revert d. induction s as [|c r IH]; intros d; [discriminate|].
  change (match_digits (String c r))
    with (if is_digit c then Some (span is_digit (String c r)).1 else match_digits r).
  destruct (is_digit c) eqn:Hc; [|apply IH]. intros [= <-].
  destruct (span is_digit (String c r)).1 as [|c0 d'] eqn:E.
  { cbn [span] in E. rewrite Hc in E. by destruct (span is_digit r). }
  exists c0, d'. split; [exact E|]. by apply span_digits_head in E.
Qed.

(** [parseInt] of a run of digits is a natural number or the positive
    infinity. *)
Lemma parseInt_match_digits s d :
  match_digits s = Some d ->
  parseInt d = PosInf \/ exists n : N, parseInt d = Num.of_Z (Z.of_N n).
Proof.
  intros (c0 & d' & -> & H0 & H1)%match_digits_shape.
  unfold parseInt. cbn [trimStart]. rewrite (is_digit_not_ws _ H0).
  unfold read_sign. destruct (is_digit_not_sign _ H0) as [-> ->].
  assert (drop_hex_prefix (String c0 d') = None) as ->.
  { destruct d' as [|b d'']; [reflexivity|]. cbn [drop_hex_prefix].
    rewrite (is_digit_not_X _ H1). by rewrite andb_false_r. }
  pose proof (read_digits_len 10 d') as Hlen.
  cbn [read_digits]. destruct (is_digit_digit_of _ H0) as [v ->].
  specialize (Hlen (10 * 0 + v)%N 1%nat).
  destruct (read_digits 10 _ 1 d') as [[n len] rest]. cbn [fst snd] in Hlen.
  destruct len as [|len]; [lia|]. rewrite Z.mul_1_l.
  pose proof (to_double_nonneg (inject_Z (Z.of_N n))) as Hpos.
  destruct (to_double_cases (inject_Z (Z.of_N n))) as [-> | [E | ->]];
    [by left | | right; by exists n].
  rewrite E in Hpos. discriminate Hpos. unfold Qle, inject_Z. cbn. lia.
Qed.

End ParseFacts.
(** ** The numeric fields of the parts the adapters build *)

Section ParsedNumbers.
Import Str JS Val Spec.
Local Open Scope num_scope.

Variable Number_toString : number -> string.
Variable toFixed1 : number -> string.
Variables ohm_sign plus_minus_sign : string.

Abbreviation ToString := (Val.ToString Number_toString).
Abbreviation JLCPCB_parseComponent := (PartsSearch.JLCPCB_parseComponent Number_toString).
Abbreviation Rev_parseComponent :=
  (PartsSearchRev.parseComponent Number_toString toFixed1 ohm_sign plus_minus_sign).
Abbreviation Mouser_parsePart := (PartsSearch.Mouser_parsePart Number_toString).
Abbreviation Rev_Mouser_parsePart := (PartsSearchRev.Mouser_parsePart Number_toString).
Abbreviation DigiKey_parseProduct := (PartsSearch.DigiKey_parseProduct Number_toString).

(** One numeric field of the free-catalog parser. *)
Lemma coerced_field (parse : string -> number) (upstream : jsval) (n : number) :
  (if truthy upstream
   then text ← ToString upstream;
        Ok (if Num.isNaN (parse (remove_chars is_comma text)) then PartsSearch.zero
            else parse (remove_chars is_comma text))
   else Ok PartsSearch.zero) = Ok n ->
  coerced parse Number_toString upstream (VNum n).
Proof.
  unfold coerced, cleaned. destruct (truthy upstream); [|by intros [= <-]].
  intros (text & Ht & [= <-])%rbind_Ok. rewrite Ht.
  by exists (remove_chars is_comma text).
Qed.

(** The stock and the price the free-catalog parser computes from the
    values it read. *)
Lemma JLCPCB_parseComponent_numbers comp params part :
  JLCPCB_parseComponent comp params = Ok part ->
  exists stockValue priceValue,
    stock_source comp = Ok stockValue
    /\ price_source comp = Ok priceValue
    /\ coerced parseInt Number_toString stockValue (Raw.stock part)
    /\ coerced parseFloat Number_toString priceValue (Raw.price part).
Proof.
  unfold PartsSearch.JLCPCB_parseComponent. intros H.
  apply rbind_Ok in H as (lcsc & _ & H).
  apply rbind_Ok in H as (lcscPart & _ & H).
  apply rbind_Ok in H as (stockValue & Hs & H).
  apply rbind_Ok in H as (stock & Hstock%coerced_field & H).
  apply rbind_Ok in H as (priceValue & Hp & H).
  apply rbind_Ok in H as (price & Hprice%coerced_field & H).
  repeat (apply rbind_Ok in H as (? & _ & H)).
  injection H as <-. by exists stockValue, priceValue.
Qed.

Lemma Rev_parseComponent_numbers comp params part :
  Rev_parseComponent comp params = Ok part ->
  exists stockValue priceValue,
    stock_source comp = Ok stockValue
    /\ price_source_rev comp = Ok priceValue
    /\ coerced parseInt Number_toString stockValue (Raw.stock part)
    /\ coerced parseFloat Number_toString priceValue (Raw.price part).
Proof.
  unfold PartsSearchRev.parseComponent. intros H.
  apply rbind_Ok in H as (lcsc & _ & H).
  apply rbind_Ok in H as (lcscPart & _ & H).
  apply rbind_Ok in H as (stockValue & Hs & H).
  apply rbind_Ok in H as (stock & Hstock%coerced_field & H).
  apply rbind_Ok in H as (priceValue & Hp & H).
  apply rbind_Ok in H as (price & Hprice%coerced_field & H).
  repeat (apply rbind_Ok in H as (? & _ & H)).
  injection H as <-. by exists stockValue, priceValue.
Qed.

(** What a coerced field can be. *)
Lemma coerced_value parse upstream field :
  coerced parse Number_toString upstream field ->
  field = VNum 0
  \/ exists text, truthy upstream = true /\ cleaned Number_toString upstream = Ok text
                  /\ parse text <> NaN /\ field = VNum (parse text).
Proof.
  unfold coerced. destruct (truthy upstream); [|by left].
  intros (text & Ht & ->). destruct (parse text) eqn:E; cbn [Num.isNaN]; [by left|..];
    right; exists text; rewrite E; by repeat split.
Qed.

Lemma coerced_integer upstream field :
  coerced parseInt Number_toString upstream field -> integer_or_infinite field.
Proof.
  intros [-> | (text & _ & _ & Hn & ->)]%coerced_value;
    [right; right; by exists 0%Z|].
  destruct (parseInt_integer text) as [E | [-> | [-> | [z ->]]]];
    [done | by left | by right; left | right; right; by exists z].
Qed.

Lemma coerced_number parse upstream field :
  coerced parse Number_toString upstream field -> well_defined_number field.
Proof.
  intros [-> | (text & _ & _ & Hn & ->)]%coerced_value.
  - eexists. split; [reflexivity | discriminate].
  - by eexists.
Qed.

Lemma negative_VNum n : negative_value (VNum n) -> (n <? 0) = true.
Proof. by intros (m & [= <-] & H). Qed.

Lemma coerced_negative parse upstream field :
  coerced parse Number_toString upstream field ->
  negative_value field ->
  exists text, cleaned Number_toString upstream = Ok text /\ (parse text <? 0) = true.
Proof.
  intros [-> | (text & _ & Ht & Hn & ->)]%coerced_value H%negative_VNum;
    [discriminate|].
  by exists text.
Qed.

(** A value that is falsy, and a text that does not parse, are read as 0. *)
Lemma coerced_zero parse upstream field :
  coerced parse Number_toString upstream field ->
  (truthy upstream = false -> field = VNum 0)
  /\ (forall text, cleaned Number_toString upstream = Ok text -> parse text = NaN ->
      field = VNum 0).
Proof.
  unfold coerced. destruct (truthy upstream).
  - intros (text & Ht & ->). split; [discriminate|].
    intros text' Ht' E. rewrite Ht in Ht'. injection Ht' as <-. by rewrite E.
  - intros ->. by split.
Qed.

End ParsedNumbers.

Section AdapterNumbers.
Import Str JS Val Spec.
Local Open Scope num_scope.

Variable Number_toString : number -> string.
Variable toFixed1 : number -> string.
Variables ohm_sign plus_minus_sign : string.

Abbreviation JLCPCB_parseComponent := (PartsSearch.JLCPCB_parseComponent Number_toString).
Abbreviation Rev_parseComponent :=
  (PartsSearchRev.parseComponent Number_toString toFixed1 ohm_sign plus_minus_sign).
Abbreviation Mouser_parsePart := (PartsSearch.Mouser_parsePart Number_toString).
Abbreviation Rev_Mouser_parsePart := (PartsSearchRev.Mouser_parsePart Number_toString).
Abbreviation DigiKey_parseProduct := (PartsSearch.DigiKey_parseProduct Number_toString).

Lemma Mouser_parsePart_stock j params part :
  Mouser_parsePart j params = Ok part -> natural_or_infinite (Raw.stock part).
Proof.
  unfold PartsSearch.Mouser_parsePart. intros H.
  apply rbind_Ok in H as (availability & _ & H).
  apply rbind_Ok in H as (stockMatch & Hm & H). cbv zeta in H.
  repeat (apply rbind_Ok in H as (? & _ & H)).
  injection H as <-. cbn [Raw.stock].
  destruct availability; try discriminate. injection Hm as <-.
  destruct (match_digits s) as [d|] eqn:E; [|right; by exists 0%N].
  destruct (parseInt_match_digits _ _ E) as [-> | [n ->]]; [by left | right; by exists n].
Qed.

Lemma truthy_num_coerced n :
  well_defined_number (VNum (if truthy_num n then n else 0)).
Proof.
  eexists. split; [reflexivity|]. destruct n; cbn; try discriminate.
  destruct (negb _); discriminate.
Qed.

Lemma Rev_Mouser_parsePart_numbers j params part :
  Rev_Mouser_parsePart j params = Ok part ->
  integer_or_infinite (Raw.stock part) /\ well_defined_number (Raw.price part).
Proof.
  unfold PartsSearchRev.Mouser_parsePart. intros H.
  apply rbind_Ok in H as (inStock & _ & H).
  apply rbind_Ok in H as (stock & Hs & H).
  apply rbind_Ok in H as (priceBreaks & _ & H).
  apply rbind_Ok in H as (len & _ & H).
  apply rbind_Ok in H as (count & _ & H).
  apply rbind_Ok in H as (price & Hp & H).
  repeat (apply rbind_Ok in H as (? & _ & H)).
  injection H as <-. cbn [Raw.stock Raw.price]. split.
  - destruct (truthy inStock).
    + apply rbind_Ok in Hs as (text & _ & [= <-]).
      destruct (parseInt_integer text) as [-> | [-> | [-> | [z ->]]]];
        [right; right; by exists 0%Z | by left | by right; left |].
      right; right. destruct (truthy_num (Num.of_Z z)); [by exists z | by exists 0%Z].
    + apply rbind_Ok in Hs as (availability & _ & Hs).
      apply rbind_Ok in Hs as (stockMatch & Hm & Hs). injection Hs as <-.
      destruct availability; try discriminate. injection Hm as <-.
      destruct (match_digits s) as [d|] eqn:E; [|right; right; by exists 0%Z].
      destruct (parseInt_match_digits _ _ E) as [-> | [n ->]];
        [by left | right; right; by exists (Z.of_N n)].
  - destruct (Num.gt _ _).
    + apply rbind_Ok in Hp as (first & _ & Hp).
      apply rbind_Ok in Hp as (priceStr & _ & Hp).
      apply rbind_Ok in Hp as (cleanPrice & _ & Hp).
      apply rbind_Ok in Hp as (text & _ & [= <-]).
      apply truthy_num_coerced.
    + injection Hp as <-. eexists. split; [reflexivity | discriminate].
Qed.

Lemma truthy_not_missing v : truthy v = true -> ~ missing v.
Proof. intros H [-> | [-> | ->]]; discriminate. Qed.

Lemma truthy_or_zero_not_missing v : truthy v = true \/ v = VNum 0 -> ~ missing v.
Proof.
  intros [H | ->]; [by apply truthy_not_missing|].
  intros [? | [? | ?]]; discriminate.
Qed.

Lemma get_or_default_not_missing v k d r :
  ~ missing d -> get_or v k (Ok d) = Ok r -> ~ missing r.
Proof.
  intros Hd. unfold get_or. intros (x & _ & H)%rbind_Ok.
  destruct (truthy x) eqn:Hx; injection H as <-; [by apply truthy_not_missing | exact Hd].
Qed.

(** The stock of a product is its quantity, or 0 for a falsy one. *)
Lemma DigiKey_parseProduct_stock product params part :
  DigiKey_parseProduct product params = Ok part ->
  exists quantity,
    get product "QuantityAvailable" = Ok quantity
    /\ Raw.stock part = if truthy quantity then quantity else VNum 0.
Proof.
  unfold PartsSearch.DigiKey_parseProduct. intros H.
  do 9 (apply rbind_Ok in H as (? & _ & H)).
  apply rbind_Ok in H as (stock & Hs & H).
  repeat (apply rbind_Ok in H as (? & _ & H)).
  injection H as <-. cbn [Raw.stock].
  unfold get_or in Hs. apply rbind_Ok in Hs as (quantity & Hq & Hs).
  exists quantity. split; [exact Hq|].
  destruct (truthy quantity); by injection Hs as <-.
Qed.

(** C3, amended.  The parts of the free-catalog adapter, in both revisions,
    have a stock that is an integer or an infinity and a price that is a
    number other than [NaN].  Each is read from one upstream value: 0 when the
    value is falsy or its text without commas does not parse, the number
    [parseInt], respectively [parseFloat], reads from that text otherwise; it
    is negative only when that text starts with a minus sign.  The parts of
    the API-key distributor have a natural number or the positive infinity as
    stock (in the revision an integer or an infinity, and a price other than
    [NaN]).  The stock of a part of the OAuth2 distributor is the upstream
    quantity unchanged, or 0 when that is falsy; so it is never [undefined],
    [null] or [NaN]. *)
Theorem adapter_numbers_well_defined (params : Params.t) :
  (forall comp part, JLCPCB_parseComponent comp params = Ok part ->
     integer_or_infinite (Raw.stock part) /\ well_defined_number (Raw.price part)
     /\ exists stockValue priceValue,
          stock_source comp = Ok stockValue /\ price_source comp = Ok priceValue
          /\ coerced parseInt Number_toString stockValue (Raw.stock part)
          /\ coerced parseFloat Number_toString priceValue (Raw.price part)
          /\ (negative_value (Raw.stock part) ->
              exists text, cleaned Number_toString stockValue = Ok text
                           /\ leading_minus text = true)
          /\ (negative_value (Raw.price part) ->
              exists text, cleaned Number_toString priceValue = Ok text
                           /\ leading_minus text = true))
  /\ (forall comp part, Rev_parseComponent comp params = Ok part ->
     integer_or_infinite (Raw.stock part) /\ well_defined_number (Raw.price part)
     /\ exists stockValue priceValue,
          stock_source comp = Ok stockValue /\ price_source_rev comp = Ok priceValue
          /\ coerced parseInt Number_toString stockValue (Raw.stock part)
          /\ coerced parseFloat Number_toString priceValue (Raw.price part)
          /\ (negative_value (Raw.stock part) ->
              exists text, cleaned Number_toString stockValue = Ok text
                           /\ leading_minus text = true)
          /\ (negative_value (Raw.price part) ->
              exists text, cleaned Number_toString priceValue = Ok text
                           /\ leading_minus text = true))
  /\ (forall j part, Mouser_parsePart j params = Ok part ->
      natural_or_infinite (Raw.stock part))
  /\ (forall j part, Rev_Mouser_parsePart j params = Ok part ->
      integer_or_infinite (Raw.stock part) /\ well_defined_number (Raw.price part))
  /\ (forall product part, DigiKey_parseProduct product params = Ok part ->
      (exists quantity,
         get product "QuantityAvailable" = Ok quantity
         /\ Raw.stock part = if truthy quantity then quantity else VNum 0)
      /\ ~ missing (Raw.stock part)).
Proof.
  assert (Hfields : forall sv pv part,
    coerced parseInt Number_toString sv (Raw.stock part) ->
    coerced parseFloat Number_toString pv (Raw.price part) ->
    integer_or_infinite (Raw.stock part) /\ well_defined_number (Raw.price part)
    /\ (negative_value (Raw.stock part) ->
        exists text, cleaned Number_toString sv = Ok text /\ leading_minus text = true)
    /\ (negative_value (Raw.price part) ->
        exists text, cleaned Number_toString pv = Ok text /\ leading_minus text = true)).
  { intros sv pv part Hstock Hprice.
    split; [by eapply coerced_integer|]. split; [by eapply coerced_number|]. split.
    - intros Hn. destruct (coerced_negative _ _ _ _ Hstock Hn) as (text & Ht & Hlt).
      exists text. split; [exact Ht | by apply parseInt_negative].
    - intros Hn. destruct (coerced_negative _ _ _ _ Hprice Hn) as (text & Ht & Hlt).
      exists text. split; [exact Ht | by apply parseFloat_negative]. }
  split; [|split; [|split; [|split]]].
  - intros comp part (sv & pv & Hs & Hp & Hstock & Hprice)%JLCPCB_parseComponent_numbers.
    destruct (Hfields sv pv part Hstock Hprice) as (H1 & H2 & H3 & H4).
    split; [exact H1|]. split; [exact H2|]. by exists sv, pv.
  - intros comp part (sv & pv & Hs & Hp & Hstock & Hprice)
      %(Rev_parseComponent_numbers Number_toString).
    destruct (Hfields sv pv part Hstock Hprice) as (H1 & H2 & H3 & H4).
    split; [exact H1|]. split; [exact H2|]. by exists sv, pv.
  - intros j part. apply Mouser_parsePart_stock.
  - intros j part. apply Rev_Mouser_parsePart_numbers.
  - intros product part H. pose proof H as (q & Hq & Hst)%DigiKey_parseProduct_stock.
    split; [by exists q|]. rewrite Hst.
    destruct (truthy q) eqn:Hq'; [by apply truthy_not_missing|].
    intros [? | [? | ?]]; discriminate.
Qed.

End AdapterNumbers.

Section AdapterNumberExamples.
Import Val Spec.

(** The component of the free catalog parses to a part with stock
    15 900 000 and price 0.001. *)
Example JLCPCB_parseComponent_example :
  exists part,
    PartsSearch.JLCPCB_parseComponent Fmt.decimal Ex.component_100K Ex.query = Ok part
    /\ Raw.stock part = VNum 15900000
    /\ Raw.price part = VNum (Fin (1 # 1000)%Q)
    /\ Raw.lcscPart part = VStr "C5137468".
Proof. eexists. split; [vm_compute; reflexivity|]. repeat split. Qed.

(** A witness for each adapter: the catalog component in both revisions, a
    component with the stock text "-5", a distributor part and a product
    whose quantity is a text. *)
Lemma adapter_numbers_witness :
  (exists part,
     PartsSearch.JLCPCB_parseComponent Fmt.decimal Ex.component_100K Ex.query = Ok part
     /\ integer_or_infinite (Raw.stock part) /\ well_defined_number (Raw.price part))
  /\ (exists part text,
     PartsSearch.JLCPCB_parseComponent Fmt.decimal Ex.component_negative_stock Ex.query
       = Ok part
     /\ cleaned Fmt.decimal (VStr "-5") = Ok text /\ leading_minus text = true)
  /\ (exists part,
     PartsSearchRev.parseComponent Fmt.decimal Fmt.decimal "" "" Ex.component_100K Ex.query
       = Ok part
     /\ integer_or_infinite (Raw.stock part) /\ well_defined_number (Raw.price part))
  /\ (exists part,
     PartsSearch.Mouser_parsePart Fmt.decimal Ex.part_dollar_price Ex.query = Ok part
     /\ natural_or_infinite (Raw.stock part))
  /\ (exists part,
     PartsSearchRev.Mouser_parsePart Fmt.decimal Ex.part_dollar_price Ex.query = Ok part
     /\ integer_or_infinite (Raw.stock part) /\ well_defined_number (Raw.price part))
  /\ (exists part,
     PartsSearch.DigiKey_parseProduct Fmt.decimal Ex.product_text_stock Ex.query = Ok part
     /\ ~ missing (Raw.stock part)).
Proof.
  pose proof (adapter_numbers_well_defined Fmt.decimal Fmt.decimal "" "" Ex.query)
    as (Hj & Hr & Hm & Hrm & Hd).
  split; [|split; [|split; [|split; [|split]]]].
  - destruct (PartsSearch.JLCPCB_parseComponent Fmt.decimal Ex.component_100K Ex.query)
      as [part|e] eqn:E; [|vm_compute in E; discriminate].
    exists part. split; [reflexivity|].
    destruct (Hj Ex.component_100K part E) as (H1 & H2 & _). by split.
  - destruct (PartsSearch.JLCPCB_parseComponent Fmt.decimal Ex.component_negative_stock
                Ex.query) as [part|e] eqn:E; [|vm_compute in E; discriminate].
    destruct (Hj Ex.component_negative_stock part E)
      as (_ & _ & sv & pv & Hs & _ & _ & _ & Hneg & _).
    vm_compute in Hs. injection Hs as <-.
    destruct Hneg as (text & Ht & Hlt).
    { vm_compute in E. injection E as <-. eexists. split; reflexivity. }
    by exists part, text.
  - destruct (PartsSearchRev.parseComponent Fmt.decimal Fmt.decimal "" ""
                Ex.component_100K Ex.query) as [part|e] eqn:E;
      [|vm_compute in E; discriminate].
    exists part. split; [reflexivity|].
    destruct (Hr Ex.component_100K part E) as (H1 & H2 & _). by split.
  - destruct (PartsSearch.Mouser_parsePart Fmt.decimal Ex.part_dollar_price Ex.query)
      as [part|e] eqn:E; [|vm_compute in E; discriminate].
    exists part. split; [reflexivity|]. by apply (Hm Ex.part_dollar_price).
  - destruct (PartsSearchRev.Mouser_parsePart Fmt.decimal Ex.part_dollar_price Ex.query)
      as [part|e] eqn:E; [|vm_compute in E; discriminate].
    exists part. split; [reflexivity|]. by apply (Hrm Ex.part_dollar_price).
  - destruct (PartsSearch.DigiKey_parseProduct Fmt.decimal Ex.product_text_stock Ex.query)
      as [part|e] eqn:E; [|vm_compute in E; discriminate].
    exists part. split; [reflexivity|]. by apply (Hd Ex.product_text_stock).
Defined.

(** C3 as stated fails.  A component with the stock text "-5" gives a part
    with stock -5, and one whose stock text has 310 digits gives a part with
    an infinite stock.  A product whose quantity is a text gives a part with
    that text as stock, one with the quantity -3 a part with stock -3, and one
    whose pricing tier has no unit price a part with price [undefined].  A
    price text with a currency sign gives a part with price [NaN]. *)
Lemma adapter_numbers_counterexample :
  (exists part,
     PartsSearch.JLCPCB_parseComponent Fmt.decimal Ex.component_negative_stock Ex.query
       = Ok part
     /\ Raw.stock part = VNum (-5)
     /\ negative_value (Raw.stock part))
  /\ (exists part,
     PartsSearch.JLCPCB_parseComponent Fmt.decimal Ex.component_huge_stock Ex.query
       = Ok part
     /\ Raw.stock part = VNum PosInf)
  /\ (exists part,
     PartsSearch.DigiKey_parseProduct Fmt.decimal Ex.product_text_stock Ex.query = Ok part
     /\ Raw.stock part = VStr "In stock")
  /\ (exists part,
     PartsSearch.DigiKey_parseProduct Fmt.decimal Ex.product_negative_stock Ex.query
       = Ok part
     /\ Raw.stock part = VNum (-3)
     /\ negative_value (Raw.stock part))
  /\ (exists part,
     PartsSearch.DigiKey_parseProduct Fmt.decimal Ex.product_without_price Ex.query = Ok part
     /\ Raw.price part = VUndefined)
  /\ (exists part,
     PartsSearch.Mouser_parsePart Fmt.decimal Ex.part_dollar_price Ex.query = Ok part
     /\ Raw.price part = VNum NaN).
Proof.
  split; [|split; [|split; [|split; [|split]]]].
  - eexists. split; [vm_compute; reflexivity|]. split; [reflexivity|].
    eexists. split; reflexivity.
  - eexists. split; [vm_compute; reflexivity | reflexivity].
  - eexists. split; [vm_compute; reflexivity | reflexivity].
  - eexists. split; [vm_compute; reflexivity|]. split; [reflexivity|].
    eexists. split; reflexivity.
  - eexists. split; [vm_compute; reflexivity | reflexivity].
  - eexists. split; [vm_compute; reflexivity | reflexivity].
Qed.

End AdapterNumberExamples.

(** ** More on the scoring policy *)

Section ScoreBounds.
Local Open Scope num_scope.

Lemma score_base_in_stock s c :
  (s >? 0) = true ->
  (1000 <? score_base s c) = true /\ Num.le (score_base s c) 1150 = true.
Proof.
  unfold score_base, Num.le.
  destruct s as [| |s|], c as [| |c|]; num_crunch; try discriminate;
    intros _; split; try reflexivity; try (exfalso; q_arith).
Qed.

Lemma score_base_out_of_stock s c :
  Num.le s 0 = true -> Num.le (score_base s c) 50 = true.
Proof.
  unfold score_base, Num.le.
  destruct s as [| |s|], c as [| |c|]; num_crunch; try discriminate;
    intros _; try reflexivity; try (exfalso; q_arith).
Qed.

Lemma bonus_bounds (b : number) (k lo hi : Q) (has : bool) :
  (0 <= k)%Q ->
  ((Fin lo <? b) = true -> (Fin lo <? (if has then b + Fin k else b)) = true)
  /\ (Num.le b (Fin hi) = true ->
      Num.le (if has then b + Fin k else b) (Fin (hi + k)) = true).
Proof.
  intros Hk. unfold Num.le.
  destruct has, b as [| |x|]; num_crunch; split; intros; try discriminate;
    try reflexivity; try (exfalso; q_arith).
Qed.

End ScoreBounds.

Section ScoreRange.
Local Open Scope num_scope.


Lemma le_Fin_eq a x y : (x == y)%Q -> Num.le a (Fin x) = true -> Num.le a (Fin y) = true.
Proof.
  intros E. unfold Num.le. destruct a as [| |z|]; num_crunch; try tauto;
    intros; try reflexivity; try discriminate; exfalso; q_arith.
Qed.

Lemma score_in_stock (p : PartSearchResult) :
  (stock p >? 0) = true ->
  (1000 <? scoreJLCPCBPart p) = true /\ Num.le (scoreJLCPCBPart p) 1200 = true
  /\ (1000 <? scoreDistributorPart p) = true
  /\ Num.le (scoreDistributorPart p) 1170 = true.
Proof.
  rewrite scoreJLCPCBPart_base, scoreDistributorPart_base.
  intros [Hlo Hhi]%(score_base_in_stock _ (price p)).
  repeat split.
  - by apply (bonus_bounds _ 50 1000 1150).
  - apply (le_Fin_eq _ (1150 + 50)); [reflexivity|].
    by apply (bonus_bounds _ 50 1000 1150).
  - by apply (bonus_bounds _ 20 1000 1150).
  - apply (le_Fin_eq _ (1150 + 20)); [reflexivity|].
    by apply (bonus_bounds _ 20 1000 1150).
Qed.

Lemma score_out_of_stock (p : PartSearchResult) :
  Num.le (stock p) 0 = true ->
  Num.le (scoreJLCPCBPart p) 100 = true /\ Num.le (scoreDistributorPart p) 70 = true.
Proof.
  rewrite scoreJLCPCBPart_base, scoreDistributorPart_base.
  intros Hhi%(score_base_out_of_stock _ (price p)). split.
  - apply (le_Fin_eq _ (50 + 50)); [reflexivity|].
    by apply (bonus_bounds _ 50 0 50).
  - apply (le_Fin_eq _ (50 + 20)); [reflexivity|].
    by apply (bonus_bounds _ 20 0 50).
Qed.

Lemma lt_le a b : (a <? b) = true -> Num.le a b = true.
Proof. unfold Num.le. by intros ->. Qed.

(** X1.  A part in stock scores at least 1000, and at most 1200 in the free
    catalog and 1170 at a distributor; a part out of stock scores at most 100,
    respectively 70; a score is [NaN] exactly when the stock is.  (The lower
    bound is not strict: a double rounds 1000 plus a tiny stock term to
    1000.) *)
Theorem score_range (p : PartSearchResult) :
  ((stock p >? 0) = true ->
     Num.le 1000 (scoreJLCPCBPart p) = true /\ Num.le (scoreJLCPCBPart p) 1200 = true
     /\ Num.le 1000 (scoreDistributorPart p) = true
     /\ Num.le (scoreDistributorPart p) 1170 = true)
  /\ (Num.le (stock p) 0 = true ->
     Num.le (scoreJLCPCBPart p) 100 = true /\ Num.le (scoreDistributorPart p) 70 = true)
  /\ (scoreJLCPCBPart p = NaN <-> stock p = NaN)
  /\ (scoreDistributorPart p = NaN <-> stock p = NaN).
Proof.
  split.
  { intros (H1 & H2 & H3 & H4)%score_in_stock. repeat split; auto using lt_le. }
  split; [apply score_out_of_stock|].
  rewrite scoreJLCPCBPart_base, scoreDistributorPart_base. split.
  - rewrite <- (score_base_NaN (stock p) (price p)).
    destruct (truthy_opt (lcscPart p)); [|reflexivity].
    destruct (score_base (stock p) (price p)); cbn; split; congruence.
  - rewrite <- (score_base_NaN (stock p) (price p)).
    destruct (truthy_str (datasheet p)); [|reflexivity].
    destruct (score_base (stock p) (price p)); cbn; split; congruence.
Qed.

Lemma score_range_witness :
  Num.le 1000 (scoreDistributorPart Ex.strong_digikey) = true
  /\ Num.le (scoreDistributorPart Ex.strong_digikey) 1170 = true
  /\ Num.le (scoreJLCPCBPart Ex.weak_jlcpcb) 100 = true.
Proof.
  destruct (score_range Ex.strong_digikey) as (Hin & _).
  destruct (score_range Ex.weak_jlcpcb) as (_ & Hout & _).
  destruct (Hin eq_refl) as (_ & _ & H1 & H2). destruct (Hout eq_refl) as (H3 & _).
  by repeat split.
Defined.

Lemma lt_via a b x y :
  Num.le a (Fin x) = true -> (Fin y <? b) = true -> (x <= y)%Q -> (a <? b) = true.
Proof.
  unfold Num.le. destruct a as [| |u|], b as [| |v|]; num_crunch; try discriminate;
    intros; try reflexivity; exfalso; q_arith.
Qed.

(** X2.  In stock is decisive: under either scoring function, a part in stock
    scores strictly more than a part whose stock is zero or less, whatever
    their prices and other fields. *)
Theorem in_stock_outranks (p q : PartSearchResult) :
  (stock p >? 0) = true -> Num.le (stock q) 0 = true ->
  (scoreJLCPCBPart q <? scoreJLCPCBPart p) = true
  /\ (scoreDistributorPart q <? scoreDistributorPart p) = true.
Proof.
  intros Hp Hq.
  destruct (score_in_stock p Hp) as (H1 & _ & H2 & _).
  destruct (score_out_of_stock q Hq) as (H3 & H4).
  split.
  - apply (lt_via _ _ 100 1000 H3 H1). by unfold Qle.
  - apply (lt_via _ _ 70 1000 H4 H2). by unfold Qle.
Qed.

Lemma in_stock_outranks_witness :
  (scoreJLCPCBPart Ex.weak_jlcpcb <? scoreJLCPCBPart Ex.strong_mouser) = true
  /\ (scoreDistributorPart Ex.weak_jlcpcb <? scoreDistributorPart Ex.strong_mouser) = true.
Proof. apply in_stock_outranks; reflexivity. Defined.

End ScoreRange.

(** ** More on the selection and on the row interpreter *)

Section SelectionSound.
Local Open Scope num_scope.
Import Route.

Variable toLocaleString : number -> string.

Lemma top_candidate_elem f l p :
  top_candidate f l = Some p -> p ∈ l /\ (f p >? 0) = true.
Proof.
  unfold top_candidate. destruct (rank f l) as [|top r] eqn:E; [discriminate|].
  assert (Hin : top ∈ rank f l) by (rewrite E; left).
  apply rank_elem in Hin as [Hin Hs].
  destruct (score top >? 0) eqn:Hpos; [|discriminate].
  intros [= <-]. split; [exact Hin|]. by rewrite <- Hs.
Qed.

(** A selected part comes from the candidates of a supplier and has a
    positive score there. *)
Lemma selectBestPart_member (j d m : list PartSearchResult) p :
  sel_part (selectBestPart toLocaleString j d m) = Some p ->
  (p ∈ j /\ (scoreJLCPCBPart p >? 0) = true)
  \/ (p ∈ d /\ (scoreDistributorPart p >? 0) = true)
  \/ (p ∈ m /\ (scoreDistributorPart p >? 0) = true).
Proof.
  rewrite selectBestPart_stages.
  destruct (top_candidate scoreJLCPCBPart j) as [p1|] eqn:Ej.
  { apply top_candidate_elem in Ej as [? ?]. intros [= <-]. by left. }
  destruct (top_candidate scoreDistributorPart d) as [p2|] eqn:Ed.
  { apply top_candidate_elem in Ed as [? ?]. intros [= <-]. by right; left. }
  destruct (top_candidate scoreDistributorPart m) as [p3|] eqn:Em.
  { apply top_candidate_elem in Em as [? ?]. intros [= <-]. by right; right. }
  discriminate.
Qed.

(** X3.  A selected part is one of the candidates of some supplier, has a
    positive score under that supplier's scoring function, and the note
    names that supplier; when no part is selected the note is "No matches
    found". *)
Theorem selectBestPart_sound (j d m : list PartSearchResult) :
  match sel_part (selectBestPart toLocaleString j d m) with
  | Some p =>
      (p ∈ j /\ (scoreJLCPCBPart p >? 0) = true
       /\ sel_notes (selectBestPart toLocaleString j d m) = note_jlcpcb toLocaleString p)
      \/ (p ∈ d /\ (scoreDistributorPart p >? 0) = true
          /\ sel_notes (selectBestPart toLocaleString j d m)
             = note_distributor toLocaleString "Digi-Key" p)
      \/ (p ∈ m /\ (scoreDistributorPart p >? 0) = true
          /\ sel_notes (selectBestPart toLocaleString j d m)
             = note_distributor toLocaleString "Mouser" p)
  | None => sel_notes (selectBestPart toLocaleString j d m) = "No matches found"
  end.
Proof.
  rewrite selectBestPart_stages.
  destruct (top_candidate scoreJLCPCBPart j) as [p|] eqn:Ej.
  { apply top_candidate_elem in Ej as [? ?]. left. by repeat split. }
  destruct (top_candidate scoreDistributorPart d) as [p|] eqn:Ed.
  { apply top_candidate_elem in Ed as [? ?]. right; left. by repeat split. }
  destruct (top_candidate scoreDistributorPart m) as [p|] eqn:Em.
  { apply top_candidate_elem in Em as [? ?]. right; right. by repeat split. }
  reflexivity.
Qed.

(** Lists without candidates, or with candidates that are all out of stock,
    without a price and without bonus, select nothing. *)
Lemma selectBestPart_nothing :
  selectBestPart toLocaleString [] [] [] = mkSelection None "No matches found".
Proof. reflexivity. Qed.

End SelectionSound.

Section RowOutcome.
Local Open Scope num_scope.
Import Str Route.

Variable toLocaleString : number -> string.
Variable searchAllSuppliers : Params.t -> result (gmap string (list PartSearchResult)).

Abbreviation processBOMRow := (Route.processBOMRow toLocaleString searchAllSuppliers).
Abbreviation sourceRow := (Route.sourceRow toLocaleString searchAllSuppliers).

(** X4.  Every call of [processBOMRow] makes at most one search.  When it
    settles: the result carries the row as it was; the status is [matched]
    exactly when a part is attached; a skipped or already-sourced row made
    no search and has no results; an attached part comes from the results
    kept for its supplier, has a positive score there, and cost exactly one
    search. *)
Theorem processBOMRow_outcome (row : BOMRow) r calls :
  processBOMRow row = (r, calls) ->
  (length calls <= 1)%nat
  /\ forall res, r = Ok res ->
       originalRow res = row
       /\ (status res = matched <-> is_Some (matchedPart res))
       /\ (status res = skipped \/ status res = already_sourced ->
           calls = [] /\ matchedPart res = None /\ searchResults res = no_results)
       /\ (forall p, matchedPart res = Some p ->
           length calls = 1%nat
           /\ ((p ∈ res_JLCPCB (searchResults res) /\ (scoreJLCPCBPart p >? 0) = true)
               \/ (p ∈ res_DigiKey (searchResults res) /\ (scoreDistributorPart p >? 0) = true)
               \/ (p ∈ res_Mouser (searchResults res) /\ (scoreDistributorPart p >? 0) = true))).
Proof.
  unfold Route.processBOMRow. cbv zeta.
  destruct (_ || _ || _).
  { intros [= <- <-]. split; [cbn; lia|]. intros res [= <-]. cbn.
    repeat split; try done; try (by intros [? ?]); by left. }
  destruct (_ || _ || _).
  { intros [= <- <-]. split; [cbn; lia|]. intros res [= <-]. cbn.
    repeat split; try done; try (by intros [? ?]); by left. }
  destruct (_ || _).
  { intros [= <- <-]. split; [cbn; lia|]. intros res [= <-]. cbn.
    repeat split; try done; try (by intros [? ?]). }
  destruct (row !! "Reference") as [reference|].
  2:{ intros [= <- <-]. split; [cbn; lia|]. discriminate. }
  destruct (_ && _).
  { intros [= <- <-]. split; [cbn; lia|]. intros res [= <-]. cbn.
    repeat split; try done; try (by intros [? ?]); by intros [? | ?]. }
  destruct (searchAllSuppliers _) as [found|e].
  2:{ intros [= <- <-]. split; [cbn; lia|]. discriminate. }
  intros [= <- <-]. split; [cbn; lia|]. intros res [= <-].
  cbn [originalRow status matchedPart searchResults res_JLCPCB res_DigiKey res_Mouser].
  pose proof (selectBestPart_member toLocaleString
                (default [] (found !! "JLCPCB")) (default [] (found !! "Digi-Key"))
                (default [] (found !! "Mouser"))) as Hsel.
  destruct (sel_part _) as [p|].
  - split; [reflexivity|]. split; [by split; [eexists|]|].
    split; [by intros [? | ?]|].
    intros q [= <-]. split; [reflexivity|]. by apply Hsel.
  - split; [reflexivity|]. split; [by split; [|intros [? ?]]|].
    split; [by intros [? | ?]|]. discriminate.
Qed.

(** X5.  A row that reaches the search stage without a "Reference" column makes
    [processBOMRow] reject with a [TypeError], before any search and even
    when the row has a value to search for. *)
Theorem processBOMRow_missing_reference (row : BOMRow) :
  row !! "Reference" = None ->
  excluded_from_bom row = false -> do_not_populate row = false ->
  has_cross_reference row = false ->
  processBOMRow row = (Throw TypeError, [])
  /\ sourceRow row = (Throw TypeError, []).
Proof.
  intros Href He Hd Hx.
  assert (H : processBOMRow row = (Throw TypeError, [])).
  { unfold excluded_from_bom, do_not_populate, has_cross_reference in *.
    unfold Route.processBOMRow. cbv zeta. by rewrite He, Hd, Hx, Href. }
  split; [exact H|]. unfold Route.sourceRow. by rewrite H.
Qed.

End RowOutcome.

Section RowOutcomeExamples.
Import Route.

Lemma processBOMRow_outcome_witness :
  originalRow Ex.matched_result = Ex.parsed_row
  /\ (status Ex.matched_result = matched <-> is_Some (matchedPart Ex.matched_result)).
Proof.
  destruct (processBOMRow_outcome Fmt.decimal Ex.catalog_supplier Ex.parsed_row
              (Ok Ex.matched_result) [Ex.matched_query]) as [_ H].
  - vm_refl.
  - destruct (H _ eq_refl) as (H1 & H2 & _). by split.
Defined.

Lemma processBOMRow_missing_reference_witness :
  processBOMRow Fmt.decimal Ex.catalog_supplier Ex2.row_without_reference
  = (Throw TypeError, [])
  /\ sourceRow Fmt.decimal Ex.catalog_supplier Ex2.row_without_reference
     = (Throw TypeError, []).
Proof. apply processBOMRow_missing_reference; vm_refl. Defined.

End RowOutcomeExamples.

(** ** More on the merge, the footprint and the component type *)

Section MergeIdempotent.
Import Str Route.

Lemma merge_gap_stable (row out : BOMRow) col v :
  out !! col = (if truthy_str v && empty_col row col then Some v else row !! col) ->
  (if truthy_str v && empty_col out col then Some v else out !! col) = out !! col.
Proof.
  intros Hout. unfold empty_col in *. rewrite Hout.
  destruct (truthy_str v) eqn:Hv; [|reflexivity]. cbn [andb].
  destruct (negb (truthy_opt (row !! col))) eqn:Hr.
  - cbn [truthy_opt]. by rewrite Hv.
  - by rewrite Hr.
Qed.

Lemma mergeSourcedData_unmatched (row : BOMRow) (result : SourcingResult) :
  matchedPart result = None -> mergeSourcedData row result = row.
Proof. intros H. unfold mergeSourcedData. by rewrite H. Qed.

(** X6.  Merging the same result twice changes nothing more, and a merge never
    removes a column. *)
Theorem mergeSourcedData_idempotent (row : BOMRow) (result : SourcingResult) :
  mergeSourcedData (mergeSourcedData row result) result = mergeSourcedData row result
  /\ (forall col, is_Some (row !! col) -> is_Some (mergeSourcedData row result !! col)).
Proof.
  destruct (matchedPart result) as [p|] eqn:Hp.
  2:{ rewrite !(mergeSourcedData_unmatched _ _ Hp). by split. }
  assert (Hcases : forall col,
            col ∈ cross_reference_columns
            \/ (exists v, (col, v) ∈ gap_columns p)
            \/ col ∉ cross_reference_columns ++ (gap_columns p).*1).
  { intros col.
    destruct (decide (col ∈ cross_reference_columns)) as [?|Hc]; [by left|].
    destruct (decide (col ∈ (gap_columns p).*1)) as [Hg|Hg].
    - right; left. apply list_elem_of_fmap in Hg as ([c v] & -> & Hin). by exists v.
    - right; right. rewrite elem_of_app. tauto. }
  split.
  - apply map_eq. intros col. destruct (Hcases col) as [Hc | [[v Hg] | Ho]].
    + rewrite !(merge_lookup_cross_reference _ _ p Hp col Hc).
      by destruct (truthy_opt (lcscPart p)).
    + rewrite (merge_lookup_gap _ _ p Hp col v Hg).
      apply merge_gap_stable with (row := row).
      apply (merge_lookup_gap _ _ p Hp col v Hg).
    + by rewrite !(merge_lookup_other _ _ p Hp col Ho).
  - intros col Hsome. destruct (Hcases col) as [Hc | [[v Hg] | Ho]].
    + rewrite (merge_lookup_cross_reference _ _ p Hp col Hc).
      destruct (lcscPart p) as [l|]; cbn; [|exact Hsome].
      destruct (truthy_str l); [by eexists | exact Hsome].
    + rewrite (merge_lookup_gap _ _ p Hp col v Hg).
      destruct (_ && _); [by eexists | exact Hsome].
    + by rewrite (merge_lookup_other _ _ p Hp col Ho).
Qed.

Lemma mergeSourcedData_idempotent_witness :
  mergeSourcedData (mergeSourcedData Ex.parsed_row Ex.matched_result) Ex.matched_result
  = mergeSourcedData Ex.parsed_row Ex.matched_result
  /\ is_Some (mergeSourcedData Ex.parsed_row Ex.matched_result !! "Remark").
Proof.
  destruct (mergeSourcedData_idempotent Ex.parsed_row Ex.matched_result) as [H1 H2].
  split; [exact H1|]. apply H2. exists "keep me". vm_refl.
Defined.

End MergeIdempotent.

Section FootprintOfRow.
Import Str Route.

Lemma match_metric4_code s d : match_metric4 s = Some d -> is_code4 d = true.
Proof.
  induction s as [|c r IH]; [discriminate|]. cbn [match_metric4].
  destruct (four_digits (String c r)) as [[d' rest]|] eqn:E; [|exact IH].
  destruct (startsWith "METRIC" (toUpperCase rest)); [|exact IH].
  intros [= <-]. by apply four_digits_code in E.
Qed.

(** X7.  The footprint of a row is a four-digit code taken from the "Footprint"
    column, or else the "CASE CODE (METRIC)" column as it is (the empty text
    when that is missing); without a "Footprint" text it is the latter.  A
    four-digit footprint is the package filter of the free-catalog query,
    unchanged. *)
Theorem extractFootprint_result (row : BOMRow) :
  (is_code4 (extractFootprint row) = true
   \/ extractFootprint row = default "" (row !! "CASE CODE (METRIC)"))
  /\ (truthy_opt (row !! "Footprint") = false ->
      extractFootprint row = default "" (row !! "CASE CODE (METRIC)"))
  /\ (is_code4 (extractFootprint row) = true ->
      forall v t m n l,
        PartsSearch.package_filter (Params.mk v (Some (extractFootprint row)) t m n l)
        = Some (extractFootprint row)).
Proof.
  assert (Hfall : default "" (row !! "CASE CODE (METRIC)") =
                  match row !! "CASE CODE (METRIC)" with
                  | Some cc => if truthy_str cc then cc else ""
                  | None => ""
                  end).
  { destruct (row !! "CASE CODE (METRIC)") as [[|c cc]|]; reflexivity. }
  split; [|split].
  - unfold extractFootprint. rewrite <- Hfall.
    destruct (row !! "Footprint") as [fp|]; [|by right].
    destruct (truthy_str fp); [|by right].
    destruct (match_metric4 fp) as [d|] eqn:E1.
    { left. by apply match_metric4_code in E1. }
    destruct (match_word4 false fp) as [d|] eqn:E2; [|by right].
    left. by apply match_word4_code in E2.
  - unfold extractFootprint. rewrite <- Hfall.
    destruct (row !! "Footprint") as [fp|]; [|done]. cbn [truthy_opt]. by intros ->.
  - intros Hcode v t m n l. unfold PartsSearch.package_filter. cbn [Params.footprint].
    rewrite (normalizeFootprint_of_code _ Hcode).
    assert (truthy_str (extractFootprint row) = true) as ->; [|reflexivity].
    unfold is_code4 in Hcode. by destruct (extractFootprint row).
Qed.

Example extractFootprint_prefers_metric :
  extractFootprint (<["Footprint" := "apollo4_SE:SMT_0201_0603Metric"]> ∅) = "0603".
Proof. vm_refl. Qed.

End FootprintOfRow.

Section ComponentType.
Import Str Route.

Ltac by_bits c := destruct c as [[|] [|] [|] [|] [|] [|] [|] [|]]; reflexivity.

Lemma upper_lower_char c : upper_char (lower_char c) = upper_char c.
Proof. by_bits c. Qed.

Lemma upper_upper_char c : upper_char (upper_char c) = upper_char c.
Proof. by_bits c. Qed.

Lemma toUpperCase_toLowerCase s : toUpperCase (toLowerCase s) = toUpperCase s.
Proof.
  induction s as [|c r IH]; [reflexivity|].
  cbn [toUpperCase toLowerCase map_chars].
  rewrite upper_lower_char. f_equal. exact IH.
Qed.

Lemma toUpperCase_idemp s : toUpperCase (toUpperCase s) = toUpperCase s.
Proof.
  induction s as [|c r IH]; [reflexivity|].
  cbn [toUpperCase map_chars]. rewrite upper_upper_char. f_equal. exact IH.
Qed.

Lemma inferComponentType_upper value reference value' reference' :
  toUpperCase value = toUpperCase value' ->
  toUpperCase reference = toUpperCase reference' ->
  inferComponentType value reference = inferComponentType value' reference'.
Proof. intros Hv Hr. unfold inferComponentType. by rewrite Hv, Hr. Qed.

(** X8.  The classification does not depend on the case of the letters of the
    reference designator or of the value. *)
Theorem inferComponentType_case_insensitive (value reference : string) :
  inferComponentType (toLowerCase value) (toLowerCase reference)
  = inferComponentType value reference
  /\ inferComponentType (toUpperCase value) (toUpperCase reference)
     = inferComponentType value reference.
Proof.
  split; apply inferComponentType_upper;
    by rewrite ?toUpperCase_toLowerCase, ?toUpperCase_idemp.
Qed.

(** X9.  The classification gives one of ten categories, never "led".  When the
    reference designator alone decides (the result for an empty value is not
    empty), the value plays no part. *)
Theorem inferComponentType_reference_first (value reference : string) :
  inferComponentType value reference ∈ categories
  /\ (inferComponentType "" reference <> "" ->
      inferComponentType value reference = inferComponentType "" reference).
Proof.
  assert (HLED : startsWith "L" (toUpperCase reference) = false ->
                 startsWith "LED" (toUpperCase reference) = false).
  { destruct (startsWith "LED" (toUpperCase reference)) eqn:E; [|done].
    apply startsWith_LED in E as (_ & _ & ->). discriminate. }
  unfold inferComponentType, categories.
  destruct (startsWith "L" (toUpperCase reference)) eqn:HL;
    [|rewrite (HLED eq_refl)];
  repeat match goal with
         | |- context [if startsWith ?p ?s then _ else _] =>
             destruct (startsWith p s)
         | |- context [if startsWith ?p ?s || startsWith ?q ?s then _ else _] =>
             destruct (startsWith p s || startsWith q s)
         end;
    try (split; [apply list_elem_of_In; cbn [In]; auto 12 | reflexivity]).
  split.
  - repeat match goal with
           | |- context [if ?b then _ else _] => destruct b
           end; apply list_elem_of_In; cbn [In]; auto 12.
  - intros H. exfalso. apply H. reflexivity.
Qed.

Lemma inferComponentType_reference_first_witness :
  inferComponentType "100nF" "R12" = inferComponentType "" "R12".
Proof.
  apply (proj2 (inferComponentType_reference_first "100nF" "R12")). discriminate.
Defined.

End ComponentType.

Section Quantity.
Import Str JS Route.
Local Open Scope num_scope.

Lemma parseInt_positive s :
  (parseInt s >? 0) = true ->
  parseInt s = PosInf \/ exists n : N, parseInt s = Num.of_Z (Z.of_N n).
Proof.
  destruct (parseInt_integer s) as [-> | [-> | [-> | [z Hz]]]];
    [discriminate | by left | discriminate |].
  rewrite Hz. intros Hpos. right. exists (Z.to_N z). f_equal.
  rewrite Z2N.id; [reflexivity|].
  unfold Num.of_Z in Hpos. num_crunch; [|discriminate].
  unfold Qlt, inject_Z in *. cbn in *. lia.
Qed.

(** X10.  The quantity of a row is a natural number or the positive
    infinity, never [NaN] and never negative.  It is infinite only when the
    "Qty" text is a digit run too long for a double.  It is zero only for a
    row whose "Reference" text is not empty and holds no designator. *)
Theorem calculateQty_natural (row : BOMRow) :
  (calculateQty row = PosInf \/ exists n : N, calculateQty row = Num.of_Z (Z.of_N n))
  /\ (calculateQty row = PosInf ->
      exists q, row !! "Qty" = Some q /\ parseInt q = PosInf)
  /\ (calculateQty row = 0 -> truthy_opt (row !! "Reference") = true).
Proof.
  unfold calculateQty.
  assert (Hcount : forall r : string,
    let n := Num.of_Z (Z.of_nat (length
               (filter (fun x => truthy_str (trim x) = true) (split is_comma r)))) in
    (n = PosInf \/ exists k : N, n = Num.of_Z (Z.of_N k)) /\ n <> PosInf).
  { intros r. cbv zeta. split; [|discriminate]. right.
    eexists (N.of_nat _). by rewrite nat_N_Z. }
  assert (Hone : (1 = PosInf \/ exists k : N, 1 = Num.of_Z (Z.of_N k)))
    by (right; by exists 1%N).
  assert (Hreference :
    let n := match row !! "Reference" with
             | Some r =>
                 if truthy_str r
                 then Num.of_Z (Z.of_nat (length
                        (filter (fun x => truthy_str (trim x) = true) (split is_comma r))))
                 else 1
             | None => 1
             end in
    (n = PosInf \/ exists k : N, n = Num.of_Z (Z.of_N k))
    /\ n <> PosInf
    /\ (n = 0 -> truthy_opt (row !! "Reference") = true)).
  { cbv zeta. destruct (row !! "Reference") as [r|];
      [|split; [exact Hone|split; discriminate]].
    cbn [truthy_opt]. destruct (truthy_str r);
      [|split; [exact Hone|split; discriminate]].
    destruct (Hcount r) as [H1 H2]. by repeat split. }
  cbv zeta in Hreference. destruct Hreference as (Hn & Hfin & Hzero).
  destruct (row !! "Qty") as [q|].
  - change (default "" (Some q)) with q.
    destruct (truthy_str q && (parseInt q >? 0)) eqn:Hq.
    + apply andb_true_iff in Hq as [_ Hpos]. split; [by apply parseInt_positive|].
      split; [intros H; by exists q|].
      intros H0. rewrite H0 in Hpos. discriminate.
    + split; [exact Hn|]. split; [by intros ?|exact Hzero].
  - split; [exact Hn|]. split; [by intros ?|exact Hzero].
Qed.

(** Three designators count three; an explicit quantity wins; a "Reference"
    of separators only counts zero. *)
Example calculateQty_examples :
  calculateQty (<["Reference" := "C1, C2,C3"]> ∅) = 3
  /\ calculateQty (<["Qty" := "12 pcs"]> (<["Reference" := "C1,C2"]> ∅)) = 12
  /\ calculateQty (<["Qty" := "-4"]> (<["Reference" := "C1,C2"]> ∅)) = 2
  /\ calculateQty (<["Reference" := ","]> ∅) = 0
  /\ calculateQty (<["Qty" := String "1" (Ex.zeros 309)]> ∅) = PosInf.
Proof. repeat split; vm_refl. Qed.

End Quantity.

Section QuantityWitness.
Import Route.

Lemma calculateQty_natural_witness :
  truthy_opt ((<["Reference" := ","]> (∅ : BOMRow)) !! "Reference") = true.
Proof.
  apply (proj2 (proj2 (calculateQty_natural (<["Reference" := ","]> ∅)))). vm_refl.
Defined.

Lemma extractFootprint_result_witness :
  extractFootprint Ex2.row_without_reference = "1005"
  /\ PartsSearch.package_filter
       (Params.mk (Some "10k") (Some (extractFootprint Ex2.row_without_reference))
          None None None None)
     = Some (extractFootprint Ex2.row_without_reference)
  /\ extractFootprint Ex.parsed_row = default "" (Ex.parsed_row !! "CASE CODE (METRIC)").
Proof.
  destruct (extractFootprint_result Ex2.row_without_reference) as (_ & _ & H3).
  destruct (extractFootprint_result Ex.parsed_row) as (_ & H2 & _).
  split; [vm_refl|]. split; [apply H3; vm_refl | apply H2; vm_refl].
Defined.

End QuantityWitness.
(** ** More on the part parsers *)

Section ParserTotal.
Import Str JS Val Spec.

Variable Number_toString : number -> string.
Variable toFixed1 : number -> string.
Variables ohm_sign plus_minus_sign : string.

Abbreviation ToString := (Val.ToString Number_toString).
Abbreviation ToNumber := (Val.ToNumber Number_toString).
Abbreviation JLCPCB_parseComponent := (PartsSearch.JLCPCB_parseComponent Number_toString).
Abbreviation Rev_parseComponent :=
  (PartsSearchRev.parseComponent Number_toString toFixed1 ohm_sign plus_minus_sign).

Lemma get_nullish v k : nullish v = true -> get v k = Throw TypeError.
Proof. by destruct v. Qed.

Lemma get_total v k : nullish v = false -> exists x, get v k = Ok x.
Proof.
  destruct v; try discriminate; intros _; cbn [get]; eauto.
  - destruct (String.eqb k "length"); [eauto|]. destruct (index_of_key k); eauto.
  - destruct (String.eqb k "length"); [eauto|]. destruct (index_of_key k); eauto.
Qed.

(** The conversions of a primitive value do not throw. *)
Lemma ToString_primitive v : primitive v = true -> exists s, ToString v = Ok s.
Proof. destruct v as [| |[|]| | | |]; try discriminate; intros _; by eexists. Qed.

Lemma ToNumber_primitive v : primitive v = true -> exists n, ToNumber v = Ok n.
Proof. destruct v; try discriminate; intros _; by eexists. Qed.

(** The conversion of an object with an own property [toString] throws. *)
Lemma ToString_own_toString props :
  is_Some (assoc "toString" props) -> ToString (VObj props) = Throw TypeError.
Proof. intros [x Hx]. cbn [Val.ToString]. by rewrite Hx. Qed.

Section Fields.

Variable comp : jsval.
Hypothesis comp_object : nullish comp = false.
Hypothesis comp_fields : primitive_fields comp.

Lemma get_primitive k : exists x, get comp k = Ok x /\ primitive x = true.
Proof.
  destruct (get_total comp k comp_object) as [x Hx]. exists x. split; [exact Hx|].
  by apply (comp_fields k).
Qed.

Lemma get_or_primitive k rest :
  (exists y, rest = Ok y /\ primitive y = true) ->
  exists x, get_or comp k rest = Ok x /\ primitive x = true.
Proof.
  intros (y & -> & Hy). unfold get_or. destruct (get_primitive k) as (x & -> & Hx).
  cbn. destruct (truthy x); eauto.
Qed.

End Fields.

Lemma bind_settles {A B} (P : A -> Prop) (Q : B -> Prop) (r : result A)
    (k : A -> result B) :
  (exists a, r = Ok a /\ P a) ->
  (forall a, P a -> exists b, k a = Ok b /\ Q b) ->
  exists b, r ≫= k = Ok b /\ Q b.
Proof. intros (a & -> & Ha) Hk. exact (Hk a Ha). Qed.

Ltac settles Hv Hp :=
  lazymatch goal with
  | |- exists a, get _ _ = Ok a /\ primitive a = true =>
      exact (get_primitive _ Hv Hp _)
  | |- exists a, get_or _ _ _ = Ok a /\ primitive a = true =>
      apply (get_or_primitive _ Hv Hp); settles Hv Hp
  | |- exists a, Val.ToString _ ?x = Ok a /\ True =>
      let s := fresh "s" in
      destruct (ToString_primitive x ltac:(first [assumption | reflexivity])) as [s ->];
      by exists s
  | |- exists a, Val.ToNumber _ ?x = Ok a /\ True =>
      let n := fresh "n" in
      destruct (ToNumber_primitive x ltac:(first [assumption | reflexivity])) as [n ->];
      by exists n
  | |- exists a, Ok _ = Ok a /\ True => by eexists
  | |- exists a, Ok _ = Ok a /\ primitive a = true =>
      eexists; split; [reflexivity | first [reflexivity | assumption]]
  | |- exists a, (if ?c then _ else _) = Ok a /\ _ => destruct c; settles Hv Hp
  | |- exists a, (_ ≫= _) = Ok a /\ _ =>
      first
        [ apply (bind_settles (fun v : jsval => primitive v = true));
          [settles Hv Hp | intros ? ?; settles Hv Hp]
        | apply (bind_settles (fun _ => True));
          [settles Hv Hp | intros ? _; settles Hv Hp] ]
  end.

(** X11.  The free-catalog parser (both revisions) rejects a component that
    is [null] or [undefined] with a [TypeError].  It gives a part for every
    other component whose properties are all primitive values (texts, numbers,
    booleans, [null]), whatever properties it has or lacks.  A property that
    is an object can make it throw: it does when [lcsc] is an object with a
    property [toString] of its own, which has no text. *)
Theorem parseComponent_total (comp : jsval) (params : Params.t) :
  (nullish comp = true ->
     JLCPCB_parseComponent comp params = Throw TypeError
     /\ Rev_parseComponent comp params = Throw TypeError)
  /\ (nullish comp = false -> primitive_fields comp ->
     (exists part, JLCPCB_parseComponent comp params = Ok part)
     /\ (exists part, Rev_parseComponent comp params = Ok part))
  /\ (forall props,
        get comp "lcsc" = Ok (VObj props) -> is_Some (assoc "toString" props) ->
        JLCPCB_parseComponent comp params = Throw TypeError
        /\ Rev_parseComponent comp params = Throw TypeError).
Proof.
  split; [|split].
  - intros Hv. unfold PartsSearch.JLCPCB_parseComponent, PartsSearchRev.parseComponent.
    by rewrite !(get_nullish _ _ Hv).
  - intros Hv Hp.
    assert (Hdrop : forall e : result Raw.PartObject,
              (exists part, e = Ok part /\ True) -> exists part, e = Ok part).
    { intros e (part & H & _). by exists part. }
    split; apply Hdrop.
    + unfold PartsSearch.JLCPCB_parseComponent. settles Hv Hp.
    + unfold PartsSearchRev.parseComponent. settles Hv Hp.
  - intros props Hlcsc Hown.
    unfold PartsSearch.JLCPCB_parseComponent, PartsSearchRev.parseComponent.
    rewrite Hlcsc. cbn [mbind result_bind rbind truthy].
    by rewrite (ToString_own_toString props Hown).
Qed.

End ParserTotal.

Section CrossReferenceId.
Import Str JS Val Spec.

Variable Number_toString : number -> string.
Variable toFixed1 : number -> string.
Variables ohm_sign plus_minus_sign : string.

Abbreviation ToString := (Val.ToString Number_toString).
Abbreviation JLCPCB_parseComponent := (PartsSearch.JLCPCB_parseComponent Number_toString).
Abbreviation Rev_parseComponent :=
  (PartsSearchRev.parseComponent Number_toString toFixed1 ohm_sign plus_minus_sign).

Lemma startsWith_C_app s : startsWith "C" ("C" +:+ s) = true.
Proof. reflexivity. Qed.

(** What the parsers make of the cross-reference fields, from the values
    read. *)
Lemma lcscPart_of_fields comp (lcsc lcscPart : jsval) :
  get comp "lcsc" = Ok lcsc ->
  (if truthy lcsc then
     text ← ToString lcsc;
     Ok (VStr (if startsWith "C" text then text else "C" +:+ text))
   else
     lcscCode ← get comp "lcscCode";
     if truthy lcscCode then Ok lcscCode
     else
       lcsc_id ← get comp "lcsc_id";
       if truthy lcsc_id then text ← ToString lcsc_id; Ok (VStr ("C" +:+ text))
       else Ok (VStr "")) = Ok lcscPart ->
  (forall v, get comp "lcsc" = Ok v -> truthy v = true ->
     exists t s, ToString v = Ok t /\ lcscPart = VStr s /\ startsWith "C" s = true
                 /\ (s = t \/ s = "C" +:+ t))
  /\ (lcscPart = VStr "" \/ truthy lcscPart = true).
Proof.
  intros Hlcsc H. destruct (truthy lcsc) eqn:Ht.
  - apply rbind_Ok in H as (text & Htext & H).
    destruct (startsWith "C" text) eqn:Hc; injection H as <-.
    + split.
      * intros v Hv _. rewrite Hlcsc in Hv. injection Hv as <-.
        exists text, text. split; [exact Htext|]. split; [reflexivity|].
        split; [exact Hc | by left].
      * right. destruct text; [discriminate Hc | reflexivity].
    + split; [|by right].
      intros v Hv _. rewrite Hlcsc in Hv. injection Hv as <-.
      exists text, ("C" +:+ text). split; [exact Htext|]. split; [reflexivity|].
      split; [reflexivity | by right].
  - split.
    + intros v Hv Htv. rewrite Hlcsc in Hv. injection Hv as <-. congruence.
    + apply rbind_Ok in H as (lcscCode & _ & H).
      destruct (truthy lcscCode) eqn:Hcode; [injection H as <-; by right|].
      apply rbind_Ok in H as (lcsc_id & _ & H).
      destruct (truthy lcsc_id); [|injection H as <-; by left].
      apply rbind_Ok in H as (text & _ & [= <-]). by right.
Qed.

(** The address of a part, from its cross-reference id. *)
Lemma url_of_lcscPart (lcscPart url : jsval) :
  (if truthy lcscPart
   then text ← ToString lcscPart; Ok (VStr ("https://jlcpcb.com/partdetail/" +:+ text))
   else Ok (VStr "https://jlcpcb.com/")) = Ok url ->
  (lcscPart = VStr "" \/ truthy lcscPart = true) ->
  exists text,
    ToString lcscPart = Ok text
    /\ url = VStr (if truthy lcscPart
                   then "https://jlcpcb.com/partdetail/" +:+ text
                   else "https://jlcpcb.com/").
Proof.
  intros H [-> | Ht].
  - injection H as <-. by exists "".
  - rewrite Ht in *. apply rbind_Ok in H as (text & Htext & [= <-]). by exists text.
Qed.

(** X12.  The cross-reference id of a free-catalog part (both revisions).  Read
    from the field [lcsc], it is a text that starts with "C": the text of the
    field as it is when it has the prefix, with the prefix put before it
    otherwise.  It is never [undefined] or [null]: without any id it is the
    empty text.  The address of the part is the detail page of that id, or
    the home page when there is none. *)
Theorem lcscPart_normalized (comp : jsval) (params : Params.t) (part : Raw.PartObject) :
  JLCPCB_parseComponent comp params = Ok part
  \/ Rev_parseComponent comp params = Ok part ->
  (forall v, get comp "lcsc" = Ok v -> truthy v = true ->
     exists t s, ToString v = Ok t /\ Raw.lcscPart part = VStr s
                 /\ startsWith "C" s = true /\ (s = t \/ s = "C" +:+ t))
  /\ (Raw.lcscPart part = VStr "" \/ truthy (Raw.lcscPart part) = true)
  /\ (exists text,
        ToString (Raw.lcscPart part) = Ok text
        /\ Raw.url part =
           VStr (if truthy (Raw.lcscPart part)
                 then "https://jlcpcb.com/partdetail/" +:+ text
                 else "https://jlcpcb.com/")).
Proof.
  intros [H | H].
  - unfold PartsSearch.JLCPCB_parseComponent in H.
    apply rbind_Ok in H as (lcsc & Hlcsc & H).
    apply rbind_Ok in H as (lcscPart & Hl & H).
    destruct (lcscPart_of_fields _ _ _ Hlcsc Hl) as [H1 H2].
    do 8 (apply rbind_Ok in H as (? & _ & H)).
    apply rbind_Ok in H as (url & Hurl & H).
    repeat (apply rbind_Ok in H as (? & _ & H)). injection H as <-.
    cbn [Raw.lcscPart Raw.url]. split; [exact H1|]. split; [exact H2|].
    by apply url_of_lcscPart.
  - unfold PartsSearchRev.parseComponent in H.
    apply rbind_Ok in H as (lcsc & Hlcsc & H).
    apply rbind_Ok in H as (lcscPart & Hl & H).
    destruct (lcscPart_of_fields _ _ _ Hlcsc Hl) as [H1 H2].
    do 9 (apply rbind_Ok in H as (? & _ & H)).
    apply rbind_Ok in H as (url & Hurl & H).
    repeat (apply rbind_Ok in H as (? & _ & H)). injection H as <-.
    cbn [Raw.lcscPart Raw.url]. split; [exact H1|]. split; [exact H2|].
    by apply url_of_lcscPart.
Qed.

End CrossReferenceId.

Section ParserExamples.
Import Val Spec.

Lemma primitive_fields_text s : primitive_fields (VStr s).
Proof.
  intros k v. cbn [get]. destruct (String.eqb k "length"); [by intros [= <-]|].
  destruct (index_of_key k) as [i|]; [|by intros [= <-]].
  unfold char_at. destruct (String.get i s); by intros [= <-].
Qed.

Lemma parseComponent_total_witness :
  PartsSearch.JLCPCB_parseComponent Fmt.decimal VNull Ex.query = Throw TypeError
  /\ (exists part,
        PartsSearch.JLCPCB_parseComponent Fmt.decimal (VStr "not an object") Ex.query
        = Ok part)
  /\ PartsSearch.JLCPCB_parseComponent Fmt.decimal Ex2.component_object_id Ex.query
     = Throw TypeError.
Proof.
  destruct (parseComponent_total Fmt.decimal Fmt.decimal "" "" VNull Ex.query)
    as (H1 & _ & _).
  destruct (parseComponent_total Fmt.decimal Fmt.decimal "" "" (VStr "not an object")
              Ex.query) as (_ & H2 & _).
  destruct (parseComponent_total Fmt.decimal Fmt.decimal "" "" Ex2.component_object_id
              Ex.query) as (_ & _ & H3).
  split; [apply H1; reflexivity|]. split.
  - apply H2; [reflexivity | apply primitive_fields_text].
  - apply (H3 [("toString", VNum 1%num)]); [reflexivity | by eexists].
Defined.

(** The numeric id 5137468 becomes "C5137468"; the id "C25744" is kept. *)
Lemma lcscPart_normalized_witness :
  (exists part t s,
     PartsSearch.JLCPCB_parseComponent Fmt.decimal Ex.component_100K Ex.query = Ok part
     /\ Val.ToString Fmt.decimal (VNum 5137468) = Ok t
     /\ Raw.lcscPart part = VStr s /\ Str.startsWith "C" s = true
     /\ (s = t \/ s = "C" +:+ t)).
Proof.
  destruct (PartsSearch.JLCPCB_parseComponent Fmt.decimal Ex.component_100K Ex.query)
    as [part|e] eqn:E; [|vm_compute in E; discriminate].
  destruct (lcscPart_normalized Fmt.decimal Fmt.decimal "" "" Ex.component_100K Ex.query
              part (or_introl E)) as (H1 & _).
  destruct (H1 (VNum 5137468) eq_refl eq_refl) as (t & s & Ht & Hs & Hc & Hor).
  by exists part, t, s.
Defined.

End ParserExamples.

(** ** More on the searches: requests made, empty queries, the token *)

Section Extends.
Import Val Net.

Lemma extends_refl st n : extends_by st st n.
Proof. exists []. split; [by rewrite app_nil_r | cbn; lia]. Qed.

Lemma extends_fetch st st1 r n :
  extends_by st st1 n -> extends_by st (record (Fetched r) st1) (S n).
Proof.
  intros (evs & H & Hn). exists (evs ++ [Fetched r]). split.
  - cbn [record history]. by rewrite H, app_assoc.
  - unfold fetched in *. rewrite omap_app, length_app. cbn. lia.
Qed.

Lemma extends_clock st st1 n :
  extends_by st st1 n -> extends_by st (record ClockRead st1) n.
Proof.
  intros (evs & H & Hn). exists (evs ++ [ClockRead]). split.
  - cbn [record history]. by rewrite H, app_assoc.
  - unfold fetched in *. rewrite omap_app, length_app. cbn. lia.
Qed.

Lemma extends_fields st st1 a b n :
  extends_by st st1 n -> extends_by st (mkState (history st1) a b) n.
Proof. intros (evs & H & Hn). by exists evs. Qed.

Lemma extends_weaken st st1 n m :
  (n <= m)%nat -> extends_by st st1 n -> extends_by st st1 m.
Proof. intros Hnm (evs & H & Hn). exists evs. split; [exact H | lia]. Qed.

Lemma extends_trans st st1 st2 n m :
  extends_by st st1 n -> extends_by st1 st2 m -> extends_by st st2 (n + m).
Proof.
  intros (e1 & H1 & Hn) (e2 & H2 & Hm). exists (e1 ++ e2). split.
  - by rewrite H2, H1, app_assoc.
  - unfold fetched in *. rewrite omap_app, length_app. lia.
Qed.

End Extends.

Create HintDb extends.
#[local] Hint Resolve extends_refl extends_fetch extends_clock extends_fields : extends.

Section RequestBounds.
Import Str JS Val Net PartsSearch Spec.

Variable Number_toString : number -> string.
Variable toFixed1 : number -> string.
Variables ohm_sign plus_minus_sign : string.
Variable network : list Event -> Request -> result Response.
Variable clock : list Event -> number.
Variables clientId clientSecret apiKey : string.

Abbreviation DigiKey_search :=
  (PartsSearch.DigiKey_search Number_toString network clock clientId clientSecret).
Abbreviation DigiKey_getAccessToken :=
  (PartsSearch.DigiKey_getAccessToken Number_toString network clock clientId clientSecret).
Abbreviation JLCPCB_search := (PartsSearch.JLCPCB_search Number_toString network).
Abbreviation Mouser_search := (PartsSearch.Mouser_search Number_toString network apiKey).
Abbreviation Rev_search :=
  (PartsSearchRev.search Number_toString toFixed1 ohm_sign plus_minus_sign network).
Abbreviation Rev_searchCategory :=
  (PartsSearchRev.searchCategory Number_toString toFixed1 ohm_sign plus_minus_sign network).

Ltac ext :=
  cbn [snd];
  first [ apply extends_refl
        | solve [eauto 6 with extends]
        | eexists; split;
          [cbn [history record]; rewrite <- ?app_assoc; reflexivity | cbn; lia] ].

Lemma JLCPCB_search_requests params st : extends_by st (JLCPCB_search params st).2 1.
Proof.
  unfold PartsSearch.JLCPCB_search. cbv zeta. rewrite try_catchM_eq.
  match goal with |- context [truthy_str ?t] => generalize t; intros searchTerm end.
  destruct (truthy_str searchTerm); cbn [negb]; [|rewrite mret_eq; ext].
  rewrite bind_fetch.
  destruct (network (history st) _) as [response|e]; [|rewrite mret_eq; ext].
  destruct (ok response); cbn [negb];
    [|rewrite bind_lift; destruct (text response); rewrite mret_eq; ext].
  rewrite bind_lift. destruct (json response) as [data|e]; [|rewrite mret_eq; ext].
  rewrite bind_lift. destruct (get_or data _ _) as [components|e]; [|rewrite mret_eq; ext].
  rewrite bind_lift. destruct (call_map _ components) as [parsed|e];
    [|rewrite mret_eq; ext].
  rewrite bind_lift. destruct (sortM _ _) as [sorted|e]; rewrite mret_eq; ext.
Qed.

Lemma Mouser_search_requests params st : extends_by st (Mouser_search params st).2 1.
Proof.
  unfold PartsSearch.Mouser_search.
  destruct (Mouser_isConfigured apiKey); cbn [negb]; [|rewrite mret_eq; ext].
  cbv zeta. rewrite try_catchM_eq.
  destruct (truthy_str (build_keyword params)); cbn [negb]; [|rewrite mret_eq; ext].
  rewrite bind_fetch.
  destruct (network (history st) _) as [response|e]; [|rewrite mret_eq; ext].
  destruct (ok response); cbn [negb];
    [|rewrite bind_lift; destruct (text response); rewrite mret_eq; ext].
  rewrite bind_lift. destruct (json response) as [data|e]; [|rewrite mret_eq; ext].
  rewrite bind_lift. destruct (get data _) as [searchResults|e]; [|rewrite mret_eq; ext].
  rewrite bind_lift. destruct (get_opt searchResults _) as [found|e];
    [|rewrite mret_eq; ext].
  rewrite lift_eq. destruct (call_map _ _) as [parsed|e]; [|rewrite mret_eq]; ext.
Qed.

Ltac token_tail :=
  destruct (negb (DigiKey_isConfigured _ _)); [cbn; ext|];
  rewrite bind_fetch; destruct (network _ _) as [response|e]; [|ext];
  destruct (negb (ok response));
    [rewrite bind_lift; destruct (text response); cbn; ext|];
  rewrite bind_lift; destruct (json response) as [data|e]; [|ext];
  rewrite bind_lift; destruct (get data "access_token") as [token|e]; [|ext];
  rewrite bind_set_accessToken, bind_Date_now, bind_lift;
  destruct (get data "expires_in") as [expires_in|e]; [|cbn; ext];
  rewrite bind_lift; destruct (Val.ToNumber _ expires_in) as [seconds|e];
    [rewrite bind_set_tokenExpiry|]; cbn; ext.

Lemma getAccessToken_requests st : extends_by st (DigiKey_getAccessToken st).2 1.
Proof.
  unfold PartsSearch.DigiKey_getAccessToken.
  rewrite bind_get_accessToken, M_bind_eq.
  destruct (truthy (accessToken st)).
  - rewrite bind_Date_now, bind_get_tokenExpiry, mret_eq.
    destruct (Num.lt _ _); [rewrite mret_eq; ext|].
    token_tail.
  - rewrite mret_eq. token_tail.
Qed.

Lemma DigiKey_search_requests params st : extends_by st (DigiKey_search params st).2 2.
Proof.
  unfold PartsSearch.DigiKey_search.
  destruct (negb (DigiKey_isConfigured _ _)); [rewrite mret_eq; ext|].
  cbv zeta. rewrite try_catchM_eq, M_bind_eq.
  pose proof (getAccessToken_requests st) as Htok.
  destruct (PartsSearch.DigiKey_getAccessToken _ _ _ _ _ st) as [[token|e] st1];
    cbn [snd] in Htok.
  2:{ rewrite mret_eq. cbn [snd]. by apply (extends_weaken _ _ 1); [lia|]. }
  assert (H1 : extends_by st st1 2) by (by apply (extends_weaken _ _ 1); [lia|]).
  assert (H2 : forall r, extends_by st (record (Fetched r) st1) 2)
    by (intros r; by apply extends_fetch).
  destruct (truthy_str (build_keyword params)); cbn [negb]; [|rewrite mret_eq; cbn [snd]; first [exact H1|apply H2]].
  rewrite bind_lift.
  destruct (Val.ToString _ token) as [bearer|e];
    [|rewrite mret_eq; cbn [snd]; first [exact H1|apply H2]].
  rewrite bind_fetch.
  destruct (network (history st1) _) as [response|e]; [|rewrite mret_eq; cbn [snd]; first [exact H1|apply H2]].
  destruct (ok response); cbn [negb];
    [|rewrite bind_lift; destruct (text response); rewrite mret_eq; cbn [snd]; first [exact H1|apply H2]].
  rewrite bind_lift. destruct (json response) as [data|e]; [|rewrite mret_eq; cbn [snd]; first [exact H1|apply H2]].
  rewrite bind_lift. destruct (get_or data _ _) as [products|e]; [|rewrite mret_eq; cbn [snd]; first [exact H1|apply H2]].
  rewrite lift_eq. destruct (call_map _ products) as [parsed|e]; [|rewrite mret_eq];
    cbn [snd]; apply H2.
Qed.

Lemma searchCategory_requests category searchTerm params st :
  extends_by st (Rev_searchCategory category searchTerm params st).2 1.
Proof.
  unfold PartsSearchRev.searchCategory. rewrite bind_fetch.
  destruct (network (history st) _) as [response|e]; [|ext].
  destruct (ok response); cbn [negb];
    [|rewrite bind_lift; destruct (text response); ext].
  rewrite bind_lift. destruct (json response) as [data|e]; [|ext].
  rewrite bind_lift. destruct (get_or data _ _) as [components|e]; [|ext].
  destruct components; try (rewrite mret_eq; ext).
  rewrite bind_lift. destruct (mapM _ _) as [parsed|e]; [rewrite lift_eq|]; ext.
Qed.

Lemma Rev_search_requests params st : extends_by st (Rev_search params st).2 2.
Proof.
  unfold PartsSearchRev.search. cbv zeta. rewrite try_catchM_eq.
  match goal with |- context [truthy_str ?t] => generalize t; intros searchTerm end.
  destruct (truthy_str searchTerm); cbn [negb]; [|rewrite mret_eq; ext].
  match goal with |- context [default "components" ?t] =>
    generalize (default "components" t); intros category end.
  rewrite M_bind_eq.
  pose proof (searchCategory_requests category searchTerm params st) as H1.
  destruct (PartsSearchRev.searchCategory _ _ _ _ _ _ _ _ st) as [[results|e] st1];
    cbn [snd] in H1.
  2:{ rewrite mret_eq. cbn [snd]. by apply (extends_weaken _ _ 1); [lia|]. }
  rewrite M_bind_eq.
  assert (H2 : forall c, extends_by st (Rev_searchCategory c searchTerm params st1).2 2).
  { intros c. apply (extends_trans _ st1 _ 1 1); [exact H1|apply searchCategory_requests]. }
  assert (H0 : extends_by st st1 2) by (by apply (extends_weaken _ _ 1); [lia|]).
  destruct (_ && _).
  - destruct (PartsSearchRev.looksLikeResistor searchTerm).
    { specialize (H2 "resistors").
      destruct (PartsSearchRev.searchCategory _ _ _ _ _ _ _ _ st1) as [[r2|e] st2];
        rewrite mret_eq; cbn [snd] in *; exact H2. }
    destruct (PartsSearchRev.looksLikeCapacitor searchTerm).
    { specialize (H2 "capacitors").
      destruct (PartsSearchRev.searchCategory _ _ _ _ _ _ _ _ st1) as [[r2|e] st2];
        rewrite mret_eq; cbn [snd] in *; exact H2. }
    rewrite !mret_eq; exact H0.
  - rewrite !mret_eq; exact H0.
Qed.

(** X13.  One search of a client adds to the history of its exchanges and
    never takes from it, and it makes few requests: at most one for the
    free-catalog client and for Mouser, at most two for the revised
    free-catalog client (the category, then one fallback) and for DigiKey
    (the token, then the keyword search). *)
Theorem search_request_budget params st :
  extends_by st (JLCPCB_search params st).2 1
  /\ extends_by st (Rev_search params st).2 2
  /\ extends_by st (Mouser_search params st).2 1
  /\ extends_by st (DigiKey_search params st).2 2.
Proof.
  split; [apply JLCPCB_search_requests|].
  split; [apply Rev_search_requests|].
  split; [apply Mouser_search_requests|apply DigiKey_search_requests].
Qed.

Lemma or_str_falsy o d : truthy_opt o = false -> or_str o d = d.
Proof. destruct o as [s|]; [cbn; by intros ->|reflexivity]. Qed.

(** X14.  A query with no value, no manufacturer and no manufacturer part
    number gives the free-catalog client nothing to search for: both
    revisions answer with no result and make no request. *)
Theorem catalog_empty_query params st :
  no_search_term params ->
  JLCPCB_search params st = (Ok [], st) /\ Rev_search params st = (Ok [], st).
Proof.
  intros (Hv & Hm & Hf).
  unfold PartsSearch.JLCPCB_search, PartsSearchRev.search. cbv zeta.
  rewrite !try_catchM_eq, Hm, Hf, (or_str_falsy _ _ Hv). cbn. by split.
Qed.

(** X15.  A query with no value, footprint, component type and manufacturer
    part number gives the distributor clients no keyword: Mouser answers with
    no result and makes no request; DigiKey answers with no result after at
    most the one request for a token. *)
Theorem distributor_empty_query params st :
  no_keyword params ->
  Mouser_search params st = (Ok [], st)
  /\ (DigiKey_search params st).1 = Ok []
  /\ extends_by st (DigiKey_search params st).2 1.
Proof.
  intros (Hv & Hm & Hf & Ht).
  assert (Hk : build_keyword params = "").
  { unfold build_keyword. cbv zeta. by rewrite Hm, Hf, Ht, (or_str_falsy _ _ Hv). }
  split; [|split].
  - unfold PartsSearch.Mouser_search.
    destruct (negb (Mouser_isConfigured _)); [reflexivity|].
    cbv zeta. by rewrite try_catchM_eq, Hk.
  - unfold PartsSearch.DigiKey_search.
    destruct (negb (DigiKey_isConfigured _ _)); [reflexivity|].
    cbv zeta. rewrite try_catchM_eq, M_bind_eq, Hk.
    by destruct (PartsSearch.DigiKey_getAccessToken _ _ _ _ _ st) as [[token|e] st1].
  - unfold PartsSearch.DigiKey_search.
    destruct (negb (DigiKey_isConfigured _ _)); [rewrite mret_eq; ext|].
    cbv zeta. rewrite try_catchM_eq, M_bind_eq, Hk.
    pose proof (getAccessToken_requests st) as Htok.
    by destruct (PartsSearch.DigiKey_getAccessToken _ _ _ _ _ st) as [[token|e] st1].
Qed.

End RequestBounds.

Lemma catalog_empty_query_witness :
  no_search_term Ex2.empty_query
  /\ PartsSearch.JLCPCB_search Fmt.decimal Ex.offline Ex2.empty_query Net.initial
     = (Ok [], Net.initial).
Proof.
  assert (H : no_search_term Ex2.empty_query) by (by repeat split).
  split; [exact H|].
  exact (proj1 (catalog_empty_query Fmt.decimal Fmt.decimal "" "" Ex.offline
                  Ex2.empty_query Net.initial H)).
Defined.

Lemma distributor_empty_query_witness :
  no_keyword Ex2.empty_query
  /\ PartsSearch.Mouser_search Fmt.decimal Ex.offline "key" Ex2.empty_query Net.initial
     = (Ok [], Net.initial).
Proof.
  assert (H : no_keyword Ex2.empty_query) by (by repeat split).
  split; [exact H|].
  exact (proj1 (distributor_empty_query Fmt.decimal Ex.offline Ex.midnight "id" "secret"
                  "key" Ex2.empty_query Net.initial H)).
Defined.

(** ** The order and the number of the free-catalog results *)

Section Ordering.
Import Str JS Val Net PartsSearch Spec.
Local Open Scope num_scope.

Variable Number_toString : number -> string.
Variable toFixed1 : number -> string.
Variables ohm_sign plus_minus_sign : string.
Variable network : list Event -> Request -> result Response.

Abbreviation cmp := by_numbers.

(** On parts whose fields are numbers the comparator of the code does not
    throw, and the sort is the sort by [by_numbers]. *)
Lemma numeric_numeric_fields r : numeric r -> numeric_fields r.
Proof. intros [(s & Hs & _) (p & Hp & _)]. by exists s, p. Qed.

Lemma by_stock_then_price_numbers a b :
  numeric_fields a -> numeric_fields b ->
  by_stock_then_price Number_toString a b = Ok (by_numbers a b).
Proof.
  intros (sa & pa & Hsa & Hpa) (sb & pb & Hsb & Hpb).
  unfold by_stock_then_price, by_numbers. rewrite Hsa, Hpa, Hsb, Hpb.
  by destruct (negb _).
Qed.

Lemma bind_Ok_eq {A B} (a : A) (k : A -> result B) : (Ok a ≫= k) = k a.
Proof. reflexivity. Qed.

Lemma insert_sortedM_numbers x l :
  numeric_fields x -> Forall numeric_fields l ->
  insert_sortedM (by_stock_then_price Number_toString) x l
  = Ok (insert_sorted by_numbers x l).
Proof.
  intros Hx. induction 1 as [|y l Hy Hl IH]; [reflexivity|].
  cbn [insert_sortedM insert_sorted]. rewrite (by_stock_then_price_numbers x y Hx Hy).
  rewrite bind_Ok_eq. destruct (by_numbers x y >? 0); [|reflexivity]. by rewrite IH.
Qed.

Lemma sortM_numbers l :
  Forall numeric_fields l ->
  sortM (by_stock_then_price Number_toString) l = Ok (sort by_numbers l).
Proof.
  induction 1 as [|x l Hx Hl IH]; [reflexivity|].
  cbn [sortM sort]. rewrite IH, bind_Ok_eq.
  apply insert_sortedM_numbers; [exact Hx | by apply Forall_sort].
Qed.

Lemma lt_trans a b c : (a <? b) = true -> (b <? c) = true -> (a <? c) = true.
Proof. destruct a as [| |x|], b as [| |y|], c as [| |z|]; num_solve. Qed.

Lemma lt_eq_trans a b c :
  (a <? b) = true -> Num.strict_eq b c = true -> (a <? c) = true.
Proof. destruct a as [| |x|], b as [| |y|], c as [| |z|]; num_solve. Qed.

Lemma eq_lt_trans a b c :
  Num.strict_eq a b = true -> (b <? c) = true -> (a <? c) = true.
Proof. destruct a as [| |x|], b as [| |y|], c as [| |z|]; num_solve. Qed.

Lemma eq_trans_num a b c :
  Num.strict_eq a b = true -> Num.strict_eq b c = true -> Num.strict_eq a c = true.
Proof. destruct a as [| |x|], b as [| |y|], c as [| |z|]; num_solve. Qed.

Lemma ranks_before_trans x y z : ranks_before x y -> ranks_before y z -> ranks_before x z.
Proof.
  unfold ranks_before. intros [H1|[H1 H1']] [H2|[H2 H2']].
  - left. eapply lt_trans; eassumption.
  - left. eapply eq_lt_trans; [|eassumption].
    revert H2. clear. destruct (number_of (Raw.stock y)), (number_of (Raw.stock z)); num_solve.
  - left. eapply lt_eq_trans; [eassumption|].
    revert H1. clear. destruct (number_of (Raw.stock x)), (number_of (Raw.stock y)); num_solve.
  - right. split; [eapply eq_trans_num | eapply le_trans_num]; eassumption.
Qed.

(** What the comparator decides, on parts whose stock and price are
    numbers. *)
Lemma cmp_after x y :
  numeric x -> numeric y -> (cmp x y >? 0) = true -> ranks_before y x.
Proof.
  intros [(sx & Hsx & Nsx) (px & Hpx & Npx)] [(sy & Hsy & Nsy) (py & Hpy & Npy)].
  unfold by_numbers, ranks_before, Num.le. rewrite Hsx, Hpx, Hsy, Hpy.
  cbn [strict_eq number_of].
  destruct sx as [| |sx|], sy as [| |sy|], px as [| |px|], py as [| |py|];
    try congruence; num_solve.
Qed.

Lemma cmp_before x y :
  numeric x -> numeric y -> (cmp x y >? 0) = false -> ranks_before x y.
Proof.
  intros [(sx & Hsx & Nsx) (px & Hpx & Npx)] [(sy & Hsy & Nsy) (py & Hpy & Npy)].
  unfold by_numbers, ranks_before, Num.le. rewrite Hsx, Hpx, Hsy, Hpy.
  cbn [strict_eq number_of].
  destruct sx as [| |sx|], sy as [| |sy|], px as [| |px|], py as [| |py|];
    try congruence; num_solve.
Qed.

Lemma insert_sorted_ranked x l :
  numeric x -> Forall numeric l ->
  StronglySorted ranks_before l -> StronglySorted ranks_before (insert_sorted cmp x l).
Proof.
  intros Hx Hl Hs. induction Hs as [|y l Hs IH Hy]; cbn [insert_sorted].
  - repeat constructor.
  - apply Forall_cons in Hl as [Ny Nl].
    destruct (cmp x y >? 0) eqn:E.
    + constructor; [by apply IH|].
      rewrite insert_sorted_Permutation.
      constructor; [by apply cmp_after|exact Hy].
    + pose proof (cmp_before x y Hx Ny E) as Hxy.
      constructor; [by constructor|].
      constructor; [exact Hxy|].
      eapply Forall_impl; [exact Hy|]. intros z Hz. by eapply ranks_before_trans.
Qed.

Lemma sort_ranked l : Forall numeric l -> StronglySorted ranks_before (sort cmp l).
Proof.
  induction 1 as [|x l Hx Hl IH]; cbn [sort]; [constructor|].
  apply insert_sorted_ranked; [exact Hx | by apply Forall_sort | exact IH].
Qed.

Lemma StronglySorted_take {A} (R : A -> A -> Prop) n (l : list A) :
  StronglySorted R l -> StronglySorted R (take n l).
Proof.
  intros H. revert n. induction H as [|x l Hs IH Hx]; intros [|n]; cbn; try constructor.
  - apply IH.
  - apply Forall_take, Hx.
Qed.

Lemma mapM_Forall {A B} (f : A -> result B) (P : B -> Prop) :
  (forall x y, f x = Ok y -> P y) ->
  forall l l', mapM f l = Ok l' -> Forall P l'.
Proof.
  intros Hf. induction l as [|x l IH]; intros l'; cbn [mapM].
  - intros [= <-]. constructor.
  - intros H. apply rbind_Ok in H as (y & Hy & H).
    apply rbind_Ok in H as (ys & Hys & [= <-]).
    constructor; [by eapply Hf | by apply IH].
Qed.

Lemma Forall_bool_filter {A} (P : A -> Prop) (f : A -> bool) l :
  Forall P l -> Forall P (List.filter f l).
Proof.
  induction 1 as [|x l Hx Hl IH]; cbn [List.filter]; [constructor|].
  destruct (f x); [by constructor|exact IH].
Qed.

Lemma JLCPCB_parseComponent_numeric comp params part :
  JLCPCB_parseComponent Number_toString comp params = Ok part -> numeric part.
Proof.
  intros H. apply JLCPCB_parseComponent_numbers in H as (s & p & _ & _ & Hs & Hp).
  split; eapply coerced_number; eassumption.
Qed.

Lemma Rev_parseComponent_numeric comp params part :
  PartsSearchRev.parseComponent Number_toString toFixed1 ohm_sign plus_minus_sign
    comp params = Ok part ->
  numeric part.
Proof.
  intros H. apply Rev_parseComponent_numbers in H as (s & p & _ & _ & Hs & Hp).
  split; eapply coerced_number; eassumption.
Qed.

Lemma slice0_length {A} (l : list A) (k : nat) :
  (length (slice0 l (Num.of_Z (Z.of_nat k))) <= k)%nat.
Proof.
  unfold slice0, relative_index, Num.of_Z, Qtrunc. cbn [inject_Z Qnum Qden].
  rewrite Z.quot_1_r, length_take.
  destruct (Z.ltb_spec (Z.of_nat k) 0); lia.
Qed.

Lemma slice0_ranked (l : list Raw.PartObject) e :
  StronglySorted ranks_before l -> StronglySorted ranks_before (slice0 l e).
Proof. apply StronglySorted_take. Qed.

Lemma searchCategory_ranked category searchTerm params st l st' :
  PartsSearchRev.searchCategory Number_toString toFixed1 ohm_sign plus_minus_sign network
    category searchTerm params st = (Ok l, st') ->
  StronglySorted ranks_before l.
Proof.
  unfold PartsSearchRev.searchCategory. rewrite bind_fetch.
  destruct (network (history st) _) as [response|e]; [|discriminate].
  destruct (ok response); cbn [negb];
    [|rewrite bind_lift; destruct (text response);
      [rewrite mret_eq; intros [= <- _]; constructor | discriminate]].
  rewrite bind_lift. destruct (json response) as [data|e]; [|discriminate].
  rewrite bind_lift.
  destruct (get_or data _ _) as [components|e]; [|discriminate].
  destruct components as [| | | | |items|];
    try (rewrite mret_eq; intros [= <- _]; constructor).
  rewrite bind_lift. destruct (mapM _ items) as [parsed|e] eqn:Hm; [|discriminate].
  assert (Hnum : Forall numeric
            (List.filter (fun r => truthy (or_val (Raw.partNumber r) (Raw.lcscPart r)))
               parsed)).
  { apply Forall_bool_filter. eapply mapM_Forall; [|exact Hm].
    intros x y. apply Rev_parseComponent_numeric. }
  rewrite lift_eq. unfold PartsSearchRev.by_stock_then_price. rewrite sortM_numbers.
  2:{ eapply Forall_impl; [exact Hnum|]. apply numeric_numeric_fields. }
  intros [= <- _]. by apply sort_ranked.
Qed.

(** X16.  The results of the free-catalog client are in the client's own
    order: each result has more stock than every later one or, with the same
    stock, a price that is not higher; and they are no more than the limit of
    the query, ten when the query gives none.  This holds in both
    revisions. *)
Theorem JLCPCB_results_ordered params st (k : nat) l st' :
  or_num (Params.limit params) 10 = Num.of_Z (Z.of_nat k) ->
  PartsSearch.JLCPCB_search Number_toString network params st = (Ok l, st')
  \/ PartsSearchRev.search Number_toString toFixed1 ohm_sign plus_minus_sign network
       params st = (Ok l, st') ->
  StronglySorted ranks_before l /\ (length l <= k)%nat.
Proof.
  intros Hk [H|H].
  - revert H. unfold PartsSearch.JLCPCB_search. cbv zeta. rewrite try_catchM_eq.
    assert (H0 : StronglySorted ranks_before (@nil Raw.PartObject) /\ (0 <= k)%nat)
      by (split; [constructor|lia]).
    match goal with |- context [truthy_str ?t] => generalize t; intros searchTerm end.
    destruct (truthy_str searchTerm); cbn [negb];
      [|rewrite mret_eq; by intros [= <- _]].
    rewrite bind_fetch.
    destruct (network (history st) _) as [response|e];
      [|rewrite mret_eq; by intros [= <- _]].
    destruct (ok response); cbn [negb];
      [|rewrite bind_lift; destruct (text response); rewrite mret_eq; by intros [= <- _]].
    rewrite bind_lift. destruct (json response) as [data|e];
      [|rewrite mret_eq; by intros [= <- _]].
    rewrite bind_lift. destruct (get_or data _ _) as [components|e];
      [|rewrite mret_eq; by intros [= <- _]].
    rewrite bind_lift. destruct (call_map _ components) as [parsed|e] eqn:Hm;
      [|rewrite mret_eq; by intros [= <- _]].
    assert (Hnum : Forall numeric
              (List.filter (fun r => truthy (or_val (Raw.partNumber r) (Raw.lcscPart r)))
                 parsed)).
    { apply Forall_bool_filter. destruct components; try discriminate.
      cbn [call_map] in Hm. eapply mapM_Forall; [|exact Hm].
      intros x y. apply JLCPCB_parseComponent_numeric. }
    rewrite bind_lift, sortM_numbers.
    2:{ eapply Forall_impl; [exact Hnum|]. apply numeric_numeric_fields. }
    rewrite mret_eq. intros [= <- _]. rewrite Hk. split; [|apply slice0_length].
    by apply slice0_ranked, sort_ranked.
  - revert H. unfold PartsSearchRev.search. cbv zeta. rewrite try_catchM_eq.
    assert (H0 : StronglySorted ranks_before (@nil Raw.PartObject) /\ (0 <= k)%nat)
      by (split; [constructor|lia]).
    match goal with |- context [truthy_str ?t] => generalize t; intros searchTerm end.
    destruct (truthy_str searchTerm); cbn [negb];
      [|rewrite mret_eq; by intros [= <- _]].
    rewrite M_bind_eq.
    destruct (PartsSearchRev.searchCategory _ _ _ _ _ _ _ _ st) as [[results|e] st1] eqn:E1;
      [|rewrite mret_eq; by intros [= <- _]].
    apply searchCategory_ranked in E1.
    rewrite M_bind_eq.
    match goal with
    | |- context [(if ?c then ?a else ?b) st1] =>
        assert (Hsecond : forall r st2, (if c then a else b) st1 = (Ok r, st2) ->
                  StronglySorted ranks_before r)
    end.
    { intros r st2. destruct (_ && _).
      - destruct (PartsSearchRev.looksLikeResistor searchTerm).
        { apply searchCategory_ranked. }
        destruct (PartsSearchRev.looksLikeCapacitor searchTerm).
        { apply searchCategory_ranked. }
        rewrite mret_eq. by intros [= <- _].
      - rewrite mret_eq. by intros [= <- _]. }
    match goal with
    | |- context [(if ?c then ?a else ?b) st1] =>
        destruct ((if c then a else b) st1) as [[results2|e] st2] eqn:E2
    end; [|rewrite mret_eq; by intros [= <- _]].
    rewrite mret_eq. intros [= <- _]. rewrite Hk.
    split; [|apply slice0_length]. apply slice0_ranked. by eapply Hsecond.
Qed.

End Ordering.

Lemma JLCPCB_results_ordered_witness :
  exists l st',
    PartsSearch.JLCPCB_search Fmt.decimal Ex.catalog_network Ex.query Net.initial
    = (Ok l, st')
    /\ StronglySorted ranks_before l /\ (length l <= 10)%nat.
Proof.
  destruct (PartsSearch.JLCPCB_search Fmt.decimal Ex.catalog_network Ex.query Net.initial)
    as [[l|e] st'] eqn:E; [|vm_compute in E; discriminate].
  exists l, st'. split; [reflexivity|].
  apply (JLCPCB_results_ordered Fmt.decimal Fmt.decimal "" "" Ex.catalog_network
           Ex.query Net.initial 10 l st'); [reflexivity|].
  left. exact E.
Defined.

(** ** The cached token of the OAuth2 client *)

Section TokenCache.
Import Str JS Val Net PartsSearch Spec.
Local Open Scope num_scope.

Variable Number_toString : number -> string.
Variable network : list Event -> Request -> result Response.
Variable clock : list Event -> number.
Variables clientId clientSecret : string.

Abbreviation DigiKey_getAccessToken :=
  (PartsSearch.DigiKey_getAccessToken Number_toString network clock clientId clientSecret).

(** The token a call returns is the one the client holds afterwards. *)
Lemma getAccessToken_cached st tok st1 :
  DigiKey_getAccessToken st = (Ok tok, st1) -> accessToken st1 = tok.
Proof.
  unfold PartsSearch.DigiKey_getAccessToken.
  rewrite bind_get_accessToken, M_bind_eq.
  assert (Hfresh : forall st0,
    (if negb (DigiKey_isConfigured clientId clientSecret)
     then throw (ErrorMsg "DigiKey API credentials not configured")
     else
       fetch network (TokenRequest digikey_apiBase clientId clientSecret) ≫= fun response =>
       if negb (ok response)
       then lift (text response) ≫= fun error =>
            throw (ErrorMsg ("DigiKey auth failed: " +:+ error))
       else
         lift (json response) ≫= fun data =>
         lift (get data "access_token") ≫= fun token =>
         set_accessToken token ≫= fun _ =>
         Date_now clock ≫= fun now =>
         lift (get data "expires_in") ≫= fun expires_in =>
         lift (ToNumber Number_toString expires_in) ≫= fun seconds =>
         set_tokenExpiry (now + (seconds - 300) * 1000) ≫= fun _ =>
         get_accessToken) st0 = (Ok tok, st1) -> accessToken st1 = tok).
  { intros st0. destruct (negb _); [discriminate|].
    rewrite bind_fetch. destruct (network _ _) as [response|e]; [|discriminate].
    destruct (negb (ok response)).
    { rewrite bind_lift. destruct (text response); discriminate. }
    rewrite bind_lift. destruct (json response) as [data|e]; [|discriminate].
    rewrite bind_lift. destruct (get data "access_token") as [token|e]; [|discriminate].
    rewrite bind_set_accessToken, bind_Date_now, bind_lift.
    destruct (get data "expires_in") as [expires_in|e]; [|discriminate].
    rewrite bind_lift. destruct (ToNumber _ expires_in) as [seconds|e]; [|discriminate].
    rewrite bind_set_tokenExpiry. by intros [= <- <-]. }
  destruct (truthy (accessToken st)).
  - rewrite bind_Date_now, bind_get_tokenExpiry, mret_eq.
    destruct (Num.lt _ _); [rewrite mret_eq; by intros [= <- <-]|apply Hfresh].
  - rewrite mret_eq. apply Hfresh.
Qed.

(** X17.  The OAuth2 client reuses its token: once a call has returned a
    token, a further call made while the clock is before the expiry the client
    recorded returns the same token and only reads the clock; it sends no
    request. *)
Theorem getAccessToken_reuse st tok st1 :
  DigiKey_getAccessToken st = (Ok tok, st1) ->
  truthy tok = true ->
  (clock (history st1) <? tokenExpiry st1) = true ->
  DigiKey_getAccessToken st1 = (Ok tok, record ClockRead st1).
Proof.
  intros Hcall Htok Hvalid. apply getAccessToken_cached in Hcall.
  unfold PartsSearch.DigiKey_getAccessToken.
  rewrite bind_get_accessToken, M_bind_eq, Hcall, Htok.
  rewrite bind_Date_now, bind_get_tokenExpiry, mret_eq.
  cbn [record history tokenExpiry]. by rewrite Hvalid, mret_eq.
Qed.

End TokenCache.

Lemma getAccessToken_reuse_witness :
  PartsSearch.DigiKey_getAccessToken Fmt.decimal Ex.offline Ex.midnight "id" "secret"
    (Net.record Net.ClockRead Ex2.signed_in)
  = (Ok (Val.VStr "token"),
     Net.record Net.ClockRead (Net.record Net.ClockRead Ex2.signed_in)).
Proof.
  apply (getAccessToken_reuse Fmt.decimal Ex.offline Ex.midnight "id" "secret"
           Ex2.signed_in); reflexivity.
Defined.

(** ** Writing the rows back and reading them again *)

Section CsvLine.
Import Str Route RouteCSV.

Lemma app_cons_str c (a b : string) : String c a +:+ b = String c (a +:+ b).
Proof. reflexivity. Qed.

Lemma app_nil_str (b : string) : "" +:+ b = b.
Proof. reflexivity. Qed.

Lemma app_assoc_str (a b c : string) : (a +:+ b) +:+ c = a +:+ (b +:+ c).
Proof.
  induction a as [|x a IH]; [reflexivity|].
  change (String x ((a +:+ b) +:+ c) = String x (a +:+ (b +:+ c))). by rewrite IH.
Qed.

Lemma app_empty_r (a : string) : a +:+ "" = a.
Proof.
  induction a as [|x a IH]; [reflexivity|].
  change (String x (a +:+ "") = String x a). by rewrite IH.
Qed.

Lemma rev_app_rev_app v : forall current acc,
  String.rev_app (String.rev_app v current) acc = String.rev_app current (v +:+ acc).
Proof.
  induction v as [|c v IH]; intros current acc; cbn [String.rev_app String.append];
    [reflexivity|].
  by rewrite IH.
Qed.

(** A field read from the start, its characters kept last first, comes out
    as it was. *)
Lemma rev_read v : String.rev (String.rev_app v "") = v.
Proof. unfold String.rev. by rewrite rev_app_rev_app, app_empty_r. Qed.

Lemma is_quote_char c : is_quote c = true -> c = quote_char.
Proof.
  unfold is_quote, code. intros H%N.eqb_eq.
  rewrite <- (ascii_N_embedding c), H. reflexivity.
Qed.

(** Inside the quotes, an escaped field is read back as it was. *)
Lemma parseCSVLine_quoted v : forall current rest,
  closes rest ->
  parseCSVLine_from true current (escape_quotes v +:+ String quote_char rest)
  = parseCSVLine_from false (String.rev_app v current) rest.
Proof.
  induction v as [|c v IH]; intros current rest Hrest.
  - cbn [escape_quotes String.rev_app]. rewrite app_nil_str. cbn [parseCSVLine_from].
    change (is_quote quote_char) with true. cbv iota.
    destruct rest as [|next rest']; [reflexivity|].
    cbn in Hrest. by rewrite Hrest.
  - cbn [escape_quotes String.rev_app]. destruct (is_quote c) eqn:Hc.
    + apply is_quote_char in Hc as ->.
      rewrite !app_cons_str. cbn [parseCSVLine_from].
      change (is_quote quote_char) with true. cbv iota. cbn [andb].
      by apply IH.
    + rewrite app_cons_str. cbn [parseCSVLine_from]. rewrite Hc. cbn [negb andb].
      rewrite andb_false_r. by apply IH.
Qed.

Lemma parseCSVLine_fields values :
  values <> [] ->
  parseCSVLine (Val.join "," (map (fun v => quoted (escape_quotes v)) values)) = values.
Proof.
  unfold parseCSVLine. induction values as [|v values IH]; [done|]. intros _.
  destruct values as [|w values].
  - cbn [map Val.join]. unfold quoted. cbn [parseCSVLine_from].
    change (is_quote quote_char) with true. cbv iota.
    assert (Hfirst : forall s,
      match s +:+ String quote_char "" with
      | EmptyString => parseCSVLine_from (negb false) "" (s +:+ String quote_char "")
      | String next rest' =>
          if false && is_quote next
          then parseCSVLine_from false (String next "") rest'
          else parseCSVLine_from (negb false) "" (s +:+ String quote_char "")
      end = parseCSVLine_from true "" (s +:+ String quote_char "")).
    { intros s. by destruct (s +:+ _). }
    rewrite Hfirst, parseCSVLine_quoted by exact I.
    cbn [parseCSVLine_from]. by rewrite rev_read.
  - specialize (IH ltac:(done)).
    change (Val.join "," (map (fun v => quoted (escape_quotes v)) (v :: w :: values)))
      with (quoted (escape_quotes v) +:+ "," +:+
            Val.join "," (map (fun v => quoted (escape_quotes v)) (w :: values))).
    set (more := Val.join "," _) in *.
    unfold quoted. rewrite app_cons_str. cbn [parseCSVLine_from].
    change (is_quote quote_char) with true. cbv iota.
    rewrite app_assoc_str, app_cons_str, app_nil_str.
    assert (Hfirst : forall s t,
      match s +:+ String quote_char t with
      | EmptyString => parseCSVLine_from (negb false) "" (s +:+ String quote_char t)
      | String next rest' =>
          if false && is_quote next
          then parseCSVLine_from false (String next "") rest'
          else parseCSVLine_from (negb false) "" (s +:+ String quote_char t)
      end = parseCSVLine_from true "" (s +:+ String quote_char t)).
    { intros s t. by destruct (s +:+ _). }
    rewrite Hfirst, parseCSVLine_quoted by reflexivity.
    change ("," +:+ more) with (String "," more).
    cbn [parseCSVLine_from]. change (is_quote ",") with false.
    change (is_comma ",") with true. cbn [andb negb].
    by rewrite rev_read, IH.
Qed.

Lemma mapM_map {A B} (f : A -> result B) (g : A -> B) l :
  Forall (fun x => f x = Ok (g x)) l -> Val.mapM f l = Ok (map g l).
Proof.
  induction 1 as [|x l Hx Hl IH]; cbn [Val.mapM map]; [reflexivity|].
  by rewrite Hx, IH.
Qed.

(** The cell of a column, as text. *)
Lemma cell_plain row h :
  h ∉ inherited_names ->
  cell row h = Ok (quoted (escape_quotes (default "" (row !! h)))).
Proof.
  intros Hh. unfold cell. destruct (row !! h) as [v|]; cbn [default].
  - by destruct v.
  - by rewrite bool_decide_eq_false_2.
Qed.

Lemma data_line_cells headers row :
  Forall (fun h => h ∉ inherited_names) headers ->
  data_line headers row
  = Ok (Val.join "," (map (fun h => quoted (escape_quotes (default "" (row !! h))))
                        headers)).
Proof.
  intros Hh. unfold data_line.
  rewrite (mapM_map _ (fun h => quoted (escape_quotes (default "" (row !! h))))).
  - reflexivity.
  - eapply Forall_impl; [exact Hh|]. intros h Hh'. by apply cell_plain.
Qed.

(** X18.  The line [toCSV] writes for a row is read by [parseCSVLine] as the
    cells of the row, one for each header and empty where the row has no such
    column, whatever characters the cells hold: commas, double quotes and
    white space come back as they were.  The headers are at least one, and
    none is a name that a row object inherits. *)
Theorem data_line_round_trip headers row :
  headers <> [] ->
  Forall (fun h => h ∉ inherited_names) headers ->
  exists line,
    data_line headers row = Ok line
    /\ parseCSVLine line = map (fun h => default "" (row !! h)) headers.
Proof.
  intros Hne Hh. eexists. split; [by apply data_line_cells|].
  rewrite <- (map_map (fun h => default "" (row !! h)) (fun v => quoted (escape_quotes v))).
  apply parseCSVLine_fields. by destruct headers.
Qed.

End CsvLine.

Lemma data_line_round_trip_witness :
  exists line,
    RouteCSV.data_line ["Remark"; "Value"; "Footprint"]
      (<["Remark" := "series " +:+ Ex.quote +:+ "E24" +:+ Ex.quote +:+ ", 1% "]>
         (<["Value" := "4k7"]> ∅)) = Ok line
    /\ Route.parseCSVLine line
       = ["series " +:+ Ex.quote +:+ "E24" +:+ Ex.quote +:+ ", 1% "; "4k7"; ""].
Proof.
  apply (data_line_round_trip ["Remark"; "Value"; "Footprint"]); [done|].
  repeat constructor; apply (bool_decide_unpack _); vm_compute; reflexivity.
Defined.


Section CsvRoundTrip.
Import Str Route RouteCSV.

Variable Object_keys : BOMRow -> list string.
Hypothesis Object_keys_spec : forall row k, k ∈ Object_keys row <-> is_Some (row !! k).

Abbreviation all_headers := (RouteCSV.all_headers Object_keys).
Abbreviation toCSV := (RouteCSV.toCSV Object_keys).

(** *** The headers *)

Lemma add_header_elem acc key k : k ∈ add_header acc key <-> k ∈ acc \/ k = key.
Proof.
  unfold add_header. case_bool_decide as H.
  - split; [by left|]. intros [?| ->]; assumption.
  - rewrite elem_of_app, list_elem_of_singleton. tauto.
Qed.

Lemma add_header_NoDup acc key : NoDup acc -> NoDup (add_header acc key).
Proof.
  unfold add_header. intros Hacc. case_bool_decide as H; [exact Hacc|].
  apply NoDup_app. split; [exact Hacc|]. split; [|apply NoDup_singleton].
  intros x Hx ->%list_elem_of_singleton. contradiction.
Qed.

Lemma add_headers_elem keys : forall acc k,
  k ∈ foldl add_header acc keys <-> k ∈ acc \/ k ∈ keys.
Proof.
  induction keys as [|key keys IH]; intros acc k; cbn [foldl].
  - rewrite elem_of_nil. tauto.
  - rewrite IH, add_header_elem, elem_of_cons. tauto.
Qed.

Lemma add_headers_NoDup keys : forall acc, NoDup acc -> NoDup (foldl add_header acc keys).
Proof.
  induction keys as [|key keys IH]; intros acc Hacc; cbn [foldl]; [exact Hacc|].
  by apply IH, add_header_NoDup.
Qed.

Lemma all_headers_from rows : forall acc k,
  k ∈ foldl (fun allHeaders row => foldl add_header allHeaders (Object_keys row)) acc rows
  <-> k ∈ acc \/ exists row, row ∈ rows /\ k ∈ Object_keys row.
Proof.
  induction rows as [|row rows IH]; intros acc k; cbn [foldl].
  - split; [by left|]. intros [H|(row & Hrow%elem_of_nil & _)]; [exact H|done].
  - rewrite IH, add_headers_elem. split.
    + intros [[H|H]|(r & Hr & Hk)]; [by left| |].
      * right. exists row. split; [by left|exact H].
      * right. exists r. split; [by right|exact Hk].
    + intros [H|(r & Hr & Hk)]; [by left; left|].
      apply elem_of_cons in Hr as [->|Hr]; [by left; right|].
      right. by exists r.
Qed.

Lemma all_headers_elem rows k :
  k ∈ all_headers rows <-> exists row, row ∈ rows /\ is_Some (row !! k).
Proof.
  unfold RouteCSV.all_headers. rewrite all_headers_from. split.
  - intros [H%elem_of_nil|(row & Hrow & Hk)]; [done|].
    exists row. split; [exact Hrow|by apply Object_keys_spec].
  - intros (row & Hrow & Hk). right. exists row. split; [exact Hrow|].
    by apply Object_keys_spec.
Qed.

Lemma all_headers_NoDup rows : NoDup (all_headers rows).
Proof.
  unfold RouteCSV.all_headers. generalize (NoDup_nil_2 (A := string)).
  generalize (@nil string). induction rows as [|row rows IH]; intros acc Hacc;
    cbn [foldl]; [exact Hacc|].
  by apply IH, add_headers_NoDup.
Qed.

Lemma all_headers_plain rows :
  Forall plain_row rows -> Forall plain_key (all_headers rows).
Proof.
  intros Hrows. apply Forall_forall. intros k (row & Hrow & [v Hv])%all_headers_elem.
  rewrite Forall_forall in Hrows. by destruct (Hrows row Hrow k v Hv).
Qed.

(** *** The lines *)

Lemma data_line_plain headers row :
  Forall plain_key headers ->
  data_line headers row
  = Ok (Val.join "," (map (fun h => quoted (escape_quotes (default "" (row !! h))))
                        headers)).
Proof.
  intros Hh. apply data_line_cells.
  eapply Forall_impl; [exact Hh|]. by intros h (_ & _ & Hh').
Qed.

Lemma toCSV_plain rows :
  rows <> [] -> Forall plain_row rows ->
  toCSV rows
  = Ok (Val.join (String (ascii_of_N 10) "")
          (header_line (all_headers rows)
           :: map (fun row =>
                     Val.join ","
                       (map (fun h => quoted (escape_quotes (default "" (row !! h))))
                          (all_headers rows)))
                  rows)).
Proof.
  intros Hne Hrows. unfold RouteCSV.toCSV. destruct rows as [|row rows]; [done|].
  cbv zeta. rewrite (mapM_map _ (fun r : BOMRow =>
    Val.join "," (map (fun h => quoted (escape_quotes (default "" (r !! h))))
                    (all_headers (row :: rows))))).
  - reflexivity.
  - apply Forall_forall. intros r _. apply data_line_plain, all_headers_plain, Hrows.
Qed.

(** *** Characters *)

Lemma all_chars_app f a b : all_chars f (a +:+ b) = all_chars f a && all_chars f b.
Proof.
  induction a as [|c a IH]; [reflexivity|].
  rewrite app_cons_str. cbn [all_chars]. by rewrite IH, andb_assoc.
Qed.

Lemma all_chars_weaken (f g : ascii -> bool) s :
  (forall c, f c = true -> g c = true) -> all_chars f s = true -> all_chars g s = true.
Proof.
  intros Hfg. induction s as [|c s IH]; [reflexivity|]. cbn [all_chars].
  intros [Hc Hs]%andb_true_iff. by rewrite (Hfg c Hc), IH.
Qed.

Lemma all_chars_escape s :
  all_chars not_newline s = true -> all_chars not_newline (escape_quotes s) = true.
Proof.
  induction s as [|c s IH]; [reflexivity|]. cbn [all_chars escape_quotes].
  intros [Hc Hs]%andb_true_iff. destruct (is_quote c); cbn [all_chars].
  - by rewrite IH.
  - by rewrite Hc, IH.
Qed.

Lemma all_chars_quoted s :
  all_chars not_newline s = true -> all_chars not_newline (quoted s) = true.
Proof.
  intros Hs. unfold quoted. cbn [all_chars]. by rewrite all_chars_app, Hs.
Qed.

Lemma all_chars_join (g : string -> string) l :
  Forall (fun x => all_chars not_newline (g x) = true) l ->
  all_chars not_newline (Val.join "," (map g l)) = true.
Proof.
  induction 1 as [|x l Hx Hl IH]; [reflexivity|].
  destruct l as [|y l]; [exact Hx|].
  change (Val.join "," (map g (x :: y :: l)))
    with (g x +:+ "," +:+ Val.join "," (map g (y :: l))).
  by rewrite !all_chars_app, Hx, IH.
Qed.

Lemma escape_quotes_fixed s :
  all_chars not_quote_or_newline s = true -> escape_quotes s = s.
Proof.
  induction s as [|c s IH]; [reflexivity|]. cbn [all_chars escape_quotes].
  unfold not_quote_or_newline at 1.
  intros [[Hc _]%andb_true_iff Hs]%andb_true_iff.
  apply negb_true_iff in Hc. by rewrite Hc, IH.
Qed.

(** *** Splitting the text into its lines *)

Lemma split_aux_line s : forall cur t,
  all_chars not_newline s = true ->
  split_aux is_newline cur (s +:+ t) = split_aux is_newline (String.rev_app s cur) t.
Proof.
  induction s as [|c s IH]; intros cur t; [reflexivity|].
  cbn [all_chars]. intros [Hc Hs]%andb_true_iff.
  rewrite app_cons_str. cbn [split_aux String.rev_app].
  apply negb_true_iff in Hc. rewrite Hc. by apply IH.
Qed.

Lemma split_join lines :
  lines <> [] -> Forall (fun line => all_chars not_newline line = true) lines ->
  split is_newline (Val.join (String (ascii_of_N 10) "") lines) = lines.
Proof.
  unfold split. intros Hne Hlines. induction Hlines as [|x l Hx Hl IH]; [done|].
  destruct l as [|y l].
  - cbn [Val.join]. rewrite <- (app_empty_r x) at 1.
    rewrite split_aux_line by exact Hx. cbn [split_aux]. by rewrite rev_read.
  - change (Val.join (String (ascii_of_N 10) "") (x :: y :: l))
      with (x +:+ String (ascii_of_N 10) (Val.join (String (ascii_of_N 10) "") (y :: l))).
    rewrite split_aux_line by exact Hx. cbn [split_aux].
    change (is_newline (ascii_of_N 10)) with true. cbv iota.
    rewrite rev_read, IH; [reflexivity|done].
Qed.

Lemma filter_all {A} (p : A -> bool) l :
  Forall (fun x => p x = true) l -> List.filter p l = l.
Proof.
  induction 1 as [|x l Hx Hl IH]; [reflexivity|]. cbn [List.filter]. by rewrite Hx, IH.
Qed.

Lemma join_quoted_head (g : string -> string) l :
  l <> [] -> exists rest, Val.join "," (map (fun x => quoted (g x)) l) = String quote_char rest.
Proof.
  destruct l as [|x [|y l]]; [done| |]; intros _.
  - by eexists.
  - change (Val.join "," (map (fun x => quoted (g x)) (x :: y :: l)))
      with (quoted (g x) +:+ "," +:+ Val.join "," (map (fun x => quoted (g x)) (y :: l))).
    unfold quoted at 1. rewrite app_cons_str. by eexists.
Qed.

Lemma trim_quote_truthy rest : truthy_str (trim (String quote_char rest)) = true.
Proof.
  unfold trim. change (trimStart (String quote_char rest)) with (String quote_char rest).
  cbn [trimEnd]. by destruct (trimEnd rest).
Qed.

(** *** The row a line is read as *)

Lemma set_columns_other values (f : nat -> nat) h hs : forall acc,
  Forall (fun h' => trim h' = h') hs ->
  h ∉ hs ->
  foldl (set_column values) acc (imap (fun index header => (f index, header)) hs) !! h
  = acc !! h.
Proof.
  revert f. induction hs as [|h0 hs IH]; intros f acc Htrim Hh; [reflexivity|].
  apply Forall_cons in Htrim as [H0 Htrim].
  apply not_elem_of_cons in Hh as [Hne Hh].
  cbn [imap foldl].
  change (imap ((fun index header => (f index, header)) ∘ S) hs)
    with (imap (fun index header => (f (S index), header)) hs).
  rewrite (IH (fun i => f (S i))) by assumption.
  unfold set_column. rewrite H0.
  destruct (String.eqb h0 "__proto__"); [reflexivity|].
  by rewrite lookup_insert_ne.
Qed.

Lemma set_columns_at values (f : nat -> nat) hs : forall i h acc,
  Forall (fun h' => trim h' = h' /\ h' <> "__proto__") hs ->
  NoDup hs ->
  hs !! i = Some h ->
  foldl (set_column values) acc (imap (fun index header => (f index, header)) hs) !! h
  = Some (or_str (trim <$> values !! f i) "").
Proof.
  revert f. induction hs as [|h0 hs IH]; intros f i h acc Hok Hnd Hi; [done|].
  apply Forall_cons in Hok as [[H0 Hp] Hok].
  apply NoDup_cons in Hnd as [Hnot Hnd].
  cbn [imap foldl].
  change (imap ((fun index header => (f index, header)) ∘ S) hs)
    with (imap (fun index header => (f (S index), header)) hs).
  destruct i as [|i]; cbn in Hi.
  - injection Hi as <-.
    rewrite (set_columns_other values (fun i => f (S i)));
      [|eapply Forall_impl; [exact Hok|by intros ? [? _]] | exact Hnot].
    unfold set_column. rewrite H0.
    apply String.eqb_neq in Hp. rewrite Hp. by rewrite lookup_insert_eq.
  - by apply (IH (fun i => f (S i))).
Qed.

Lemma make_row_written headers row :
  Forall plain_key headers -> NoDup headers -> plain_row row ->
  written_as headers row
    (make_row headers (map (fun h => default "" (row !! h)) headers)).
Proof.
  intros Hk Hnd Hrow h. unfold make_row. case_bool_decide as Hh.
  - apply list_elem_of_lookup in Hh as [i Hi].
    rewrite (set_columns_at _ (fun i => i) headers i h); [|
      eapply Forall_impl; [exact Hk|] | exact Hnd | exact Hi].
    2:{ intros k (Ht & _ & Hin). split; [exact Ht|]. intros ->. apply Hin.
        apply list_elem_of_In. cbn. tauto. }
    change (map (fun h0 => default "" (row !! h0)) headers !! i)
      with (((fun h0 => default "" (row !! h0)) <$> headers) !! i).
    rewrite list_lookup_fmap, Hi. cbn [fmap option_fmap option_map or_str].
    f_equal. destruct (row !! h) as [v|] eqn:Hv; cbn [default]; [|reflexivity].
    change (id v) with v.
    destruct (Hrow h v Hv) as [_ [-> _]]. by destruct v.
  - rewrite (set_columns_other _ (fun i => i)); [apply lookup_empty| |exact Hh].
    eapply Forall_impl; [exact Hk|]. by intros k [? _].
Qed.

Lemma omap_all {A B} (f : A -> option B) (g : A -> B) l :
  Forall (fun x => f x = Some (g x)) l -> omap f l = map g l.
Proof.
  induction 1 as [|x l Hx Hl IH]; [reflexivity|]. cbn [omap list_omap map].
  by rewrite Hx, IH.
Qed.

Lemma Forall2_map_r {A B} (R : A -> B -> Prop) (g : A -> B) l :
  Forall (fun x => R x (g x)) l -> Forall2 R l (map g l).
Proof. induction 1; constructor; assumption. Qed.

(** X19.  Writing rows as CSV and reading the text back gives the rows
    again, each completed with an empty cell for every column that only other
    rows have.  This holds for rows with at least one column, whose column
    names and values have no white space around them and no line feed, and
    whose column names have no double quote and are not names a row object
    inherits; commas and double quotes in the values survive the trip. *)
Theorem parseCSV_toCSV rows :
  rows <> [] -> all_headers rows <> [] -> Forall plain_row rows ->
  exists csvText,
    toCSV rows = Ok csvText
    /\ Forall2 (written_as (all_headers rows)) rows (parseCSV csvText).
Proof.
  intros Hne Hheaders Hrows. eexists. split; [by apply toCSV_plain|].
  set (headers := all_headers rows) in *.
  remember (fun row : BOMRow =>
         Val.join "," (map (fun h => quoted (escape_quotes (default "" (row !! h))))
                         headers)) as line eqn:Hline.
  pose proof (all_headers_plain rows Hrows) as Hplain. fold headers in Hplain.
  assert (Hheader : header_line headers
                    = Val.join "," (map (fun h => quoted (escape_quotes h)) headers)).
  { unfold header_line. f_equal. apply map_ext_Forall.
    eapply Forall_impl; [exact Hplain|]. intros h (_ & Hq & _).
    by rewrite escape_quotes_fixed. }
  unfold parseCSV. rewrite split_join; [| done |].
  2:{ constructor.
      - rewrite Hheader. apply all_chars_join.
        eapply Forall_impl; [exact Hplain|]. intros h (_ & Hq & _).
        apply all_chars_quoted, all_chars_escape.
        eapply all_chars_weaken; [|exact Hq].
        intros c. unfold not_quote_or_newline, not_newline. by intros [_ ?]%andb_true_iff.
      - apply Forall_forall. intros l (row & <- & Hrow)%list_elem_of_In%in_map_iff.
        apply list_elem_of_In in Hrow. rewrite Forall_forall in Hrows.
        rewrite Hline.
        apply all_chars_join, Forall_forall. intros h _.
        apply all_chars_quoted, all_chars_escape.
        destruct (row !! h) as [v|] eqn:Hv; [|reflexivity].
        by destruct (Hrows row Hrow h v Hv) as [_ [_ ?]]. }
  rewrite filter_all.
  2:{ constructor.
      - rewrite Hheader. destruct (join_quoted_head escape_quotes headers Hheaders)
          as [rest ->]. apply trim_quote_truthy.
      - apply Forall_forall. intros l (row & <- & Hrow)%list_elem_of_In%in_map_iff.
        rewrite Hline.
        destruct (join_quoted_head (fun h => escape_quotes (default "" (row !! h)))
                    headers Hheaders) as [rest ->].
        apply trim_quote_truthy. }
  destruct rows as [|row rows]; [done|]. cbn [map]. cbv zeta.
  rewrite Hheader, parseCSVLine_fields by exact Hheaders.
  change (line row :: map line rows) with (map line (row :: rows)).
  rewrite (omap_all _ (fun l => make_row headers (parseCSVLine l))).
  2:{ apply Forall_forall. intros l (r & <- & Hr)%list_elem_of_In%in_map_iff.
      destruct (parseCSVLine _) eqn:E; [|reflexivity].
      exfalso. revert E. rewrite Hline.
      rewrite <- (map_map (fun h => default "" (r !! h))
                          (fun v => quoted (escape_quotes v))).
      rewrite parseCSVLine_fields; [|by destruct headers].
      by destruct headers. }
  rewrite map_map. apply Forall2_map_r, Forall_forall. intros r Hr.
  rewrite Hline.
  rewrite <- (map_map (fun h => default "" (r !! h)) (fun v => quoted (escape_quotes v))).
  rewrite parseCSVLine_fields; [|by destruct headers].
  apply make_row_written; [exact Hplain|apply all_headers_NoDup|].
  rewrite Forall_forall in Hrows. apply Hrows, Hr.
Qed.

End CsvRoundTrip.

Lemma keys_of_spec (row : Route.BOMRow) k : k ∈ Ex2.keys_of row <-> is_Some (row !! k).
Proof.
  unfold Ex2.keys_of. rewrite list_elem_of_fmap. split.
  - intros ([k' v] & -> & H%elem_of_map_to_list). by exists v.
  - intros [v Hv]. exists (k, v). split; [reflexivity|]. by apply elem_of_map_to_list.
Qed.

Lemma parseCSV_toCSV_witness :
  exists csvText,
    RouteCSV.toCSV Ex2.keys_of Ex2.two_rows = Ok csvText
    /\ Forall2 (written_as (RouteCSV.all_headers Ex2.keys_of Ex2.two_rows))
         Ex2.two_rows (Route.parseCSV csvText).
Proof.
  apply (parseCSV_toCSV Ex2.keys_of keys_of_spec Ex2.two_rows).
  - done.
  - vm_compute. discriminate.
  - unfold Ex2.two_rows. constructor; [|constructor; [|constructor]]; intros k v;
      repeat (rewrite lookup_insert_Some; intros [[<- <-]|[_ H]]; [|revert H]);
      try (rewrite lookup_empty; discriminate);
      (split; [split; [vm_compute; reflexivity|split; [reflexivity|]]
              |split; [vm_compute; reflexivity|reflexivity]]);
      apply (bool_decide_unpack _); vm_compute; reflexivity.
Defined.

(** ** The columns of the rows read from a file *)

Section ParseCSVColumns.
Import Str Route.

Lemma set_columns_some values (f : nat -> nat) k hs : forall acc,
  is_Some (foldl (set_column values) acc
             (imap (fun index header => (f index, header)) hs) !! k)
  <-> is_Some (acc !! k) \/ (k ∈ trim <$> hs /\ k <> "__proto__").
Proof.
  revert f. induction hs as [|h hs IH]; intros f acc; cbn [imap foldl].
  - rewrite fmap_nil, elem_of_nil. tauto.
  - change (imap ((fun index header => (f index, header)) ∘ S) hs)
      with (imap (fun index header => (f (S index), header)) hs).
    rewrite (IH (fun i => f (S i))), fmap_cons, elem_of_cons. unfold set_column.
    destruct (String.eqb (trim h) "__proto__") eqn:E.
    + apply String.eqb_eq in E. split; [tauto|].
      intros [H|[[->|H] Hk]]; [tauto|congruence|tauto].
    + apply String.eqb_neq in E. rewrite lookup_insert_is_Some'. split.
      * intros [[<-|H]|H]; [right; split; [by left|congruence]|by left|tauto].
      * intros [H|[[->|H] Hk]]; [by left; right|by left; left|tauto].
Qed.

Lemma make_row_columns headers values k :
  is_Some (make_row headers values !! k)
  <-> k ∈ trim <$> headers /\ k <> "__proto__".
Proof.
  unfold make_row. rewrite (set_columns_some values (fun i => i)).
  rewrite lookup_empty. split; [intros [[? [=]]|?]; assumption|by right].
Qed.

(** X20.  The rows read from one file all have the same columns: those of
    the header line, also where a line has fewer or more cells than the header
    has names. *)
Theorem parseCSV_same_columns csvText row1 row2 k :
  row1 ∈ parseCSV csvText -> row2 ∈ parseCSV csvText ->
  is_Some (row1 !! k) -> is_Some (row2 !! k).
Proof.
  unfold parseCSV.
  destruct (List.filter _ _) as [|header_line [|first more]];
    [by intros ?%not_elem_of_nil | by intros ?%not_elem_of_nil |].
  cbv zeta.
  intros (line1 & _ & Hrow1)%list_elem_of_omap (line2 & _ & Hrow2)%list_elem_of_omap.
  destruct (parseCSVLine line1); [discriminate|]. injection Hrow1 as <-.
  destruct (parseCSVLine line2); [discriminate|]. injection Hrow2 as <-.
  rewrite !make_row_columns. tauto.
Qed.

Lemma parseCSVLine_from_cells_upto n : forall line inQuotes current,
  (String.length line <= n)%nat -> parseCSVLine_from inQuotes current line <> [].
Proof.
  induction n as [|n IH]; intros line inQuotes current Hlen.
  - destruct line; [done|cbn in Hlen; lia].
  - destruct line as [|char rest]; [done|]. cbn [String.length] in Hlen.
    cbn [parseCSVLine_from]. destruct (is_quote char).
    + destruct rest as [|next rest']; [apply IH; cbn; lia|].
      cbn [String.length] in Hlen.
      destruct (inQuotes && is_quote next); apply IH; cbn [String.length]; lia.
    + destruct (is_comma char && negb inQuotes); [done|apply IH; lia].
Qed.

Lemma parseCSVLine_from_cells line inQuotes current :
  parseCSVLine_from inQuotes current line <> [].
Proof. by apply (parseCSVLine_from_cells_upto (String.length line)). Qed.

(** X21.  Every line of the file that holds more than white space gives one
    row, the first such line apart, which names the columns: no line is
    dropped for having no cell.  A file with fewer than two such lines gives
    no row. *)
Theorem parseCSV_row_count csvText :
  length (parseCSV csvText) = Nat.pred (length (non_blank_lines csvText)).
Proof.
  unfold parseCSV, non_blank_lines.
  destruct (List.filter _ _) as [|header_line [|first more]]; [reflexivity..|].
  cbv zeta. generalize (first :: more). intros lines.
  cbn [length Nat.pred]. induction lines as [|line lines IH]; [reflexivity|].
  cbn [omap list_omap].
  destruct (parseCSVLine line) eqn:E; [by apply parseCSVLine_from_cells in E|].
  cbn [length]. by rewrite <- IH.
Qed.

End ParseCSVColumns.

Lemma parseCSV_same_columns_witness :
  is_Some ((<["Value" := ""]> (<["Reference" := "C1"]> ∅) : Route.BOMRow) !! "Value").
Proof.
  assert (E : Route.parseCSV Ex2.short_csv = Ex2.short_rows) by vm_refl.
  apply (parseCSV_same_columns Ex2.short_csv
           (<["Value" := "10k"]> (<["Reference" := "R1"]> ∅))).
  - rewrite E. apply list_elem_of_In. cbn. tauto.
  - rewrite E. apply list_elem_of_In. cbn. tauto.
  - by eexists.
Defined.

(** ** The upload handler *)

Section Upload.
Import Str Route RoutePOST.

Variable toLocaleString : number -> string.
Variable searchAllSuppliers :
  list Params.t -> Params.t -> result (gmap string (list PartSearchResult)).
Variable Object_keys : BOMRow -> list string.
Variable message : error -> string.

Abbreviation sourceRows := (RoutePOST.sourceRows toLocaleString searchAllSuppliers).
Abbreviation POST :=
  (RoutePOST.POST toLocaleString searchAllSuppliers Object_keys message).

(** The status of a settled row and the searches it cost. *)
Lemma sourceRow_status suppliers row res out calls :
  sourceRow toLocaleString suppliers row = (Ok (res, out), calls) ->
  originalRow res = row
  /\ ((status res = matched /\ length calls = 1%nat)
      \/ (status res = not_found /\ (length calls <= 1)%nat)
      \/ (status res = skipped /\ calls = [])
      \/ (status res = already_sourced /\ calls = [])).
Proof.
  unfold Route.sourceRow, Route.processBOMRow. cbv zeta.
  destruct (_ || _ || _).
  { intros [= <- _ <-]. split; [reflexivity|]. by right; right; left. }
  destruct (_ || _ || _).
  { intros [= <- _ <-]. split; [reflexivity|]. by right; right; left. }
  destruct (_ || _).
  { intros [= <- _ <-]. split; [reflexivity|]. by right; right; right. }
  destruct (row !! "Reference") as [reference|]; [|discriminate].
  destruct (_ && _).
  { intros [= <- _ <-]. split; [reflexivity|]. right; left. split; [reflexivity|cbn; lia]. }
  destruct (suppliers _) as [found|e]; [|discriminate].
  intros [= <- _ <-]. split; [reflexivity|].
  cbn [status]. destruct (sel_part _).
  - by left.
  - right; left. split; [reflexivity|cbn; lia].
Qed.

Lemma statistics_cons res results :
  statistics (res :: results)
  = Stats.mk (S (Stats.total (statistics results)))
      ((if status_is matched res then 1 else 0) + Stats.matched (statistics results))
      ((if status_is not_found res then 1 else 0) + Stats.notFound (statistics results))
      ((if status_is skipped res then 1 else 0) + Stats.skipped (statistics results))
      ((if status_is already_sourced res then 1 else 0)
       + Stats.alreadySourced (statistics results)).
Proof.
  unfold statistics. cbn [List.filter length Stats.total Stats.matched Stats.notFound
                          Stats.skipped Stats.alreadySourced].
  f_equal; match goal with |- context [if ?c then _ else _] => by destruct c end.
Qed.

Lemma sourceRows_outcome rows : forall earlier results sourcedRows all,
  sourceRows earlier rows = (Ok (results, sourcedRows), all) ->
  map originalRow results = rows
  /\ length sourcedRows = length rows
  /\ exists calls,
       all = earlier ++ calls
       /\ (Stats.matched (statistics results) <= length calls)%nat
       /\ (length calls
           <= Stats.matched (statistics results) + Stats.notFound (statistics results))%nat.
Proof.
  induction rows as [|row rows IH]; intros earlier results sourcedRows all;
    cbn [RoutePOST.sourceRows].
  - intros [= <- <- <-]. repeat split. exists []. rewrite app_nil_r. cbn. by repeat split.
  - destruct (sourceRow _ _ row) as [[[res out]|e] calls] eqn:Hrow; [|discriminate].
    destruct (RoutePOST.sourceRows _ _ (earlier ++ calls) rows)
      as [[[results' sourcedRows']|e] all'] eqn:Hrest; [|discriminate].
    intros [= <- <- <-].
    apply sourceRow_status in Hrow as [Horig Hstatus].
    apply IH in Hrest as (Hres & Hlen & calls' & -> & Hlo & Hhi).
    split; [cbn [map]; by rewrite Horig, Hres|].
    split; [cbn [length]; by rewrite Hlen|].
    exists (calls ++ calls'). split; [by rewrite app_assoc|].
    rewrite statistics_cons, length_app.
    cbn [Stats.matched Stats.notFound]. unfold status_is.
    destruct Hstatus as [[-> Hc]|[[-> Hc]|[[-> ->]|[-> ->]]]]; cbn [length]; lia.
Qed.

Lemma statistics_sum results :
  Stats.total (statistics results)
  = (Stats.matched (statistics results) + Stats.notFound (statistics results)
     + Stats.skipped (statistics results)
     + Stats.alreadySourced (statistics results))%nat.
Proof.
  induction results as [|res results IH]; [reflexivity|].
  rewrite statistics_cons.
  cbn [Stats.total Stats.matched Stats.notFound Stats.skipped Stats.alreadySourced].
  rewrite IH. unfold status_is. destruct (status res); lia.
Qed.

(** X22.  When an upload succeeds, the reply has one result for each row read
    from the file, in the order of the rows, and its statistics add up: the
    total is the number of rows, and every row is counted once, as matched,
    not found, skipped or already sourced.  The suppliers were searched at
    least once for each matched row, and at most once for each row that is
    matched or not found. *)
Theorem POST_statistics csvText stats results csv calls :
  POST (Some csvText) = (Success stats results csv, calls) ->
  map originalRow results = parseCSV csvText
  /\ Stats.total stats = length (parseCSV csvText)
  /\ Stats.total stats
     = (Stats.matched stats + Stats.notFound stats + Stats.skipped stats
        + Stats.alreadySourced stats)%nat
  /\ (Stats.matched stats <= length calls)%nat
  /\ (length calls <= Stats.matched stats + Stats.notFound stats)%nat.
Proof.
  unfold RoutePOST.POST. cbv zeta.
  destruct (_ =? _)%nat; [discriminate|].
  destruct (RoutePOST.sourceRows _ _ [] _) as [[[results' sourcedRows]|e] all] eqn:Hrows;
    [|discriminate].
  destruct (RouteCSV.toCSV _ _) as [outputCSV|e]; [|discriminate].
  intros [= <- <- _ <-].
  apply sourceRows_outcome in Hrows as (Hres & _ & calls' & -> & Hlo & Hhi).
  rewrite app_nil_l. split; [exact Hres|].
  split; [cbn [statistics Stats.total]; by rewrite <- Hres, length_map|].
  split; [apply statistics_sum|]. by split.
Qed.

End Upload.

Lemma POST_statistics_witness :
  exists stats results csv calls,
    RoutePOST.POST Fmt.decimal (fun _ => Ex.catalog_supplier) Ex2.keys_of (fun _ => "")
      (Some Ex.csv) = (RoutePOST.Success stats results csv, calls)
    /\ Stats.total stats = length (Route.parseCSV Ex.csv).
Proof.
  assert (H : RoutePOST.succeeded
                (RoutePOST.POST Fmt.decimal (fun _ => Ex.catalog_supplier) Ex2.keys_of
                   (fun _ => "") (Some Ex.csv)) = true) by vm_refl.
  destruct (RoutePOST.POST _ _ _ _ _) as [[code msg|stats results csv] calls] eqn:E;
    [discriminate|].
  exists stats, results, csv, calls. split; [reflexivity|].
  by destruct (POST_statistics Fmt.decimal (fun _ => Ex.catalog_supplier) Ex2.keys_of
                 (fun _ => "") Ex.csv stats results csv calls E) as (_ & ? & _).
Defined.
